(** * The iron-borrowing ledger of Backend-SHMS

    A shallow embedding of the code that keeps the shared irons of the hostel:

    - [DatabaseManager.borrowIron], [DatabaseManager.returnIron],
      [DatabaseManager.getDefaultIrons], [DatabaseManager.saveAll] and the
      iron counts of [DatabaseManager.getStatistics] (database/index.js);
    - the three iron routes of routes/index.js, which call the manager
      (module [Routes]);
    - the three iron routes of the stand-alone server, which work on their
      own in-memory [database.ironBorrowing] (module [Server]).

    Conventions of the embedding.

    - A JavaScript value that may be [null] or [undefined] is an [option];
      [None] stands for both (the field is "absent").
    - Numbers are integers ([Z]) and arithmetic on them is exact: iron ids,
      durations in hours and the millisecond time value of a [Date].  A
      date field holds the time value its [Date] was built from; the [Date]
      is valid, and is written to the data file and sent in responses,
      when that value is at most 8.64e15 in magnitude ([valid_time]);
      beyond it the [Date] is invalid and its JSON text is [null].
    - A request body is the object the handler reads: what the JSON parser
      built and, in routes/index.js, [sanitizeInput] has trimmed.  Its
      numeric fields hold integers and its text fields hold strings.
      [parseInt] gives back an integer that is below 10^21 in magnitude
      ([plain_decimal]); a greater one is turned into text with an exponent,
      of which [parseInt] reads the leading digit, and is not a request the
      embedding describes.
    - The handlers are modelled after [authenticateToken] has let the request
      through.  The [timestamp] that [res.apiSuccess] and [res.apiError] add
      to every body is left out of the responses.
    - The clock and [Math.random] are inputs: every read of either is an
      explicit argument of the function that makes it.
    - Writing a data file succeeds.  (The code logs a failed write and goes
      on; no path that fails a request writes.) *)

From Stdlib Require Import ZArith QArith Qround.
From stdpp Require Import base list strings pretty gmap sorting.

Local Open Scope Z_scope.

(** ** Units *)

Record Iron := mkIron {
  ironId     : Z;
  available  : bool;
  borrowedBy : option string;
  borrowedAt : option Z;
  returnBy   : option Z;
  room       : option string
}.

(** ** JavaScript truthiness and [||] on the values the code applies them to *)

Definition truthy_num (v : option Z) : bool :=
  match v with
  | Some z => negb (z =? 0)
  | None => false
  end.

Definition truthy_str (v : option string) : bool :=
  match v with
  | Some s => negb (String.eqb s "")
  | None => false
  end.

(** [v || d] for a number or NaN/undefined on the left. *)
Definition or_num (v : option Z) (d : Z) : Z :=
  if truthy_num v then default d v else d.

(** [v || d] for a string or undefined on the left. *)
Definition or_str (v : option string) (d : string) : string :=
  if truthy_str v then default d v else d.

(** [parseInt] of a body field: the integer itself, and NaN when the field
    is missing.  In the result [None] is NaN.

    [parseInt] turns its argument into text and reads the digits at its
    beginning.  The text of an integer below 10^21 in magnitude is its
    decimal digits, which give the integer back; from 10^21 on the text
    has an exponent ([1e+21]) and only its leading digit is read.  The
    definition is that of the first case: a request whose id or duration
    is not a [plain_decimal] is outside what it describes. *)
Definition parseInt (v : option Z) : option Z := v.


(** ** The clock

    [borrowIron] and the borrow handler of the stand-alone server read the
    clock twice, first with [new Date()] for [borrowedAt], then with
    [Date.now()] for [returnBy]. *)

Record Clock := mkClock {
  new_Date : Z;
  Date_now : Z
}.

(** [d] hours, in milliseconds. *)
Definition hours (d : Z) : Z := d * 60 * 60 * 1000.

(** ** database/index.js *)

Record Database := mkDatabase {
  ironBorrowing      : list Iron;  (* this.database.ironBorrowing *)
  ironBorrowing_json : list Iron   (* what data/ironBorrowing.json holds *)
}.

Record BorrowerData := mkBorrowerData {
  bd_borrowerName : option string;
  bd_room         : option string;
  bd_duration     : option Z
}.

(** [irons.find(i => i.ironId === id)], with the index of the object found:
    the code mutates that object in place.  The argument is a number or NaN
    ([None]), which is [===] to no id. *)
Definition find_iron (id : option Z) (irons : list Iron) : option (nat * Iron) :=
  list_find (λ i, Some (ironId i) = id) irons.

(** [saveData('ironBorrowing.json', this.database.ironBorrowing)] *)
Definition saveData (irons : list Iron) : Database :=
  {| ironBorrowing := irons; ironBorrowing_json := irons |}.

(** [saveAll()], restricted to the irons. *)
Definition saveAll (db : Database) : Database :=
  saveData (ironBorrowing db).

(** The time values of the valid [Date]s ([TimeClip]): a [Date] built from
    another value is invalid, and [JSON.stringify] writes it as [null]. *)
Definition valid_time (t : Z) : Prop :=
  -8640000000000000 ≤ t ≤ 8640000000000000.

(** The assignments of the [if] body of [borrowIron].  [returnBy] holds the
    value the [Date] is built from, valid or not. *)
Definition borrow_assign (iron : Iron) (by_ : option string)
    (rm : option string) (duration : option Z) (clk : Clock) : Iron :=
  {| ironId := ironId iron;
     available := false;
     borrowedBy := by_;
     borrowedAt := Some (new_Date clk);
     returnBy := Some (Date_now clk + or_num duration 4 * 60 * 60 * 1000);
     room := rm |}.

(** The assignments of the [if] body of [returnIron]. *)
Definition return_assign (iron : Iron) : Iron :=
  {| ironId := ironId iron;
     available := true;
     borrowedBy := None;
     borrowedAt := None;
     returnBy := None;
     room := None |}.

Definition borrowIron (id : option Z) (borrowerData : BorrowerData) (clk : Clock)
    (db : Database) : Database * option Iron :=
  match find_iron id (ironBorrowing db) with
  | Some (k, iron) =>
      if available iron then
        let iron' := borrow_assign iron (bd_borrowerName borrowerData)
                       (bd_room borrowerData) (bd_duration borrowerData) clk in
        (saveData (<[k := iron']> (ironBorrowing db)), Some iron')
      else (db, Some iron)
  | None => (db, None)
  end.

Definition returnIron (id : option Z) (db : Database) : Database * option Iron :=
  match find_iron id (ironBorrowing db) with
  | Some (k, iron) =>
      if negb (available iron) then
        let iron' := return_assign iron in
        (saveData (<[k := iron']> (ironBorrowing db)), Some iron')
      else (db, Some iron)
  | None => (db, None)
  end.

(** The iron counts of [getStatistics]. *)
Definition ironsBorrowed (db : Database) : nat :=
  length (filter (λ i, available i = false) (ironBorrowing db)).

Definition availableIrons (db : Database) : nat :=
  length (filter (λ i, available i = true) (ironBorrowing db)).

(** *** Provisioning

    [getDefaultIrons] draws from [Math.random] and reads the clock while it
    builds the twenty records.  Both are streams of the environment, holding
    the values still to come; the function threads the number of values it
    has consumed of each. *)

Record Env := mkEnv {
  Math_random : nat → Q;   (* successive results of Math.random() *)
  clock       : nat → Z    (* successive readings of the clock, in ms *)
}.

Record Consumed := mkConsumed {
  draws : nat;
  reads : nat
}.

Definition Eff (A : Type) : Type := Consumed → A * Consumed.

#[global] Instance Eff_ret : MRet Eff := λ A (a : A) c, (a, c).
#[global] Instance Eff_bind : MBind Eff :=
  λ A B (f : A → Eff B) (m : Eff A) c, let '(a, c') := m c in f a c'.

Section Provisioning.
Variable env : Env.

Definition random : Eff Q :=
  λ c, (Math_random env (draws c),
        {| draws := S (draws c); reads := reads c |}).

Definition now : Eff Z :=
  λ c, (clock env (reads c),
        {| draws := draws c; reads := S (reads c) |}).

(** [r > 0.3] *)
Definition above_03 (r : Q) : bool := negb (Qle_bool r (3 # 10)).

(** [Math.floor(r * n) + 1] *)
Definition floor_times (r : Q) (n : Z) : Z := Qfloor (r * inject_Z n) + 1.

(** The object literal pushed for index [i]; its properties are evaluated
    in the order they are written, and the branch of each ternary not
    taken consumes nothing. *)
Definition defaultIron (i : Z) : Eff Iron :=
  a ← random;
  b ← random;
  c ← random;
  borrowedAt_ ← (if above_03 c then mret None
                  else t ← now; mret (Some t));
  d ← random;
  returnBy_ ← (if above_03 d then mret None
                else t ← now; mret (Some (t + 4 * 60 * 60 * 1000)));
  e ← random;
  room_ ← (if above_03 e then mret None
            else f ← random; g ← random;
                 mret (Some (pretty (floor_times f 3) +:+ "0"
                               +:+ pretty (floor_times g 9))));
  mret {| ironId := i;
          available := above_03 a;
          borrowedBy := if above_03 b then None
                        else Some ("Student " +:+ pretty i);
          borrowedAt := borrowedAt_;
          returnBy := returnBy_;
          room := room_ |}.

(** The [for] loop, over the indices still to come. *)
Fixpoint push_irons (todo : list Z) (irons : list Iron) : Eff (list Iron) :=
  match todo with
  | [] => mret irons
  | i :: todo' => iron ← defaultIron i; push_irons todo' (irons ++ [iron])
  end.

Definition getDefaultIrons : Eff (list Iron) :=
  push_irons (seqZ 1 20) [].

(** [initializeDatabase], for the irons: the content of
    data/ironBorrowing.json when the file exists, else the default irons,
    which [loadData] also writes to the file. *)
Definition initializeDatabase (file : option (list Iron)) : Database :=
  match file with
  | Some irons => {| ironBorrowing := irons; ironBorrowing_json := irons |}
  | None => saveData (getDefaultIrons {| draws := 0; reads := 0 |}).1
  end.
End Provisioning.

(** ** Requests and responses *)

Record BorrowBody := mkBorrowBody {
  body_ironId       : option Z;
  body_borrowerName : option string;
  body_room         : option string;
  body_duration     : option Z
}.

Record ReturnBody := mkReturnBody {
  ret_ironId : option Z
}.

Record Summary := mkSummary {
  total           : nat;
  sum_available   : nat;
  sum_borrowed    : nat;
  sum_irons       : list Iron
}.

Inductive Payload :=
| OneIron (iron : Iron)
| IronSummary (summary : Summary)
| IronList (irons : list Iron).

Inductive Response :=
| Success (status : Z) (message : option string) (data : Payload)
| Failure (status : Z) (error : string).

(** ** routes/index.js *)

Module Routes.

(** [res.apiSuccess(data, message)] and [res.apiError(message, statusCode)]
    of the [formatResponse] middleware. *)
Definition apiSuccess (data : Payload) (message : string) : Response :=
  Success 200 (Some message) data.

Definition apiError (message : string) (statusCode : Z) : Response :=
  Failure statusCode message.

(** [router.get('/iron-borrowing')] *)
Definition summarize (irons : list Iron) : Summary :=
  {| total := length irons;
     sum_available := length (filter (λ i, available i = true) irons);
     sum_borrowed := length (filter (λ i, available i = false) irons);
     sum_irons := irons |}.

Definition get_iron_borrowing (db : Database) : Database * Response :=
  (db, apiSuccess (IronSummary (summarize (ironBorrowing db)))
         "Iron borrowing status retrieved successfully").

(** [router.post('/iron-borrowing/borrow')] *)
Definition post_borrow (body : BorrowBody) (clk : Clock) (db : Database)
    : Database * Response :=
  if negb (truthy_num (body_ironId body))
     || negb (truthy_str (body_borrowerName body))
  then (db, apiError "Iron ID and borrower name are required" 400)
  else
    let '(db', found) :=
      borrowIron (parseInt (body_ironId body))
        {| bd_borrowerName := body_borrowerName body;
           bd_room := Some (or_str (body_room body) "");
           bd_duration := Some (or_num (parseInt (body_duration body)) 4) |}
        clk db in
    match found with
    | None => (db', apiError "Iron not found" 404)
    | Some iron =>
        if negb (available iron)
        then (db', apiError "Iron is already borrowed" 400)
        else (db', apiSuccess (OneIron iron) "Iron borrowed successfully")
    end.

(** [router.post('/iron-borrowing/return')] *)
Definition post_return (body : ReturnBody) (db : Database)
    : Database * Response :=
  if negb (truthy_num (ret_ironId body))
  then (db, apiError "Iron ID is required" 400)
  else
    let '(db', found) := returnIron (parseInt (ret_ironId body)) db in
    match found with
    | None => (db', apiError "Iron not found" 404)
    | Some iron => (db', apiSuccess (OneIron iron) "Iron returned successfully")
    end.

(** What can happen to the manager's irons while the process runs: the
    three routes, the [setInterval] callback and the [SIGINT] handler of
    database/index.js.  Time passing is no event of its own: the only code
    run by a timer is the callback that saves.  (The process exits after
    the save on SIGINT; the model lets events follow it.) *)
Inductive Event :=
| POST_borrow (body : BorrowBody) (clk : Clock)
| POST_return (body : ReturnBody)
| GET_iron_borrowing
| Interval_saveAll
| SIGINT_saveAll.

Definition handle (e : Event) (db : Database) : Database * option Response :=
  match e with
  | POST_borrow body clk => prod_map id Some (post_borrow body clk db)
  | POST_return body => prod_map id Some (post_return body db)
  | GET_iron_borrowing => prod_map id Some (get_iron_borrowing db)
  | Interval_saveAll => (saveAll db, None)
  | SIGINT_saveAll => (saveAll db, None)
  end.

Inductive reachable (init : Database) : Database → Prop :=
| reachable_init : reachable init init
| reachable_step e db :
    reachable init db → reachable init (handle e db).1.

(** The database after a sequence of events, oldest first. *)
Definition run (es : list Event) (db : Database) : Database :=
  foldl (λ db e, (handle e db).1) db es.

End Routes.

(** ** The stand-alone server *)

Module Server.

(** [database.ironBorrowing] as the module builds it when it is loaded; the
    records carry no [room] property. *)
Definition ironBorrowing0 (env : Env) : Eff (list Iron) :=
  at3 ← now env;
  by3 ← now env;
  at5 ← now env;
  by5 ← now env;
  mret [ mkIron 1 true None None None None;
         mkIron 2 true None None None None;
         mkIron 3 false (Some "John Doe") (Some at3)
                (Some (by3 + 4 * 60 * 60 * 1000)) None;
         mkIron 4 true None None None None;
         mkIron 5 false (Some "Jane Smith") (Some at5)
                (Some (by5 + 2 * 60 * 60 * 1000)) None ].

Definition json (status : Z) (error : string) : Response :=
  Failure status error.

(** [app.get('/api/iron-borrowing')] *)
Definition get_iron_borrowing (irons : list Iron) : list Iron * Response :=
  (irons, Success 200 None (IronList irons)).

(** [app.post('/api/iron-borrowing/borrow')] *)
Definition post_borrow (body : BorrowBody) (clk : Clock) (irons : list Iron)
    : list Iron * Response :=
  if negb (truthy_num (body_ironId body))
     || negb (truthy_str (body_borrowerName body))
  then (irons, json 400 "Iron ID and borrower name are required")
  else
    match find_iron (parseInt (body_ironId body)) irons with
    | None => (irons, json 404 "Iron not found")
    | Some (k, iron) =>
        if negb (available iron)
        then (irons, json 400 "Iron is already borrowed")
        else
          let iron' := borrow_assign iron (body_borrowerName body)
                         (body_room body) (body_duration body) clk in
          (<[k := iron']> irons,
           Success 200 (Some "Iron borrowed successfully") (OneIron iron'))
    end.

(** [app.post('/api/iron-borrowing/return')] *)
Definition post_return (body : ReturnBody) (irons : list Iron)
    : list Iron * Response :=
  if negb (truthy_num (ret_ironId body))
  then (irons, json 400 "Iron ID is required")
  else
    match find_iron (parseInt (ret_ironId body)) irons with
    | None => (irons, json 404 "Iron not found")
    | Some (k, iron) =>
        if available iron
        then (irons, json 400 "Iron is not currently borrowed")
        else
          let iron' := return_assign iron in
          (<[k := iron']> irons,
           Success 200 (Some "Iron returned successfully") (OneIron iron'))
    end.

Inductive Event :=
| POST_borrow (body : BorrowBody) (clk : Clock)
| POST_return (body : ReturnBody)
| GET_iron_borrowing.

Definition handle (e : Event) (irons : list Iron) : list Iron * Response :=
  match e with
  | POST_borrow body clk => post_borrow body clk irons
  | POST_return body => post_return body irons
  | GET_iron_borrowing => get_iron_borrowing irons
  end.

Inductive reachable (init : list Iron) : list Iron → Prop :=
| reachable_init : reachable init init
| reachable_step e irons :
    reachable init irons → reachable init (handle e irons).1.

Definition run (es : list Event) (irons : list Iron) : list Iron :=
  foldl (λ irons e, (handle e irons).1) irons es.

End Server.

(** ** The vocabulary of the specification *)

Inductive Status := Available | CheckedOut.

Definition status (u : Iron) : Status :=
  if available u then Available else CheckedOut.

#[global] Instance Status_eq_dec : EqDecision Status.
Proof. solve_decision. Defined.

(** The number of units of a status. *)
Definition count_status (s : Status) (irons : list Iron) : nat :=
  length (filter (λ u, status u = s) irons).

Inductive ErrorKind := NotFound | AlreadyCheckedOut | NotCheckedOut | InvalidInput.

Inductive Outcome :=
| Ok (snapshot : Iron)
| Err (kind : ErrorKind).

(** How the HTTP layer words the outcomes of the ledger. *)
Definition outcome (r : Response) : option Outcome :=
  match r with
  | Success _ _ (OneIron iron) => Some (Ok iron)
  | Success _ _ _ => None
  | Failure st error =>
      if decide (st = 404 ∧ error = "Iron not found") then Some (Err NotFound)
      else if decide (st = 400 ∧ error = "Iron is already borrowed")
        then Some (Err AlreadyCheckedOut)
      else if decide (st = 400 ∧ error = "Iron is not currently borrowed")
        then Some (Err NotCheckedOut)
      else if decide (st = 400 ∧
                (error = "Iron ID and borrower name are required"
                 ∨ error = "Iron ID is required"))
        then Some (Err InvalidInput)
      else None
  end.

Definition all_present (u : Iron) : Prop :=
  is_Some (borrowedBy u) ∧ is_Some (borrowedAt u)
  ∧ is_Some (returnBy u) ∧ is_Some (room u).

Definition all_absent (u : Iron) : Prop :=
  borrowedBy u = None ∧ borrowedAt u = None
  ∧ returnBy u = None ∧ room u = None.

(** Invariant I1, in the words of the specification. *)
Definition I1 (u : Iron) : Prop :=
  (status u = CheckedOut ↔ all_present u)
  ∧ (status u = Available ↔ all_absent u).

(** The same, as a check that computes. *)
Definition I1_check (u : Iron) : bool :=
  match available u, borrowedBy u, borrowedAt u, returnBy u, room u with
  | true, None, None, None, None => true
  | false, Some _, Some _, Some _, Some _ => true
  | _, _, _, _, _ => false
  end.

(** The two dates of a unit, when it has them, are valid [Date]s: the data
    file and the responses show them. *)
Definition valid_dates (u : Iron) : Prop :=
  from_option valid_time True (borrowedAt u)
  ∧ from_option valid_time True (returnBy u).

(** I1 as the data file and the responses show it. *)
Definition I1_shown (u : Iron) : Prop := I1 u ∧ valid_dates u.

(** Invariant I2. *)
Definition I2 (u : Iron) : Prop :=
  ∀ a b, borrowedAt u = Some a → returnBy u = Some b → a < b.

(** ** Calls of the manager and their effect on a unit

    Every event of either server makes at most one call that can change the
    irons.  [unit_effect c u u'] says what the call [c] makes, at one
    position of the array, of the unit [u] that was there. *)

Inductive Call :=
| Call_borrowIron (id : option Z) (data : BorrowerData) (clk : Clock)
| Call_returnIron (id : option Z)
| No_call.

Inductive unit_effect : Call → Iron → Iron → Prop :=
| unit_kept c u : unit_effect c u u
| unit_borrowed id data clk u :
    Some (ironId u) = id → available u = true →
    unit_effect (Call_borrowIron id data clk) u
      (borrow_assign u (bd_borrowerName data) (bd_room data)
         (bd_duration data) clk)
| unit_returned id u :
    Some (ironId u) = id → available u = false →
    unit_effect (Call_returnIron id) u (return_assign u).

Definition call_supplies_holder_and_room (c : Call) : Prop :=
  match c with
  | Call_borrowIron _ data _ =>
      is_Some (bd_borrowerName data) ∧ is_Some (bd_room data)
  | _ => True
  end.

(** The clock readings of a call are time values of valid [Date]s, and so
    is the time at which the hold ends. *)
Definition valid_call_times (c : Call) : Prop :=
  match c with
  | Call_borrowIron _ data clk =>
      valid_time (new_Date clk)
      ∧ valid_time
          (Date_now clk + or_num (bd_duration data) 4 * 60 * 60 * 1000)
  | _ => True
  end.

(** A call made on the manager directly, and a sequence of them. *)
Definition do_call (c : Call) (db : Database) : Database :=
  match c with
  | Call_borrowIron id data clk => (borrowIron id data clk db).1
  | Call_returnIron id => (returnIron id db).1
  | No_call => db
  end.

Definition run_calls (cs : list Call) (db : Database) : Database :=
  foldl (λ db c, do_call c db) db cs.

(** ** The data a borrow request turns into *)

(** The fields whose absence the borrow handlers answer with 400. *)
Definition required_fields (body : BorrowBody) : Prop :=
  truthy_num (body_ironId body) = true
  ∧ truthy_str (body_borrowerName body) = true.

(** The [borrowerData] object that routes/index.js builds from a body. *)
Definition borrowerData_of (body : BorrowBody) : BorrowerData :=
  {| bd_borrowerName := body_borrowerName body;
     bd_room := Some (or_str (body_room body) "");
     bd_duration := Some (or_num (parseInt (body_duration body)) 4) |}.

(** The object the stand-alone server's handler assigns from. *)
Definition server_data_of (body : BorrowBody) : BorrowerData :=
  {| bd_borrowerName := body_borrowerName body;
     bd_room := body_room body;
     bd_duration := body_duration body |}.

(** ** The call behind each event *)

Definition routes_call (e : Routes.Event) : Call :=
  match e with
  | Routes.POST_borrow body clk =>
      if negb (truthy_num (body_ironId body))
         || negb (truthy_str (body_borrowerName body))
      then No_call
      else Call_borrowIron (parseInt (body_ironId body))
             (borrowerData_of body) clk
  | Routes.POST_return rbody =>
      if negb (truthy_num (ret_ironId rbody)) then No_call
      else Call_returnIron (parseInt (ret_ironId rbody))
  | _ => No_call
  end.

Definition server_call (e : Server.Event) : Call :=
  match e with
  | Server.POST_borrow body clk =>
      if negb (truthy_num (body_ironId body))
         || negb (truthy_str (body_borrowerName body))
      then No_call
      else Call_borrowIron (parseInt (body_ironId body))
             (server_data_of body) clk
  | Server.POST_return rbody =>
      if negb (truthy_num (ret_ironId rbody)) then No_call
      else Call_returnIron (parseInt (ret_ironId rbody))
  | Server.GET_iron_borrowing => No_call
  end.

(** A borrow request to the stand-alone server that names a room. *)
Definition carries_room (e : Server.Event) : Prop :=
  match e with
  | Server.POST_borrow body _ => is_Some (body_room body)
  | _ => True
  end.

(** ** A pool of three free units, and a request for the second *)

Definition free (i : Z) : Iron := mkIron i true None None None None.

Definition pool3 : list Iron := [free 1; free 2; free 3].

Definition at_noon : Clock :=
  {| new_Date := 1700000000000; Date_now := 1700000000000 |}.

Definition alice : BorrowBody :=
  {| body_ironId := Some 2;
     body_borrowerName := Some "Alice";
     body_room := Some "Room 101";
     body_duration := Some 2 |}.

Definition held_by_alice : Iron :=
  mkIron 2 false (Some "Alice") (Some 1700000000000)
    (Some (1700000000000 + hours 2)) (Some "Room 101").

Definition bob : BorrowBody :=
  {| body_ironId := Some 2;
     body_borrowerName := Some "Bob";
     body_room := Some "Room 102";
     body_duration := None |}.

Definition roomless : BorrowBody :=
  {| body_ironId := Some 2;
     body_borrowerName := Some "Alice";
     body_room := None;
     body_duration := Some 2 |}.


(** An environment in which [Math.random] alternates between 0.5 and 0.1,
    and the clock advances by a millisecond at each reading. *)
Definition env0 : Env :=
  {| Math_random := λ n, if Nat.even n then 1 # 2 else 1 # 10;
     clock := λ n, 1700000000000 + Z.of_nat n |}.

(** ** middleware/auth.js: [rateLimit]

    [rateLimit(windowMs, maxRequests)] closes over a [Map] from client ids
    to the times of the requests it has let through.  The message of the
    429 body is left out of the verdict; [retryAfter] is kept. *)

Record Connection := mkConnection {
  req_ip        : option string;   (* req.ip *)
  remoteAddress : option string    (* req.connection.remoteAddress *)
}.

(** [req.ip || req.connection.remoteAddress] *)
Definition clientId (c : Connection) : option string :=
  if truthy_str (req_ip c) then req_ip c else remoteAddress c.

Inductive Verdict :=
| Next                                  (* next() *)
| TooManyRequests (retryAfter : Z).     (* res.status(429).json(...) *)

(** [Math.ceil(n / d)] for integers [n] and a positive integer [d]. *)
Definition ceil_div (n d : Z) : Z := - ((- n) / d).

Definition rateLimit (windowMs maxRequests : Z) (c : Connection) (now : Z)
    (requests : gmap (option string) (list Z))
    : gmap (option string) (list Z) * Verdict :=
  let windowStart := now - windowMs in
  let clientRequests := default [] (requests !! clientId c) in
  let validRequests := filter (λ time, windowStart < time) clientRequests in
  if maxRequests <=? Z.of_nat (length validRequests)
  then (requests, TooManyRequests (ceil_div windowMs 1000))
  else (<[clientId c := validRequests ++ [now]]> requests, Next).

(** A limiter at work: the requests that reach it, each with the reading of
    [Date.now()] it makes, and the log of what it answered. *)
Abbreviation LimiterLog := (list (option string * Z * Verdict)).

Definition rateLimit_step (windowMs maxRequests : Z)
    (acc : gmap (option string) (list Z) * LimiterLog) (r : Connection * Z)
    : gmap (option string) (list Z) * LimiterLog :=
  let '(requests', v) := rateLimit windowMs maxRequests r.1 r.2 acc.1 in
  (requests', acc.2 ++ [(clientId r.1, r.2, v)]).

Definition rateLimit_run (windowMs maxRequests : Z)
    (reqs : list (Connection * Z))
    : gmap (option string) (list Z) * LimiterLog :=
  foldl (rateLimit_step windowMs maxRequests) (∅, []) reqs.

(** The times of the requests of client [k] that the log shows let through. *)
Definition let_through_at (k : option string)
    (e : option string * Z * Verdict) : option Z :=
  match e.2 with
  | Next => if decide (e.1.1 = k) then Some e.1.2 else None
  | TooManyRequests _ => None
  end.

Definition let_through (k : option string) (log : LimiterLog) : list Z :=
  omap (let_through_at k) log.

(** ** JavaScript strings, as lists of UTF-16 code units

    Where the code looks into a string (trimming, splitting, parsing a
    number) the string is the list of its code units. *)

(** The code units of a literal written in ASCII. *)
Definition units (s : string) : list N :=
  Ascii.N_of_ascii <$> String.list_ascii_of_string s.

(** WhiteSpace and LineTerminator of ECMAScript: what [trim] strips and
    [parseInt] skips. *)
Definition is_white_space (u : N) : bool :=
  match u with
  | 9 | 10 | 11 | 12 | 13 | 32 | 160 | 5760
  | 8192 | 8193 | 8194 | 8195 | 8196 | 8197 | 8198 | 8199 | 8200 | 8201 | 8202
  | 8232 | 8233 | 8239 | 8287 | 12288 | 65279 => true
  | _ => false
  end%N.

Fixpoint trimStart (s : list N) : list N :=
  match s with
  | u :: s' => if is_white_space u then trimStart s' else s
  | [] => []
  end.

Fixpoint trimEnd (s : list N) : list N :=
  match s with
  | u :: s' =>
      match trimEnd s' with
      | [] => if is_white_space u then [] else [u]
      | r => u :: r
      end
  | [] => []
  end.

(** [s.trim()] *)
Definition trim (s : list N) : list N := trimEnd (trimStart s).

(** ** middleware/auth.js: [sanitizeInput] *)

(** What [express.json()] and the query parser hand over. *)
#[local] Unset Elimination Schemes.
Inductive JsVal :=
| JNull
| JBool (b : bool)
| JNum (n : Z)
| JStr (s : list N)
| JArr (items : list JsVal)
| JObj (props : list (list N * JsVal)).
#[local] Set Elimination Schemes.

(** ['<'] or ['>'], the class [[<>]] of the regular expression. *)
Definition is_angle (u : N) : bool := (u =? 60)%N || (u =? 62)%N.

(** [str.replace(/[<>]/g, '').trim()] *)
Definition sanitizeString (str : list N) : list N :=
  trim (filter (λ u, is_angle u = false) str).

(** What the loop of [sanitizeObject] leaves in [obj[key]]: a string is
    sanitized, an object or array is gone through in turn (of an array,
    [for ... in] visits the indices), anything else stays. *)
Fixpoint sanitizeValue (v : JsVal) : JsVal :=
  match v with
  | JStr s => JStr (sanitizeString s)
  | JArr items => JArr (map sanitizeValue items)
  | JObj props => JObj (map (λ p, (p.1, sanitizeValue p.2)) props)
  | _ => v
  end.

(** [if (x && typeof x === 'object') sanitizeObject(x)], for [req.body] and
    for [req.query]: a body that is itself a string is left alone. *)
Definition sanitizePart (x : option JsVal) : option JsVal :=
  match x with
  | Some (JArr items) => Some (sanitizeValue (JArr items))
  | Some (JObj props) => Some (sanitizeValue (JObj props))
  | _ => x
  end.

Record Parts := mkParts {
  req_body  : option JsVal;
  req_query : option JsVal
}.

Definition sanitizeInput (req : Parts) : Parts :=
  {| req_body := sanitizePart (req_body req);
     req_query := sanitizePart (req_query req) |}.

(** The strings found in a value, at any depth; property names are not
    among them. *)
Fixpoint strings_of (v : JsVal) : list (list N) :=
  match v with
  | JStr s => [s]
  | JArr items => flat_map strings_of items
  | JObj props => flat_map (λ p, strings_of p.2) props
  | _ => []
  end.

(** The strings the middleware can reach in a request. *)
Definition reachable_strings (x : option JsVal) : list (list N) :=
  match x with
  | Some (JArr items) => strings_of (JArr items)
  | Some (JObj props) => strings_of (JObj props)
  | _ => []
  end.

(** A string with no angle bracket and no white space at either end. *)
Definition clean (s : list N) : Prop :=
  Forall (λ u, is_angle u = false) s
  ∧ (∀ u, head s = Some u → is_white_space u = false)
  ∧ (∀ u, last s = Some u → is_white_space u = false).

(** A client, and a body with strings at two depths. *)
Definition office : Connection :=
  {| req_ip := Some "10.0.0.7"; remoteAddress := None |}.

Definition untidy : Parts :=
  {| req_body :=
       Some (JObj [(units "name", JStr (units "  <b>Asha</b> "));
                   (units "tags", JArr [JStr (units "<i> x"); JNum 3])]);
     req_query := None |}.

Definition tidy : Parts :=
  {| req_body :=
       Some (JObj [(units "name", JStr (units "bAsha/b"));
                   (units "tags", JArr [JStr (units "i x"); JNum 3])]);
     req_query := None |}.

(** ** Splitting and parsing strings *)

(** [s.split(sep)] for a separator of one code unit: the pieces between the
    separators, at least one. *)
Fixpoint split_on (sep : N) (s : list N) : list (list N) :=
  match s with
  | [] => [[]]
  | u :: s' =>
      if (u =? sep)%N then [] :: split_on sep s'
      else match split_on sep s' with
           | piece :: pieces => (u :: piece) :: pieces
           | [] => [[u]]
           end
  end.

(** The value of a code unit as a digit in the given radix. *)
Definition digit_value (radix : N) (u : N) : option N :=
  let d := if ((48 <=? u) && (u <=? 57))%N then Some (u - 48)%N
           else if ((97 <=? u) && (u <=? 122))%N then Some (u - 87)%N
           else if ((65 <=? u) && (u <=? 90))%N then Some (u - 55)%N
           else None in
  match d with
  | Some v => if (v <? radix)%N then Some v else None
  | None => None
  end.

(** The digits a string begins with. *)
Fixpoint digits_prefix (radix : N) (s : list N) : list N :=
  match s with
  | u :: s' =>
      match digit_value radix u with
      | Some v => v :: digits_prefix radix s'
      | None => []
      end
  | [] => []
  end.

Definition number_of (radix : N) (ds : list N) : N :=
  foldl (λ acc d, acc * radix + d)%N 0%N ds.

(** [parseInt(str)] with no radix given: leading white space is skipped, a
    sign is read, [0x] or [0X] switches to radix 16, and the digits up to
    the first code unit that is none are taken.  [None] is NaN.  The value
    is exact (the code rounds an integer beyond 2^53 to a double). *)
Definition parseInt_str (str : list N) : option Z :=
  let s := trimStart str in
  let '(sign, s) :=
    match s with
    | 45%N :: s' => (-1, s')
    | 43%N :: s' => (1, s')
    | _ => (1, s)
    end in
  let '(radix, s) :=
    match s with
    | 48%N :: 120%N :: s' => (16%N, s')
    | 48%N :: 88%N :: s' => (16%N, s')
    | _ => (10%N, s)
    end in
  match digits_prefix radix s with
  | [] => None
  | ds => Some (sign * Z.of_N (number_of radix ds))
  end.

(** [String(n)] and [`${n}`] for an integer [n]. *)
Definition toString (n : Z) : list N := units (pretty n).

(** ** Students, attendance, complaints and coordinators *)

Record Student := mkStudent {
  st_id         : Z;
  st_name       : string;
  st_rollNumber : string;
  st_hostel     : string;
  st_floor      : string;
  st_room       : string;
  st_present    : bool;
  st_email      : option string;
  st_phone      : option string;
  st_createdAt  : option Z
}.

Record Attendance := mkAttendance {
  att_id        : option Z;
  att_studentId : Z;
  att_date      : string;
  att_present   : bool;
  att_method    : string;
  att_createdAt : option Z;
  att_updatedAt : option Z
}.

(** An array of [this.database] with the content of its data file. *)
Record Table (A : Type) := mkTable {
  rows      : list A;
  rows_json : list A
}.
Arguments mkTable {A} _ _.
Arguments rows {A} _.
Arguments rows_json {A} _.

(** The array after [saveData] has written it. *)
Definition saved {A} (l : list A) : Table A :=
  {| rows := l; rows_json := l |}.

Record School := mkSchool {
  students   : Table Student;
  attendance : Table Attendance
}.

(** The object a route passes to [recordAttendance]. *)
Record AttendanceData := mkAttendanceData {
  ad_studentId : Z;
  ad_present   : bool;
  ad_method    : string
}.

(** [recordAttendance(attendanceData)].  [today] is what
    [new Date().toISOString().split('T')[0]] gives at the call and [stamp]
    the reading of the clock for [updatedAt] or [createdAt]. *)
Definition recordAttendance (data : AttendanceData) (today : string)
    (stamp : Z) (att : Table Attendance) : Table Attendance :=
  match list_find (λ a, att_studentId a = ad_studentId data
                        ∧ att_date a = today) (rows att) with
  | Some (k, existing) =>
      saved (<[k := {| att_id := att_id existing;
                       att_studentId := att_studentId existing;
                       att_date := att_date existing;
                       att_present := ad_present data;
                       att_method := ad_method data;
                       att_createdAt := att_createdAt existing;
                       att_updatedAt := Some stamp |}]> (rows att))
  | None =>
      saved (rows att
             ++ [{| att_id := Some (Z.of_nat (length (rows att)) + 1);
                    att_studentId := ad_studentId data;
                    att_date := today;
                    att_present := ad_present data;
                    att_method := ad_method data;
                    att_createdAt := Some stamp;
                    att_updatedAt := None |}])
  end.

(** [getAttendanceByDate(date)] *)
Definition getAttendanceByDate (date : string) (att : Table Attendance)
    : list Attendance :=
  filter (λ a, att_date a = date) (rows att).

Definition set_present (s : Student) (present : bool) : Student :=
  {| st_id := st_id s; st_name := st_name s;
     st_rollNumber := st_rollNumber s; st_hostel := st_hostel s;
     st_floor := st_floor s; st_room := st_room s;
     st_present := present;
     st_email := st_email s; st_phone := st_phone s;
     st_createdAt := st_createdAt s |}.

(** [students.find(s => s.id === id)] for a number or NaN. *)
Definition find_student (id : option Z) (l : list Student)
    : option (nat * Student) :=
  list_find (λ s, Some (st_id s) = id) l.

(** [updateStudentAttendance(studentId, present)] *)
Definition updateStudentAttendance (studentId : option Z) (present : bool)
    (sts : Table Student) : Table Student * option Student :=
  match find_student studentId (rows sts) with
  | Some (k, student) =>
      (saved (<[k := set_present student present]> (rows sts)),
       Some (set_present student present))
  | None => (sts, None)
  end.

(** A response of a route: [res.apiSuccess(data, message, statusCode)] or
    [res.json] with a payload, and [res.apiError] or [res.status(..).json]
    with an error. *)
Inductive Answer (A : Type) :=
| Sent (status : Z) (message : string) (data : A)
| Refused (status : Z) (error : string).
Arguments Sent {A} _ _ _.
Arguments Refused {A} _ _.

Record Marked := mkMarked {
  mk_studentId   : Z;
  mk_studentName : string;
  mk_rollNumber  : option string;
  mk_present     : bool;
  mk_method      : string
}.

(** The readings a request that records attendance makes: [Date.now()] in
    the QR route, then the day and the time stamp in [recordAttendance]. *)
Record Moment := mkMoment {
  m_now   : Z;
  m_today : string;
  m_stamp : Z
}.

Module Attendance_routes.

(** The part common to the three attendance routes of routes/index.js once
    the student is found: [recordAttendance], [updateStudentAttendance] and
    the response. *)
Definition mark (id : Z) (student : Student) (present : bool)
    (method : string) (with_roll : bool) (message : string)
    (at_ : Moment) (sc : School) : School * Answer Marked :=
  let att' := recordAttendance
                {| ad_studentId := id; ad_present := present;
                   ad_method := method |}
                (m_today at_) (m_stamp at_) (attendance sc) in
  let sts' := (updateStudentAttendance (Some id) present (students sc)).1 in
  ({| students := sts'; attendance := att' |},
   Sent 200 message
     {| mk_studentId := id; mk_studentName := st_name student;
        mk_rollNumber := if with_roll then Some (st_rollNumber student)
                         else None;
        mk_present := present; mk_method := method |}).

(** [router.post('/attendance/manual')]; [present] is [None] when the body
    has no such field. *)
Definition post_manual (studentId : option Z) (present : option bool)
    (at_ : Moment) (sc : School) : School * Answer Marked :=
  match present with
  | Some p =>
      if negb (truthy_num studentId)
      then (sc, Refused 400 "Student ID and present status are required")
      else
        match find_student (parseInt studentId) (rows (students sc)),
              parseInt studentId with
        | Some (_, student), Some id =>
            mark id student p "manual" false
              "Attendance recorded successfully" at_ sc
        | _, _ => (sc, Refused 404 "Student not found")
        end
  | None => (sc, Refused 400 "Student ID and present status are required")
  end.

(** [router.post('/attendance/face-recognition')] *)
Definition post_face_recognition (studentId : option Z)
    (at_ : Moment) (sc : School) : School * Answer Marked :=
  if negb (truthy_num studentId)
  then (sc, Refused 400 "Student ID is required")
  else
    match find_student (parseInt studentId) (rows (students sc)),
          parseInt studentId with
    | Some (_, student), Some id =>
        mark id student true "face_recognition" true
          "Face recognition attendance recorded successfully" at_ sc
    | _, _ => (sc, Refused 404 "Student not found")
    end.

(** [now - qrTime > fiveMinutes]; a comparison with NaN is false. *)
Definition expired (now : Z) (qrTime : option Z) : bool :=
  match qrTime with
  | Some t => 5 * 60 * 1000 <? now - t
  | None => false
  end.

(** [router.post('/attendance/qr-code')]; [qrData] is the string of the
    body, [None] when the field is missing. *)
Definition post_qr_code (qrData : option (list N))
    (at_ : Moment) (sc : School) : School * Answer Marked :=
  match qrData with
  | None | Some [] => (sc, Refused 400 "QR data is required")
  | Some data =>
      match split_on 58 data with
      | studentId :: timestamp :: _ =>
          match studentId, timestamp with
          | [], _ | _, [] => (sc, Refused 400 "Invalid QR code format")
          | _, _ =>
              match find_student (parseInt_str studentId) (rows (students sc)),
                    parseInt_str studentId with
              | Some (_, student), Some id =>
                  if expired (m_now at_) (parseInt_str timestamp)
                  then (sc, Refused 400 "QR code has expired")
                  else mark id student true "qr_code" true
                         "QR code attendance recorded successfully" at_ sc
              | _, _ => (sc, Refused 404 "Student not found")
              end
          end
      | _ => (sc, Refused 400 "Invalid QR code format")
      end
  end.

Record QrCode := mkQrCode {
  qr_qrData    : list N;
  qr_expiresAt : Z;
  qr_validFor  : string
}.

(** [router.get('/attendance/generate-qr')], for the coordinator [user_id]
    of the token. *)
Definition get_generate_qr (user_id : Z) (now : Z) : Answer QrCode :=
  let timestamp := now in
  let qrData := units "ATTENDANCE:" ++ toString timestamp
                ++ units ":" ++ toString user_id in
  Sent 200 "QR code generated successfully"
    {| qr_qrData := qrData;
       qr_expiresAt := timestamp + 5 * 60 * 1000;
       qr_validFor := "5 minutes" |}.

(** [router.get('/attendance/:date')] *)
Definition get_by_date (date : string) (sc : School)
    : Answer (list Attendance) :=
  Sent 200 "Attendance records retrieved successfully"
    (getAttendanceByDate date (attendance sc)).

End Attendance_routes.

Module Server_attendance.

Record Found := mkFound {
  f_id         : Z;
  f_name       : string;
  f_rollNumber : string
}.

(** What the three attendance routes of the stand-alone server do once the
    student is found: the record of the day is updated or pushed, and the
    student is marked. *)
Definition mark (id : Z) (k : nat) (student : Student) (present : bool)
    (method : string) (today : string)
    (db : list Student * list Attendance)
    : list Student * list Attendance :=
  let att' :=
    match list_find (λ a, att_studentId a = id ∧ att_date a = today) db.2 with
    | Some (j, existing) =>
        <[j := {| att_id := att_id existing;
                  att_studentId := att_studentId existing;
                  att_date := att_date existing;
                  att_present := present;
                  att_method := method;
                  att_createdAt := att_createdAt existing;
                  att_updatedAt := att_updatedAt existing |}]> db.2
    | None =>
        db.2 ++ [{| att_id := None; att_studentId := id; att_date := today;
                    att_present := present; att_method := method;
                    att_createdAt := None; att_updatedAt := None |}]
    end in
  (<[k := set_present student present]> db.1, att').

(** [app.post('/api/attendance/qr-code')]: the time in the QR string is
    asked for and not looked at. *)
Definition post_qr_code (qrData : option (list N)) (today : string)
    (db : list Student * list Attendance)
    : (list Student * list Attendance) * Answer Found :=
  match qrData with
  | None | Some [] => (db, Refused 400 "QR data is required")
  | Some data =>
      match split_on 58 data with
      | studentId :: timestamp :: _ =>
          match studentId, timestamp with
          | [], _ | _, [] => (db, Refused 400 "Invalid QR code format")
          | _, _ =>
              match find_student (parseInt_str studentId) db.1,
                    parseInt_str studentId with
              | Some (k, student), Some id =>
                  (mark id k student true "qr_code" today db,
                   Sent 200 "QR code attendance recorded successfully"
                     {| f_id := st_id student; f_name := st_name student;
                        f_rollNumber := st_rollNumber student |})
              | _, _ => (db, Refused 404 "Student not found")
              end
          end
      | _ => (db, Refused 400 "Invalid QR code format")
      end
  end.

(** [app.get('/api/attendance/generate-qr')] *)
Definition get_generate_qr (user_id : Z) (now : Z) : list N * Z :=
  let timestamp := now in
  (units "ATTENDANCE:" ++ toString timestamp ++ units ":" ++ toString user_id,
   timestamp + 5 * 60 * 1000).

End Server_attendance.

(** At most one attendance record for a student and a day. *)
Definition one_per_day (att : list Attendance) : Prop :=
  ∀ i j a b,
    att !! i = Some a → att !! j = Some b →
    att_studentId a = att_studentId b → att_date a = att_date b → i = j.

(** The record of a student for a day, as [recordAttendance] looks for it. *)
Definition same_day_record (id : Z) (today : string) (a : Attendance) : Prop :=
  att_studentId a = id ∧ att_date a = today.

(** Three students of the default data, and a Tuesday. *)
Definition rahul : Student :=
  mkStudent 1 "Rahul Sharma" "ST001" "himgiri" "first" "101" true
    (Some "rahul.sharma@university.edu") (Some "9876543210") None.

Definition priya : Student :=
  mkStudent 2 "Priya Singh" "ST002" "bhagirthi" "ground" "005" true
    (Some "priya.singh@university.edu") (Some "9876543211") None.

Definition amit : Student :=
  mkStudent 3 "Amit Kumar" "ST003" "nilgiri" "second" "203" false
    (Some "amit.kumar@university.edu") (Some "9876543212") None.

Definition school0 : School :=
  {| students := saved [rahul; priya; amit]; attendance := saved [] |}.

Definition tuesday : Moment :=
  {| m_now := 1700000100000; m_today := "2023-11-14";
     m_stamp := 1700000100002 |}.

(** *** Students *)

(** The object the route passes to [createStudent]. *)
Record StudentData := mkStudentData {
  sd_name       : string;
  sd_rollNumber : string;
  sd_hostel     : string;
  sd_floor      : string;
  sd_room       : string;
  sd_email      : string;
  sd_phone      : string;
  sd_present    : bool
}.

(** [createStudent(studentData)]; [stamp] is the reading of the clock for
    [createdAt]. *)
Definition createStudent (data : StudentData) (stamp : Z)
    (sts : Table Student) : Table Student * Student :=
  let newStudent :=
    {| st_id := Z.of_nat (length (rows sts)) + 1;
       st_name := sd_name data; st_rollNumber := sd_rollNumber data;
       st_hostel := sd_hostel data; st_floor := sd_floor data;
       st_room := sd_room data; st_present := sd_present data;
       st_email := Some (sd_email data); st_phone := Some (sd_phone data);
       st_createdAt := Some stamp |} in
  (saved (rows sts ++ [newStudent]), newStudent).

(** [getStudentsByHostel(hostel, floor)] *)
Definition getStudentsByHostel (hostel : string) (floor : option string)
    (sts : Table Student) : list Student :=
  filter (λ student,
            st_hostel student = hostel
            ∧ (truthy_str floor = true → Some (st_floor student) = floor))
    (rows sts).

Record StudentBody := mkStudentBody {
  sb_name       : option string;
  sb_rollNumber : option string;
  sb_hostel     : option string;
  sb_floor      : option string;
  sb_room       : option string;
  sb_email      : option string;
  sb_phone      : option string
}.

Module Student_routes.

(** [router.get('/students/:id')]; the parameter is a string. *)
Definition get_student (id : list N) (sts : Table Student) : Answer Student :=
  match find_student (parseInt_str id) (rows sts) with
  | Some (_, student) => Sent 200 "Student retrieved successfully" student
  | None => Refused 404 "Student not found"
  end.

(** [router.post('/students')] *)
Definition post_student (body : StudentBody) (stamp : Z)
    (sts : Table Student) : Table Student * Answer Student :=
  if negb (truthy_str (sb_name body)) || negb (truthy_str (sb_rollNumber body))
     || negb (truthy_str (sb_hostel body)) || negb (truthy_str (sb_floor body))
     || negb (truthy_str (sb_room body))
  then (sts, Refused 400
               "Name, roll number, hostel, floor, and room are required")
  else
    match list_find (λ s, Some (st_rollNumber s) = sb_rollNumber body)
            (rows sts) with
    | Some _ =>
        (sts, Refused 409 "Student with this roll number already exists")
    | None =>
        let '(sts', newStudent) :=
          createStudent
            {| sd_name := or_str (sb_name body) "";
               sd_rollNumber := or_str (sb_rollNumber body) "";
               sd_hostel := or_str (sb_hostel body) "";
               sd_floor := or_str (sb_floor body) "";
               sd_room := or_str (sb_room body) "";
               sd_email := or_str (sb_email body) "";
               sd_phone := or_str (sb_phone body) "";
               sd_present := false |} stamp sts in
        (sts', Sent 201 "Student added successfully" newStudent)
    end.

End Student_routes.

(** The students are numbered by their place in the array, from 1. *)
Definition numbered (sts : list Student) : Prop :=
  ∀ k s, sts !! k = Some s → st_id s = Z.of_nat k + 1.

(** *** Complaints *)

Record Complaint := mkComplaint {
  c_id          : Z;
  c_title       : string;
  c_description : string;
  c_submittedBy : string;
  c_room        : string;
  c_hostel      : option string;
  c_priority    : string;
  c_category    : option string;
  c_status      : string;
  c_timestamp   : Z;
  c_updatedAt   : option Z
}.

Record ComplaintData := mkComplaintData {
  cd_title       : string;
  cd_description : string;
  cd_submittedBy : string;
  cd_room        : string;
  cd_hostel      : string;
  cd_priority    : string;
  cd_category    : string
}.

(** [createComplaint(complaintData)] *)
Definition createComplaint (data : ComplaintData) (stamp : Z)
    (cs : Table Complaint) : Table Complaint * Complaint :=
  let newComplaint :=
    {| c_id := Z.of_nat (length (rows cs)) + 1;
       c_title := cd_title data; c_description := cd_description data;
       c_submittedBy := cd_submittedBy data; c_room := cd_room data;
       c_hostel := Some (cd_hostel data); c_priority := cd_priority data;
       c_category := Some (cd_category data);
       c_status := "Open"; c_timestamp := stamp; c_updatedAt := None |} in
  (saved (rows cs ++ [newComplaint]), newComplaint).

Definition set_status (c : Complaint) (status : string) (stamp : Z)
    : Complaint :=
  {| c_id := c_id c; c_title := c_title c; c_description := c_description c;
     c_submittedBy := c_submittedBy c; c_room := c_room c;
     c_hostel := c_hostel c; c_priority := c_priority c;
     c_category := c_category c;
     c_status := status; c_timestamp := c_timestamp c;
     c_updatedAt := Some stamp |}.

(** [updateComplaintStatus(id, status)], for a number or NaN. *)
Definition updateComplaintStatus (id : option Z) (status : string)
    (stamp : Z) (cs : Table Complaint) : Table Complaint * option Complaint :=
  match list_find (λ c, Some (c_id c) = id) (rows cs) with
  | Some (k, complaint) =>
      (saved (<[k := set_status complaint status stamp]> (rows cs)),
       Some (set_status complaint status stamp))
  | None => (cs, None)
  end.

Record ComplaintBody := mkComplaintBody {
  cb_title       : option string;
  cb_description : option string;
  cb_submittedBy : option string;
  cb_room        : option string;
  cb_priority    : option string;
  cb_category    : option string;
  cb_hostel      : option string
}.

Module Complaint_routes.

Definition validStatuses : list string :=
  ["Open"; "In Progress"; "Resolved"; "Closed"].

(** [router.get('/complaints')], with the two filters of the query. *)
Definition get_complaints (status priority : option string)
    (cs : Table Complaint) : Answer (list Complaint) :=
  let complaints := rows cs in
  let complaints :=
    if truthy_str status
    then filter (λ c, Some (c_status c) = status) complaints
    else complaints in
  let complaints :=
    if truthy_str priority
    then filter (λ c, Some (c_priority c) = priority) complaints
    else complaints in
  Sent 200 "Complaints retrieved successfully" complaints.

(** [router.post('/complaints')] *)
Definition post_complaint (body : ComplaintBody) (stamp : Z)
    (cs : Table Complaint) : Table Complaint * Answer Complaint :=
  if negb (truthy_str (cb_title body))
     || negb (truthy_str (cb_description body))
     || negb (truthy_str (cb_submittedBy body))
  then (cs, Refused 400 "Title, description, and submitter name are required")
  else
    let '(cs', newComplaint) :=
      createComplaint
        {| cd_title := or_str (cb_title body) "";
           cd_description := or_str (cb_description body) "";
           cd_submittedBy := or_str (cb_submittedBy body) "";
           cd_room := or_str (cb_room body) "";
           cd_hostel := or_str (cb_hostel body) "";
           cd_priority := or_str (cb_priority body) "Medium";
           cd_category := or_str (cb_category body) "General" |} stamp cs in
    (cs', Sent 201 "Complaint submitted successfully" newComplaint).

(** [router.put('/complaints/:id/status')]; the id is the string of the
    path, the status the field of the body. *)
Definition put_status (id : list N) (status : option string) (stamp : Z)
    (cs : Table Complaint) : Table Complaint * Answer Complaint :=
  match status with
  | Some st =>
      if decide (st ∈ validStatuses) then
        match updateComplaintStatus (parseInt_str id) st stamp cs with
        | (cs', Some updatedComplaint) =>
            (cs', Sent 200 "Complaint status updated successfully"
                    updatedComplaint)
        | (cs', None) => (cs', Refused 404 "Complaint not found")
        end
      else (cs, Refused 400
                  "Invalid status. Must be: Open, In Progress, Resolved, Closed")
  | None => (cs, Refused 400
                   "Invalid status. Must be: Open, In Progress, Resolved, Closed")
  end.

Inductive Event :=
| POST_complaint (body : ComplaintBody) (stamp : Z)
| PUT_status (id : list N) (status : option string) (stamp : Z).

Definition handle (e : Event) (cs : Table Complaint) : Table Complaint :=
  match e with
  | POST_complaint body stamp => (post_complaint body stamp cs).1
  | PUT_status id status stamp => (put_status id status stamp cs).1
  end.

End Complaint_routes.

(** *** Coordinators *)

Record DC := mkDC {
  dc_id             : Z;
  dc_name           : string;
  dc_email          : string;
  dc_employeeId     : string;
  dc_contact        : string;
  dc_password       : string;
  dc_hostelType     : string;
  dc_specificHostel : string;
  dc_floor          : string;
  dc_assignedDC     : string;
  dc_profilePic     : option string;
  dc_role           : option string;
  dc_isActive       : bool;
  dc_createdAt      : option Z;
  dc_updatedAt      : option Z
}.

(** The object the registration route passes to [createDC]. *)
Record DCData := mkDCData {
  dd_name           : string;
  dd_email          : string;
  dd_employeeId     : string;
  dd_contact        : string;
  dd_password       : string;
  dd_hostelType     : string;
  dd_specificHostel : string;
  dd_floor          : string;
  dd_assignedDC     : string;
  dd_profilePic     : option string;
  dd_role           : string;
  dd_isActive       : bool
}.

(** [createDC(dcData)]; the clock is read for [createdAt], then for
    [updatedAt]. *)
Definition createDC (data : DCData) (created updated : Z) (dcs : Table DC)
    : Table DC * DC :=
  let newDC :=
    {| dc_id := Z.of_nat (length (rows dcs)) + 1;
       dc_name := dd_name data; dc_email := dd_email data;
       dc_employeeId := dd_employeeId data; dc_contact := dd_contact data;
       dc_password := dd_password data; dc_hostelType := dd_hostelType data;
       dc_specificHostel := dd_specificHostel data; dc_floor := dd_floor data;
       dc_assignedDC := dd_assignedDC data;
       dc_profilePic := dd_profilePic data; dc_role := Some (dd_role data);
       dc_isActive := dd_isActive data;
       dc_createdAt := Some created; dc_updatedAt := Some updated |} in
  (saved (rows dcs ++ [newDC]), newDC).

(** [getDCById(id)] *)
Definition getDCById (id : Z) (dcs : Table DC) : option DC :=
  snd <$> list_find (λ dc, dc_id dc = id) (rows dcs).

(** The [updateData] of [updateDC]: a field is [None] when the object does
    not have it. *)
Record DCUpdate := mkDCUpdate {
  up_name           : option string;
  up_contact        : option string;
  up_hostelType     : option string;
  up_specificHostel : option string;
  up_floor          : option string;
  up_assignedDC     : option string;
  up_profilePic     : option (option string)
}.

(** [{ ...dc, ...updateData, updatedAt: new Date() }] *)
Definition merge_update (dc : DC) (u : DCUpdate) (stamp : Z) : DC :=
  {| dc_id := dc_id dc;
     dc_name := default (dc_name dc) (up_name u);
     dc_email := dc_email dc;
     dc_employeeId := dc_employeeId dc;
     dc_contact := default (dc_contact dc) (up_contact u);
     dc_password := dc_password dc;
     dc_hostelType := default (dc_hostelType dc) (up_hostelType u);
     dc_specificHostel := default (dc_specificHostel dc) (up_specificHostel u);
     dc_floor := default (dc_floor dc) (up_floor u);
     dc_assignedDC := default (dc_assignedDC dc) (up_assignedDC u);
     dc_profilePic := default (dc_profilePic dc) (up_profilePic u);
     dc_role := dc_role dc;
     dc_isActive := dc_isActive dc;
     dc_createdAt := dc_createdAt dc;
     dc_updatedAt := Some stamp |}.

(** [updateDC(id, updateData)] *)
Definition updateDC (id : Z) (u : DCUpdate) (stamp : Z) (dcs : Table DC)
    : Table DC * option DC :=
  match list_find (λ dc, dc_id dc = id) (rows dcs) with
  | Some (dcIndex, dc) =>
      (saved (<[dcIndex := merge_update dc u stamp]> (rows dcs)),
       Some (merge_update dc u stamp))
  | None => (dcs, None)
  end.

Record RegisterBody := mkRegisterBody {
  rb_name           : option string;
  rb_email          : option string;
  rb_password       : option string;
  rb_employeeId     : option string;
  rb_contact        : option string;
  rb_hostelType     : option string;
  rb_specificHostel : option string;
  rb_floor          : option string
}.

(** What [jwt.sign] is given to sign; the token stands for it. *)
Record TokenPayload := mkTokenPayload {
  tp_id         : Z;
  tp_email      : string;
  tp_employeeId : string
}.

Record Registered := mkRegistered {
  rg_token      : TokenPayload;
  rg_id         : Z;
  rg_name       : string;
  rg_email      : string;
  rg_employeeId : string;
  rg_contact    : string;
  rg_hostelType : string
}.

Record ProfileBody := mkProfileBody {
  pb_name           : option string;
  pb_contact        : option string;
  pb_hostelType     : option string;
  pb_specificHostel : option string;
  pb_floor          : option string;
  pb_assignedDC     : option string
}.

Record ProfileView := mkProfileView {
  pv_id             : Z;
  pv_name           : string;
  pv_contact        : string;
  pv_hostelType     : string;
  pv_specificHostel : string;
  pv_floor          : string;
  pv_assignedDC     : string
}.

Module DC_routes.

(** [router.post('/auth/register')] up to its [await]: the answer when the
    request ends there, [None] when the handler goes on to hash the
    password. *)
Definition register_check (body : RegisterBody) (dcs : Table DC)
    : option (Answer Registered) :=
  if negb (truthy_str (rb_name body)) || negb (truthy_str (rb_email body))
     || negb (truthy_str (rb_password body))
     || negb (truthy_str (rb_employeeId body))
  then Some (Refused 400
               "Name, email, password, and employee ID are required")
  else
    match list_find (λ dc, Some (dc_email dc) = rb_email body
                           ∨ Some (dc_employeeId dc) = rb_employeeId body)
            (rows dcs) with
    | Some _ =>
        Some (Refused 409 "DC with this email or employee ID already exists")
    | None => None
    end.

(** The rest of the handler, run when [bcrypt.hash] has given
    [hashedPassword]. *)
Definition register_create (body : RegisterBody) (hashedPassword : string)
    (created updated : Z) (dcs : Table DC) : Table DC * Answer Registered :=
  let '(dcs', newDC) :=
    createDC
      {| dd_name := or_str (rb_name body) "";
         dd_email := or_str (rb_email body) "";
         dd_employeeId := or_str (rb_employeeId body) "";
         dd_contact := or_str (rb_contact body) "";
         dd_password := hashedPassword;
         dd_hostelType := or_str (rb_hostelType body) "";
         dd_specificHostel := or_str (rb_specificHostel body) "";
         dd_floor := or_str (rb_floor body) "";
         dd_assignedDC := "";
         dd_profilePic := None;
         dd_role := "dc";
         dd_isActive := true |} created updated dcs in
  (dcs', Sent 201 "Registration successful"
           {| rg_token := {| tp_id := dc_id newDC; tp_email := dc_email newDC;
                             tp_employeeId := dc_employeeId newDC |};
              rg_id := dc_id newDC; rg_name := dc_name newDC;
              rg_email := dc_email newDC;
              rg_employeeId := dc_employeeId newDC;
              rg_contact := dc_contact newDC;
              rg_hostelType := dc_hostelType newDC |}).

(** A registration that no other request interrupts at its [await]. *)
Definition register (body : RegisterBody) (hashedPassword : string)
    (created updated : Z) (dcs : Table DC) : Table DC * Answer Registered :=
  match register_check body dcs with
  | Some answer => (dcs, answer)
  | None => register_create body hashedPassword created updated dcs
  end.

(** [router.put('/dc/profile')] behind [authenticateToken], for a token
    that verifies and carries [user_id]. *)
Definition put_profile (user_id : Z) (body : ProfileBody) (stamp : Z)
    (dcs : Table DC) : Table DC * Answer ProfileView :=
  match getDCById user_id dcs with
  | None => (dcs, Refused 404 "User not found")
  | Some dcData =>
      match updateDC user_id
              {| up_name := Some (or_str (pb_name body) (dc_name dcData));
                 up_contact :=
                   Some (or_str (pb_contact body) (dc_contact dcData));
                 up_hostelType :=
                   Some (or_str (pb_hostelType body) (dc_hostelType dcData));
                 up_specificHostel :=
                   Some (or_str (pb_specificHostel body)
                           (dc_specificHostel dcData));
                 up_floor := Some (or_str (pb_floor body) (dc_floor dcData));
                 up_assignedDC :=
                   Some (or_str (pb_assignedDC body) (dc_assignedDC dcData));
                 up_profilePic := None |} stamp dcs with
      | (dcs', Some updatedDC) =>
          (dcs', Sent 200 "Profile updated successfully"
                   {| pv_id := dc_id updatedDC; pv_name := dc_name updatedDC;
                      pv_contact := dc_contact updatedDC;
                      pv_hostelType := dc_hostelType updatedDC;
                      pv_specificHostel := dc_specificHostel updatedDC;
                      pv_floor := dc_floor updatedDC;
                      pv_assignedDC := dc_assignedDC updatedDC |})
      | (dcs', None) => (dcs', Refused 404 "Failed to update profile")
      end
  end.

End DC_routes.

(** *** The dashboard *)

(** The result of [getStatistics], without [attendancePercentage] (a
    decimal fraction, formatted). *)
Record Statistics := mkStatistics {
  stat_totalStudents  : nat;
  stat_presentToday   : nat;
  stat_absentToday    : nat;
  stat_ironsBorrowed  : nat;
  stat_availableIrons : nat;
  stat_openComplaints : nat
}.

(** [getStatistics(hostel, floor)] *)
Definition getStatistics (hostel floor : option string)
    (sts : Table Student) (db : Database) (cs : Table Complaint)
    : Statistics :=
  let students := rows sts in
  let students :=
    if truthy_str hostel
    then filter (λ s, Some (st_hostel s) = hostel) students else students in
  let students :=
    if truthy_str floor
    then filter (λ s, Some (st_floor s) = floor) students else students in
  let totalStudents := length students in
  let presentToday := length (filter (λ s, st_present s = true) students) in
  {| stat_totalStudents := totalStudents;
     stat_presentToday := presentToday;
     stat_absentToday := (totalStudents - presentToday)%nat;
     stat_ironsBorrowed := ironsBorrowed db;
     stat_availableIrons := availableIrons db;
     stat_openComplaints :=
       length (filter (λ c, c_status c = "Open") (rows cs)) |}.

Record Dashboard := mkDashboard {
  stats         : Statistics;
  totalRooms    : Z;
  messStatus    : string;
  laundryStatus : string;
  securityLevel : string;
  hostelInfo_name  : string;
  hostelInfo_floor : string;
  hostelInfo_type  : string
}.

(** The routes that answer from [req.dcData], the coordinator
    [authenticateToken] has found. *)
Module Dashboard_routes.

(** [router.get('/dashboard/stats')] *)
Definition get_stats (dc : DC) (sts : Table Student) (db : Database)
    (cs : Table Complaint) : Answer Dashboard :=
  Sent 200 "Statistics retrieved successfully"
    {| stats := getStatistics (Some (dc_specificHostel dc))
                  (Some (dc_floor dc)) sts db cs;
       totalRooms := 120;
       messStatus := "Active";
       laundryStatus := "24/7";
       securityLevel := "High";
       hostelInfo_name := dc_specificHostel dc;
       hostelInfo_floor := dc_floor dc;
       hostelInfo_type := dc_hostelType dc |}.

(** [router.get('/students')] *)
Definition get_students (dc : DC) (sts : Table Student)
    : Answer (list Student) :=
  Sent 200 "Students retrieved successfully"
    (getStudentsByHostel (dc_specificHostel dc) (Some (dc_floor dc)) sts).

End Dashboard_routes.

(** What an answer carries, or nothing when it is an error. *)
Definition sent_data {A} (a : Answer A) : option A :=
  match a with
  | Sent _ _ data => Some data
  | Refused _ _ => None
  end.

(** No two coordinators share an email address or an employee id, and
    the coordinators are numbered by their place in the array, from 1. *)
Definition distinct_accounts (l : list DC) : Prop :=
  NoDup (dc_email <$> l) ∧ NoDup (dc_employeeId <$> l)
  ∧ ∀ k dc, l !! k = Some dc → dc_id dc = Z.of_nat k + 1.

(** What [PUT /dc/profile] may do to a row. *)
Definition profile_edit (user_id : Z) (old new : DC) : Prop :=
  dc_id new = dc_id old ∧ dc_email new = dc_email old
  ∧ dc_employeeId new = dc_employeeId old
  ∧ dc_password new = dc_password old ∧ dc_role new = dc_role old
  ∧ dc_isActive new = dc_isActive old
  ∧ dc_profilePic new = dc_profilePic old
  ∧ dc_createdAt new = dc_createdAt old
  ∧ (dc_name old ≠ "" → dc_name new ≠ "")
  ∧ (dc_contact old ≠ "" → dc_contact new ≠ "")
  ∧ (dc_hostelType old ≠ "" → dc_hostelType new ≠ "")
  ∧ (dc_specificHostel old ≠ "" → dc_specificHostel new ≠ "")
  ∧ (dc_floor old ≠ "" → dc_floor new ≠ "")
  ∧ (dc_assignedDC old ≠ "" → dc_assignedDC new ≠ "")
  ∧ (dc_id old ≠ user_id → new = old).

Definition warden : DC :=
  {| dc_id := 1; dc_name := "Asha"; dc_email := "asha@hostel.in";
     dc_employeeId := "E1"; dc_contact := "98100"; dc_password := "$2a$10$x";
     dc_hostelType := "Boys"; dc_specificHostel := "Hostel A";
     dc_floor := "1"; dc_assignedDC := ""; dc_profilePic := None;
     dc_role := Some "dc"; dc_isActive := true;
     dc_createdAt := Some 1000; dc_updatedAt := Some 1000 |}.

Definition newcomer : RegisterBody :=
  {| rb_name := Some "Ravi"; rb_email := Some "ravi@hostel.in";
     rb_password := Some "secret"; rb_employeeId := Some "E2";
     rb_contact := None; rb_hostelType := None; rb_specificHostel := None;
     rb_floor := None |}.

Definition namesake : RegisterBody :=
  {| rb_name := Some "Ravi K"; rb_email := Some "ravi@hostel.in";
     rb_password := Some "hunter2"; rb_employeeId := Some "E3";
     rb_contact := None; rb_hostelType := None; rb_specificHostel := None;
     rb_floor := None |}.

Definition unassigned : DC :=
  {| dc_id := 2; dc_name := "Ravi"; dc_email := "ravi@hostel.in";
     dc_employeeId := "E2"; dc_contact := ""; dc_password := "$2a$10$y";
     dc_hostelType := ""; dc_specificHostel := ""; dc_floor := "";
     dc_assignedDC := ""; dc_profilePic := None; dc_role := Some "dc";
     dc_isActive := true;
     dc_createdAt := Some 2000; dc_updatedAt := Some 2000 |}.

Definition leak : Complaint :=
  mkComplaint 1 "Leaking tap" "The tap of room 101 leaks" "Rahul Sharma"
    "101" (Some "himgiri") "High" (Some "Plumbing") "Open" 1700000000000
    None.

Definition meera : StudentBody :=
  {| sb_name := Some "Meera Nair"; sb_rollNumber := Some "ST004";
     sb_hostel := Some "himgiri"; sb_floor := Some "first";
     sb_room := Some "104"; sb_email := None; sb_phone := None |}.

(** ** Lemmas on the manager *)

Lemma I1_check_spec u : I1_check u = true ↔ I1 u.
Proof.
  unfold I1, I1_check, status, all_present, all_absent.
  destruct u as [i av b a r m]; simpl. split.
  - destruct av, b, a, r, m; try discriminate; intros _;
      repeat split; try done; eauto;
      try (intros (?&?&?&?); discriminate);
      try (intros ([? ?]&_); discriminate).
  - intros [[Hco _] [Hav _]]. destruct av.
    + destruct Hav as (->&->&->&->); done.
    + destruct Hco as ([? ->]&[? ->]&[? ->]&[? ->]); done.
Qed.

Section Manager.
Implicit Types (db : Database) (irons : list Iron) (u iron : Iron).
Implicit Types (id : option Z) (data : BorrowerData) (clk : Clock).

Lemma find_iron_Some id irons k iron :
  find_iron id irons = Some (k, iron) →
  irons !! k = Some iron ∧ Some (ironId iron) = id.
Proof.
  unfold find_iron. intros (Hk & Hid & _)%list_find_Some. done.
Qed.


Lemma borrowIron_free id data clk db k iron :
  find_iron id (ironBorrowing db) = Some (k, iron) →
  available iron = true →
  let iron' := borrow_assign iron (bd_borrowerName data) (bd_room data)
                 (bd_duration data) clk in
  borrowIron id data clk db
  = (saveData (<[k := iron']> (ironBorrowing db)), Some iron').
Proof. intros Hf Hav. unfold borrowIron. rewrite Hf, Hav. done. Qed.

Lemma borrowIron_taken id data clk db k iron :
  find_iron id (ironBorrowing db) = Some (k, iron) →
  available iron = false →
  borrowIron id data clk db = (db, Some iron).
Proof. intros Hf Hav. unfold borrowIron. rewrite Hf, Hav. done. Qed.


Lemma returnIron_taken id db k iron :
  find_iron id (ironBorrowing db) = Some (k, iron) →
  available iron = false →
  returnIron id db
  = (saveData (<[k := return_assign iron]> (ironBorrowing db)),
     Some (return_assign iron)).
Proof. intros Hf Hav. unfold returnIron. rewrite Hf, Hav. done. Qed.

Lemma returnIron_free id db k iron :
  find_iron id (ironBorrowing db) = Some (k, iron) →
  available iron = true →
  returnIron id db = (db, Some iron).
Proof. intros Hf Hav. unfold returnIron. rewrite Hf, Hav. done. Qed.


Lemma Forall2_update (R : Iron → Iron → Prop) irons k u u' :
  (∀ x, R x x) → irons !! k = Some u → R u u' →
  Forall2 R irons (<[k := u']> irons).
Proof.
  intros Hrefl Hk HR.
  rewrite <- (list_insert_id irons k u Hk) at 1.
  apply Forall2_insert; [|done].
  apply Forall_Forall2_diag, Forall_forall. auto.
Qed.

Lemma unit_effect_same c irons : Forall2 (unit_effect c) irons irons.
Proof. apply Forall_Forall2_diag, Forall_forall. intros; constructor. Qed.

Lemma borrowIron_units id data clk db :
  Forall2 (unit_effect (Call_borrowIron id data clk))
    (ironBorrowing db) (ironBorrowing (borrowIron id data clk db).1).
Proof.
  unfold borrowIron.
  destruct (find_iron id (ironBorrowing db)) as [[k iron]|] eqn:Hf;
    [|apply unit_effect_same].
  destruct (available iron) eqn:Hav; [|apply unit_effect_same]. simpl.
  apply find_iron_Some in Hf as [Hk Hid].
  eapply Forall2_update; [constructor | done | by constructor].
Qed.

Lemma returnIron_units id db :
  Forall2 (unit_effect (Call_returnIron id))
    (ironBorrowing db) (ironBorrowing (returnIron id db).1).
Proof.
  unfold returnIron.
  destruct (find_iron id (ironBorrowing db)) as [[k iron]|] eqn:Hf;
    [|apply unit_effect_same].
  destruct (available iron) eqn:Hav; [apply unit_effect_same|]. simpl.
  apply find_iron_Some in Hf as [Hk Hid].
  eapply Forall2_update; [constructor | done | by constructor].
Qed.

(** Only a return of that very unit makes a borrowed unit available. *)
Lemma unit_effect_release c u u' :
  unit_effect c u u' → available u = false → available u' = true →
  c = Call_returnIron (Some (ironId u)).
Proof.
  destruct 1 as [c u | id data clk u Hid Hav | id u Hid Hav]; intros H H'.
  - congruence.
  - congruence.
  - by rewrite Hid.
Qed.

Lemma unit_effect_ironId c u u' : unit_effect c u u' → ironId u' = ironId u.
Proof. by destruct 1. Qed.

Lemma unit_effect_I1 c u u' :
  call_supplies_holder_and_room c →
  unit_effect c u u' → I1 u → I1 u'.
Proof.
  intros Hc He HI1.
  destruct He as [c0 u0 | id data clk u0 Hid Hav | id u0 Hid Hav]; [done|..].
  - apply I1_check_spec. destruct Hc as [[? Hn] [? Hr]].
    unfold I1_check. simpl. by rewrite Hn, Hr.
  - by apply I1_check_spec.
Qed.
End Manager.

(** ** Lemmas on the routes *)

Section RouteLemmas.
Implicit Types (db : Database) (irons : list Iron) (u iron : Iron).
Implicit Types (body : BorrowBody) (rbody : ReturnBody) (clk : Clock).

Lemma truthy_str_Some v : truthy_str v = true → ∃ s, v = Some s ∧ s ≠ "".
Proof.
  destruct v as [s|]; [|done]. simpl. intros H. exists s. split; [done|].
  intros ->. done.
Qed.

Lemma truthy_num_Some v : truthy_num v = true → ∃ z, v = Some z ∧ z ≠ 0.
Proof.
  destruct v as [z|]; [|done]. simpl. intros H. exists z. split; [done|].
  intros ->. done.
Qed.

Lemma or_num_idem v d : or_num (Some (or_num v d)) d = or_num v d.
Proof.
  unfold or_num. destruct v as [z|]; simpl.
  - destruct (z =? 0) eqn:Hz; simpl.
    + destruct (d =? 0); done.
    + rewrite Hz. done.
  - destruct (d =? 0); done.
Qed.

Lemma routes_post_borrow_valid body clk db :
  required_fields body →
  Routes.post_borrow body clk db
  = let '(db', found) :=
      borrowIron (parseInt (body_ironId body)) (borrowerData_of body) clk db in
    match found with
    | None => (db', Failure 404 "Iron not found")
    | Some iron =>
        if negb (available iron)
        then (db', Failure 400 "Iron is already borrowed")
        else (db', Success 200 (Some "Iron borrowed successfully")
                     (OneIron iron))
    end.
Proof. intros [Hid Hname]. unfold Routes.post_borrow. rewrite Hid, Hname. done. Qed.

Lemma routes_post_borrow_invalid body clk db :
  ¬ required_fields body →
  Routes.post_borrow body clk db
  = (db, Failure 400 "Iron ID and borrower name are required").
Proof.
  unfold required_fields, Routes.post_borrow. intros Hreq.
  destruct (truthy_num (body_ironId body)),
           (truthy_str (body_borrowerName body)); simpl; try done.
  destruct Hreq. done.
Qed.

Lemma routes_post_return_valid rbody db :
  truthy_num (ret_ironId rbody) = true →
  Routes.post_return rbody db
  = let '(db', found) := returnIron (parseInt (ret_ironId rbody)) db in
    match found with
    | None => (db', Failure 404 "Iron not found")
    | Some iron => (db', Success 200 (Some "Iron returned successfully")
                           (OneIron iron))
    end.
Proof. intros Hid. unfold Routes.post_return. rewrite Hid. done. Qed.

(** The state after a request to routes/index.js is the state after the
    call of the manager it makes, if it makes one. *)
Lemma routes_post_borrow_state body clk db :
  (Routes.post_borrow body clk db).1 = db
  ∨ (Routes.post_borrow body clk db).1
    = (borrowIron (parseInt (body_ironId body)) (borrowerData_of body) clk db).1.
Proof.
  unfold Routes.post_borrow.
  destruct (negb _ || negb _); [by left|]. right.
  fold (borrowerData_of body).
  destruct (borrowIron _ _ _ _) as [db' [iron|]]; [|done].
  destruct (negb (available iron)); done.
Qed.

Lemma routes_post_return_state rbody db :
  (Routes.post_return rbody db).1 = db
  ∨ (Routes.post_return rbody db).1
    = (returnIron (parseInt (ret_ironId rbody)) db).1.
Proof.
  unfold Routes.post_return.
  destruct (negb _); [by left|]. right.
  destruct (returnIron _ _) as [db' [iron|]]; done.
Qed.

(** The stand-alone server changes its array as the manager would, on the
    data of the body as they are. *)
Lemma server_post_borrow_state body clk irons :
  (Server.post_borrow body clk irons).1 = irons
  ∨ (Server.post_borrow body clk irons).1
    = ironBorrowing (borrowIron (parseInt (body_ironId body))
                       (server_data_of body) clk (saveData irons)).1.
Proof.
  unfold Server.post_borrow, borrowIron. simpl.
  destruct (negb _ || negb _); [by left|]. right.
  destruct (find_iron _ irons) as [[k iron]|]; [|done].
  destruct (available iron); done.
Qed.

Lemma server_post_return_state rbody irons :
  (Server.post_return rbody irons).1 = irons
  ∨ (Server.post_return rbody irons).1
    = ironBorrowing (returnIron (parseInt (ret_ironId rbody))
                       (saveData irons)).1.
Proof.
  unfold Server.post_return, returnIron. simpl.
  destruct (negb _); [by left|]. right.
  destruct (find_iron _ irons) as [[k iron]|]; [|done].
  destruct (available iron); done.
Qed.
End RouteLemmas.

Section Events.
Implicit Types (db : Database) (irons : list Iron) (u : Iron).

Lemma routes_handle_units (e : Routes.Event) db :
  Forall2 (unit_effect (routes_call e))
    (ironBorrowing db) (ironBorrowing (Routes.handle e db).1).
Proof.
  destruct e as [body clk | rbody | | |]; simpl;
    try apply unit_effect_same.
  - unfold Routes.post_borrow. fold (borrowerData_of body).
    destruct (negb _ || negb _); [apply unit_effect_same|].
    pose proof (borrowIron_units (parseInt (body_ironId body))
                  (borrowerData_of body) clk db) as H.
    destruct (borrowIron _ _ _ _) as [db' [iron|]]; [|done].
    destruct (negb (available iron)); done.
  - unfold Routes.post_return.
    destruct (negb _); [apply unit_effect_same|].
    pose proof (returnIron_units (parseInt (ret_ironId rbody)) db) as H.
    destruct (returnIron _ _) as [db' [iron|]]; done.
Qed.

Lemma routes_call_supplies (e : Routes.Event) :
  call_supplies_holder_and_room (routes_call e).
Proof.
  destruct e as [body clk | rbody | | |]; simpl; try done.
  - destruct (truthy_num (body_ironId body)); simpl; [|done].
    destruct (truthy_str (body_borrowerName body)) eqn:Hn; simpl; [|done].
    apply truthy_str_Some in Hn as (s & -> & _). split; eauto.
  - by destruct (negb _).
Qed.

Lemma server_handle_units (e : Server.Event) irons :
  Forall2 (unit_effect (server_call e)) irons (Server.handle e irons).1.
Proof.
  destruct e as [body clk | rbody |]; simpl; try apply unit_effect_same.
  - unfold Server.post_borrow.
    destruct (negb _ || negb _); [apply unit_effect_same|].
    pose proof (borrowIron_units (parseInt (body_ironId body))
                  (server_data_of body) clk (saveData irons)) as H.
    unfold borrowIron in H. simpl in H.
    destruct (find_iron _ irons) as [[k iron]|]; [|done].
    destruct (available iron); done.
  - unfold Server.post_return.
    destruct (negb _); [apply unit_effect_same|].
    pose proof (returnIron_units (parseInt (ret_ironId rbody))
                  (saveData irons)) as H.
    unfold returnIron in H. simpl in H.
    destruct (find_iron _ irons) as [[k iron]|]; [|done].
    destruct (available iron); done.
Qed.

Lemma server_call_supplies (e : Server.Event) :
  carries_room e → call_supplies_holder_and_room (server_call e).
Proof.
  destruct e as [body clk | rbody |]; simpl; try done.
  - intros Hroom.
    destruct (truthy_num (body_ironId body)); simpl; [|done].
    destruct (truthy_str (body_borrowerName body)) eqn:Hn; simpl; [|done].
    apply truthy_str_Some in Hn as (s & -> & _). split; eauto.
  - by destruct (negb _).
Qed.

Lemma routes_handle_length (e : Routes.Event) db :
  length (ironBorrowing (Routes.handle e db).1) = length (ironBorrowing db).
Proof. symmetry. eapply Forall2_length, routes_handle_units. Qed.

Lemma server_handle_length (e : Server.Event) irons :
  length (Server.handle e irons).1 = length irons.
Proof. symmetry. eapply Forall2_length, server_handle_units. Qed.

(** The two counts of a summary split the array. *)
Lemma available_split irons :
  (length (filter (λ i, available i = true) irons)
   + length (filter (λ i, available i = false) irons)
   = length irons)%nat.
Proof.
  induction irons as [|u irons IH]; [done|].
  rewrite !filter_cons. destruct (available u); simpl in *; lia.
Qed.
End Events.

(** ** Checkout *)

(** The hold a successful borrow records: [returnBy] is the second reading
    of the clock plus the duration given, or plus four hours when the
    duration is missing or zero. *)
Lemma borrow_assign_hold u by_ rm d clk :
  let u' := borrow_assign u by_ rm d clk in
  status u' = CheckedOut
  ∧ borrowedBy u' = by_ ∧ room u' = rm
  ∧ borrowedAt u' = Some (new_Date clk)
  ∧ returnBy u' = Some (Date_now clk + hours (or_num d 4)).
Proof. unfold hours. simpl. repeat split; f_equal; lia. Qed.

Lemma or_num_given z d : z ≠ 0 → or_num (Some z) d = z.
Proof.
  intros Hz. unfold or_num. simpl.
  destruct (z =? 0) eqn:E; [|done]. apply Z.eqb_eq in E. done.
Qed.

Lemma or_num_default v d : v = None ∨ v = Some 0 → or_num v d = d.
Proof. by intros [-> | ->]. Qed.

(** On the stand-alone server a borrow of a free unit succeeds. *)
Lemma server_post_borrow_free body clk irons k iron :
  required_fields body →
  find_iron (parseInt (body_ironId body)) irons = Some (k, iron) →
  available iron = true →
  let iron' := borrow_assign iron (body_borrowerName body) (body_room body)
                 (body_duration body) clk in
  Server.post_borrow body clk irons
  = (<[k := iron']> irons,
     Success 200 (Some "Iron borrowed successfully") (OneIron iron')).
Proof.
  intros [Hid Hn] Hf Hav. unfold Server.post_borrow.
  rewrite Hid, Hn, Hf, Hav. done.
Qed.

(** On routes/index.js the same request changes the unit in the same way
    and is answered with the error of a unit already borrowed. *)
Lemma routes_post_borrow_free body clk db k iron :
  required_fields body →
  find_iron (parseInt (body_ironId body)) (ironBorrowing db) = Some (k, iron) →
  available iron = true →
  let iron' := borrow_assign iron (body_borrowerName body)
                 (Some (or_str (body_room body) ""))
                 (Some (or_num (parseInt (body_duration body)) 4)) clk in
  Routes.post_borrow body clk db
  = (saveData (<[k := iron']> (ironBorrowing db)),
     Failure 400 "Iron is already borrowed").
Proof.
  intros Hreq Hf Hav. rewrite routes_post_borrow_valid by done.
  rewrite (borrowIron_free _ _ _ _ _ _ Hf Hav). done.
Qed.

Lemma routes_post_borrow_taken body clk db k iron :
  required_fields body →
  find_iron (parseInt (body_ironId body)) (ironBorrowing db) = Some (k, iron) →
  available iron = false →
  Routes.post_borrow body clk db = (db, Failure 400 "Iron is already borrowed").
Proof.
  intros Hreq Hf Hav. rewrite routes_post_borrow_valid by done.
  rewrite (borrowIron_taken _ _ _ _ _ _ Hf Hav). simpl. by rewrite Hav.
Qed.

Lemma server_post_borrow_taken body clk irons k iron :
  required_fields body →
  find_iron (parseInt (body_ironId body)) irons = Some (k, iron) →
  available iron = false →
  Server.post_borrow body clk irons
  = (irons, Failure 400 "Iron is already borrowed").
Proof.
  intros [Hid Hn] Hf Hav. unfold Server.post_borrow.
  rewrite Hid, Hn, Hf, Hav. done.
Qed.

(** Property P2 of the specification, where the code has it: [borrowIron]
    and the handler of the stand-alone server, for a positive duration [d]
    and a clock that shows the same millisecond at both readings. *)
Lemma checkout_of_free_unit body clk db k iron d :
  required_fields body →
  find_iron (parseInt (body_ironId body)) (ironBorrowing db) = Some (k, iron) →
  status iron = Available →
  body_duration body = Some d → 0 < d →
  new_Date clk = Date_now clk →
  ∃ iron',
    status iron' = CheckedOut
    ∧ ironId iron' = ironId iron
    ∧ borrowedBy iron' = body_borrowerName body
    ∧ room iron' = body_room body
    ∧ borrowedAt iron' = Some (new_Date clk)
    ∧ returnBy iron' = Some (new_Date clk + hours d)
    ∧ borrowIron (parseInt (body_ironId body)) (server_data_of body) clk db
      = (saveData (<[k := iron']> (ironBorrowing db)), Some iron')
    ∧ Server.post_borrow body clk (ironBorrowing db)
      = (<[k := iron']> (ironBorrowing db),
         Success 200 (Some "Iron borrowed successfully") (OneIron iron')).
Proof.
  intros Hreq Hf Hst Hd Hpos Hclk.
  assert (Hav : available iron = true).
  { unfold status in Hst. by destruct (available iron). }
  exists (borrow_assign iron (body_borrowerName body) (body_room body)
            (body_duration body) clk).
  split; [done|]. split; [done|]. split; [done|]. split; [done|].
  split; [done|]. split.
  { simpl. rewrite Hd, or_num_given, Hclk by lia. unfold hours.
    f_equal; lia. }
  split; [by apply (borrowIron_free _ (server_data_of body))|].
  by apply server_post_borrow_free.
Qed.

(** C1 (P2), at the request of scenario A on a pool of three free units:
    [borrowIron] turns unit 2 into a unit checked out to Alice in Room 101,
    due two hours after it was taken, and returns that snapshot; the
    stand-alone server answers with the success response that carries it;
    the handler of routes/index.js makes the same change to the unit and
    answers 400 "Iron is already borrowed", where P2 has the call succeed
    and return the snapshot. *)
Theorem C1_routes_borrow_of_free_unit_answers_400 :
  status (free 2) = Available
  ∧ borrowIron (Some 2) (borrowerData_of alice) at_noon (saveData pool3)
    = (saveData [free 1; held_by_alice; free 3], Some held_by_alice)
  ∧ Server.post_borrow alice at_noon pool3
    = ([free 1; held_by_alice; free 3],
       Success 200 (Some "Iron borrowed successfully") (OneIron held_by_alice))
  ∧ Routes.post_borrow alice at_noon (saveData pool3)
    = (saveData [free 1; held_by_alice; free 3],
       Failure 400 "Iron is already borrowed")
  ∧ outcome (Routes.post_borrow alice at_noon (saveData pool3)).2
    = Some (Err AlreadyCheckedOut)
  ∧ (∃ a b, borrowedAt held_by_alice = Some a ∧ returnBy held_by_alice = Some b
            ∧ b - a = hours 2).
Proof.
  split; [done|]. split; [by vm_compute|]. split; [by vm_compute|].
  split; [by vm_compute|]. split; [by vm_compute|].
  eexists _, _. split; [done|]. split; [done|]. unfold hours. lia.
Qed.

(** C2 (P3): a borrow request for a unit that is checked out, made with the
    fields the handler requires, is answered with 400 "Iron is already
    borrowed" (the outcome AlreadyCheckedOut) by both servers, and neither
    the array nor the data file changes: every field of the unit, and of
    every other unit, is as before.  [borrowIron] itself hands the unit back
    untouched. *)
Theorem C2_borrow_of_checked_out_unit_rejected body clk db k iron :
  required_fields body →
  find_iron (parseInt (body_ironId body)) (ironBorrowing db) = Some (k, iron) →
  status iron = CheckedOut →
  borrowIron (parseInt (body_ironId body)) (borrowerData_of body) clk db
  = (db, Some iron)
  ∧ Routes.post_borrow body clk db
    = (db, Failure 400 "Iron is already borrowed")
  ∧ Server.post_borrow body clk (ironBorrowing db)
    = (ironBorrowing db, Failure 400 "Iron is already borrowed")
  ∧ outcome (Failure 400 "Iron is already borrowed")
    = Some (Err AlreadyCheckedOut).
Proof.
  intros Hreq Hf Hst.
  assert (Hav : available iron = false).
  { unfold status in Hst. by destruct (available iron). }
  split; [by apply (borrowIron_taken _ _ _ _ k)|]. split; [|split; [|done]].
  - by apply (routes_post_borrow_taken _ _ _ k iron).
  - by apply (server_post_borrow_taken _ _ _ k iron).
Qed.

Lemma C2_borrow_of_checked_out_unit_rejected_witness :
  let db := saveData [free 1; held_by_alice; free 3] in
  required_fields bob
  ∧ find_iron (parseInt (body_ironId bob)) (ironBorrowing db)
    = Some (1%nat, held_by_alice)
  ∧ status held_by_alice = CheckedOut
  ∧ Routes.post_borrow bob at_noon db
    = (db, Failure 400 "Iron is already borrowed").
Proof.
  intros db.
  assert (Hreq : required_fields bob) by (split; reflexivity).
  assert (Hf : find_iron (parseInt (body_ironId bob)) (ironBorrowing db)
               = Some (1%nat, held_by_alice)) by (vm_compute; reflexivity).
  assert (Hst : status held_by_alice = CheckedOut) by reflexivity.
  split; [exact Hreq|]. split; [exact Hf|]. split; [exact Hst|].
  exact (proj1 (proj2 (C2_borrow_of_checked_out_unit_rejected
                         bob at_noon db 1%nat held_by_alice Hreq Hf Hst))).
Defined.

(** ** Release *)

Lemma routes_post_return_free rbody db k iron :
  truthy_num (ret_ironId rbody) = true →
  find_iron (parseInt (ret_ironId rbody)) (ironBorrowing db) = Some (k, iron) →
  available iron = true →
  Routes.post_return rbody db
  = (db, Success 200 (Some "Iron returned successfully") (OneIron iron)).
Proof.
  intros Hid Hf Hav. rewrite routes_post_return_valid by done.
  rewrite (returnIron_free _ _ _ _ Hf Hav). done.
Qed.

Lemma server_post_return_free rbody irons k iron :
  truthy_num (ret_ironId rbody) = true →
  find_iron (parseInt (ret_ironId rbody)) irons = Some (k, iron) →
  available iron = true →
  Server.post_return rbody irons
  = (irons, Failure 400 "Iron is not currently borrowed").
Proof.
  intros Hid Hf Hav. unfold Server.post_return. rewrite Hid, Hf, Hav. done.
Qed.

(** C3 (P4, second half), at a return request for unit 1 of a pool of three
    free units: nothing changes in the array or in the data file on either
    server; the stand-alone server answers 400 "Iron is not currently
    borrowed" (the outcome NotCheckedOut); [returnIron] hands the unit back
    without a sign of failure and the handler of routes/index.js answers
    with the success response "Iron returned successfully", where P4 has
    the call fail. *)
Theorem C3_routes_return_of_free_unit_answers_success :
  status (free 1) = Available
  ∧ returnIron (Some 1) (saveData pool3) = (saveData pool3, Some (free 1))
  ∧ Routes.post_return {| ret_ironId := Some 1 |} (saveData pool3)
    = (saveData pool3,
       Success 200 (Some "Iron returned successfully") (OneIron (free 1)))
  ∧ outcome (Routes.post_return {| ret_ironId := Some 1 |} (saveData pool3)).2
    = Some (Ok (free 1))
  ∧ Server.post_return {| ret_ironId := Some 1 |} pool3
    = (pool3, Failure 400 "Iron is not currently borrowed")
  ∧ outcome (Server.post_return {| ret_ironId := Some 1 |} pool3).2
    = Some (Err NotCheckedOut).
Proof. repeat split; by vm_compute. Qed.

(** C4 (P4, first half): a return request for a unit that is checked out
    succeeds on both servers.  The unit is replaced, at its place in the
    array, by a unit with the same id that is Available and has
    [borrowedBy], [borrowedAt], [returnBy] and [room] all absent; the
    response (and the result of [returnIron]) carries that updated unit. *)
Theorem C4_return_of_checked_out_unit rbody db k iron :
  truthy_num (ret_ironId rbody) = true →
  find_iron (parseInt (ret_ironId rbody)) (ironBorrowing db) = Some (k, iron) →
  status iron = CheckedOut →
  ∃ iron',
    ironId iron' = ironId iron
    ∧ status iron' = Available ∧ all_absent iron'
    ∧ <[k := iron']> (ironBorrowing db) !! k = Some iron'
    ∧ returnIron (parseInt (ret_ironId rbody)) db
      = (saveData (<[k := iron']> (ironBorrowing db)), Some iron')
    ∧ Routes.post_return rbody db
      = (saveData (<[k := iron']> (ironBorrowing db)),
         Success 200 (Some "Iron returned successfully") (OneIron iron'))
    ∧ Server.post_return rbody (ironBorrowing db)
      = (<[k := iron']> (ironBorrowing db),
         Success 200 (Some "Iron returned successfully") (OneIron iron')).
Proof.
  intros Hid Hf Hst.
  assert (Hav : available iron = false).
  { unfold status in Hst. by destruct (available iron). }
  exists (return_assign iron).
  split; [done|]. split; [done|]. split; [done|]. split.
  { apply list_lookup_insert_eq. apply find_iron_Some in Hf as [Hk _].
    by eapply lookup_lt_Some. }
  split; [by apply returnIron_taken|]. split.
  - rewrite routes_post_return_valid by done.
    rewrite (returnIron_taken _ _ _ _ Hf Hav). done.
  - unfold Server.post_return. rewrite Hid, Hf, Hav. done.
Qed.

Lemma C4_return_of_checked_out_unit_witness :
  let db := saveData [free 1; held_by_alice; free 3] in
  let rbody := {| ret_ironId := Some 2 |} in
  truthy_num (ret_ironId rbody) = true
  ∧ find_iron (parseInt (ret_ironId rbody)) (ironBorrowing db)
    = Some (1%nat, held_by_alice)
  ∧ status held_by_alice = CheckedOut
  ∧ ∃ iron',
      status iron' = Available
      ∧ Routes.post_return rbody db
        = (saveData (<[1%nat := iron']> (ironBorrowing db)),
           Success 200 (Some "Iron returned successfully") (OneIron iron')).
Proof.
  intros db rbody.
  assert (Hid : truthy_num (ret_ironId rbody) = true) by reflexivity.
  assert (Hf : find_iron (parseInt (ret_ironId rbody)) (ironBorrowing db)
               = Some (1%nat, held_by_alice)) by (vm_compute; reflexivity).
  assert (Hst : status held_by_alice = CheckedOut) by reflexivity.
  split; [exact Hid|]. split; [exact Hf|]. split; [exact Hst|].
  destruct (C4_return_of_checked_out_unit rbody db 1%nat held_by_alice
              Hid Hf Hst) as (iron' & _ & Hav & _ & _ & _ & Hroute & _).
  exists iron'. split; [exact Hav | exact Hroute].
Defined.

(** ** Unknown units *)



(** ** The duration of a hold *)

Lemma default_hold u by_ rm d clk :
  or_num d 4 = 4 →
  let u' := borrow_assign u by_ rm d clk in
  status u' = CheckedOut
  ∧ borrowedAt u' = Some (new_Date clk)
  ∧ returnBy u' = Some (Date_now clk + hours 4)
  ∧ (new_Date clk = Date_now clk → returnBy u' = Some (new_Date clk + hours 4))
  ∧ (new_Date clk ≤ Date_now clk → I2 u').
Proof.
  intros Hd. unfold hours, I2. simpl. rewrite Hd.
  split; [done|]. split; [done|]. split; [f_equal; lia|]. split.
  - intros ->. f_equal; lia.
  - intros Hle a b [= <-] [= <-]. lia.
Qed.

(** C8, as the code has it: when a borrow request for a free unit carries
    no duration, or the duration zero, the hold lasts four hours on every
    path (the handler of routes/index.js, the handler of the stand-alone
    server, and [borrowIron] called with the data as they are): [returnBy]
    is the reading of the clock taken for it plus four hours.  That is
    [borrowedAt] plus four hours when both readings of the call show the
    same millisecond, and it is strictly after [borrowedAt] (I2) whenever
    the second reading is not earlier than the first. *)
Theorem C8_missing_or_zero_duration_holds_four_hours body clk db k iron u' :
  required_fields body →
  find_iron (parseInt (body_ironId body)) (ironBorrowing db) = Some (k, iron) →
  status iron = Available →
  body_duration body = None ∨ body_duration body = Some 0 →
  ironBorrowing (Routes.post_borrow body clk db).1 !! k = Some u'
  ∨ (Server.post_borrow body clk (ironBorrowing db)).1 !! k = Some u'
  ∨ ironBorrowing (borrowIron (parseInt (body_ironId body))
                     (server_data_of body) clk db).1 !! k = Some u' →
  status u' = CheckedOut
  ∧ borrowedAt u' = Some (new_Date clk)
  ∧ returnBy u' = Some (Date_now clk + hours 4)
  ∧ (new_Date clk = Date_now clk → returnBy u' = Some (new_Date clk + hours 4))
  ∧ (new_Date clk ≤ Date_now clk → I2 u').
Proof.
  intros Hreq Hf Hst Hd Hu'.
  assert (Hav : available iron = true).
  { unfold status in Hst. by destruct (available iron). }
  assert (Hk : (k < length (ironBorrowing db))%nat).
  { apply find_iron_Some in Hf as [Hk _]. by eapply lookup_lt_Some. }
  assert (Hd4 : or_num (body_duration body) 4 = 4) by by apply or_num_default.
  destruct Hu' as [Hu' | [Hu' | Hu']].
  - rewrite (routes_post_borrow_free _ _ _ _ _ Hreq Hf Hav) in Hu'.
    simpl in Hu'. rewrite list_lookup_insert_eq in Hu' by done.
    injection Hu' as <-. apply default_hold.
    unfold parseInt. rewrite Hd4. done.
  - rewrite (server_post_borrow_free _ _ _ _ _ Hreq Hf Hav) in Hu'.
    simpl in Hu'. rewrite list_lookup_insert_eq in Hu' by done.
    injection Hu' as <-. by apply default_hold.
  - rewrite (borrowIron_free _ _ _ _ _ _ Hf Hav) in Hu'.
    simpl in Hu'. rewrite list_lookup_insert_eq in Hu' by done.
    injection Hu' as <-. by apply default_hold.
Qed.

Lemma C8_missing_or_zero_duration_holds_four_hours_witness :
  let db := saveData [free 1; held_by_alice; free 3] in
  let bob3 := {| body_ironId := Some 3; body_borrowerName := Some "Bob";
                 body_room := Some "Room 102"; body_duration := Some 0 |} in
  let u' := mkIron 3 false (Some "Bob") (Some 1700000000000)
              (Some 1700014400000) (Some "Room 102") in
  required_fields bob3
  ∧ find_iron (parseInt (body_ironId bob3)) (ironBorrowing db)
    = Some (2%nat, free 3)
  ∧ status (free 3) = Available
  ∧ (body_duration bob3 = None ∨ body_duration bob3 = Some 0)
  ∧ (Server.post_borrow bob3 at_noon (ironBorrowing db)).1 !! 2%nat = Some u'
  ∧ returnBy u' = Some (new_Date at_noon + hours 4)
  ∧ I2 u'.
Proof.
  intros db bob3 u'.
  assert (Hreq : required_fields bob3) by (split; reflexivity).
  assert (Hf : find_iron (parseInt (body_ironId bob3)) (ironBorrowing db)
               = Some (2%nat, free 3)) by (vm_compute; reflexivity).
  assert (Hst : status (free 3) = Available) by reflexivity.
  assert (Hd : body_duration bob3 = None ∨ body_duration bob3 = Some 0)
    by (right; reflexivity).
  assert (Hu' : (Server.post_borrow bob3 at_noon (ironBorrowing db)).1 !! 2%nat
                = Some u') by (vm_compute; reflexivity).
  split; [exact Hreq|]. split; [exact Hf|]. split; [exact Hst|].
  split; [exact Hd|]. split; [exact Hu'|].
  destruct (C8_missing_or_zero_duration_holds_four_hours bob3 at_noon db
              2%nat (free 3) u' Hreq Hf Hst Hd (or_intror (or_introl Hu')))
    as (_ & _ & _ & Hsame & Hmono).
  split; [apply Hsame; reflexivity | apply Hmono; reflexivity].
Defined.

(** A negative duration is no default case: the hold recorded ends before it
    begins.  And when the clock ticks between the two readings of a call,
    a default hold is one millisecond longer than four hours. *)
Lemma C8_negative_duration_counterexample :
  let hasty := {| body_ironId := Some 2; body_borrowerName := Some "Alice";
                  body_room := Some "Room 101"; body_duration := Some (-2) |} in
  let tick := {| new_Date := 1700000000000; Date_now := 1700000000001 |} in
  (∃ u', ironBorrowing (Routes.post_borrow hasty at_noon (saveData pool3)).1
           !! 1%nat = Some u'
         ∧ (Server.post_borrow hasty at_noon pool3).1 !! 1%nat = Some u'
         ∧ borrowedAt u' = Some 1700000000000
         ∧ returnBy u' = Some (1700000000000 - hours 2)
         ∧ returnBy u' ≠ Some (1700000000000 + hours 4)
         ∧ ¬ I2 u')
  ∧ (∃ u', ironBorrowing (Routes.post_borrow bob tick (saveData pool3)).1
             !! 1%nat = Some u'
           ∧ (Server.post_borrow bob tick pool3).1 !! 1%nat = Some u'
           ∧ borrowedAt u' = Some 1700000000000
           ∧ returnBy u' = Some (1700000000000 + hours 4 + 1)
           ∧ returnBy u' ≠ Some (1700000000000 + hours 4)).
Proof.
  intros hasty tick. split.
  - exists (mkIron 2 false (Some "Alice") (Some 1700000000000)
              (Some 1699992800000) (Some "Room 101")).
    split; [by vm_compute|]. split; [by vm_compute|].
    split; [done|]. split; [by vm_compute|]. split; [by vm_compute|].
    intros H. specialize (H _ _ eq_refl eq_refl). lia.
  - exists (mkIron 2 false (Some "Bob") (Some 1700000000000)
              (Some 1700014400001) (Some "Room 102")).
    repeat split; by vm_compute.
Qed.

(** ** Invariant I1 *)

Lemma unit_effect_I1_shown c u u' :
  call_supplies_holder_and_room c → valid_call_times c →
  unit_effect c u u' → I1_shown u → I1_shown u'.
Proof.
  intros Hc Ht He [HI Hv]. split; [by apply (unit_effect_I1 c u u')|].
  destruct He as [c0 u0 | id data clk u0 Hid Hav | id u0 Hid Hav]; [done|..].
  - destruct Ht as [Hat Hby]. by split.
  - by split.
Qed.

Lemma units_keep_I1 c (irons irons' : list Iron) :
  call_supplies_holder_and_room c → valid_call_times c →
  Forall2 (unit_effect c) irons irons' →
  Forall I1_shown irons → Forall I1_shown irons'.
Proof.
  intros Hc Ht H2 HI. eapply Forall2_Forall_r; [exact H2|].
  eapply Forall_impl; [exact HI|]. intros u Hu u' He.
  by apply (unit_effect_I1_shown c u u').
Qed.

Lemma do_call_units c db :
  Forall2 (unit_effect c) (ironBorrowing db) (ironBorrowing (do_call c db)).
Proof.
  destruct c as [id data clk | id |]; simpl.
  - apply borrowIron_units.
  - apply returnIron_units.
  - apply unit_effect_same.
Qed.

(** The provisioned states violate I1.  With the draws of [env0] the first
    default iron of the manager is available and carries a borrower and a
    return time; the third iron of the stand-alone server is borrowed and
    has no room. *)
Lemma C5_provisioned_state_counterexample :
  let init := initializeDatabase env0 None in
  let irons0 := (Server.ironBorrowing0 env0 {| draws := 0; reads := 0 |}).1 in
  (Routes.reachable init init
   ∧ ∃ u, ironBorrowing init !! 0%nat = Some u
          ∧ status u = Available
          ∧ borrowedBy u = Some "Student 1"
          ∧ ¬ I1 u)
  ∧ (Server.reachable irons0 irons0
     ∧ ∃ u, irons0 !! 2%nat = Some u
            ∧ status u = CheckedOut
            ∧ room u = None
            ∧ ¬ I1 u).
Proof.
  intros init irons0. split; (split; [constructor|]).
  - exists (mkIron 1 true (Some "Student 1") None
              (Some (1700000000000 + 4 * 60 * 60 * 1000)) None).
    split; [by vm_compute|]. split; [done|]. split; [done|].
    intros H%I1_check_spec. discriminate.
  - exists (mkIron 3 false (Some "John Doe") (Some 1700000000000)
              (Some (1700000000001 + 4 * 60 * 60 * 1000)) None).
    split; [by vm_compute|]. split; [done|]. split; [done|].
    intros H%I1_check_spec. discriminate.
Qed.

(** A checkout that names no room breaks I1 where the room is stored as it
    comes: in the handler of the stand-alone server and in [borrowIron]
    called with the data as they are.  The handler of routes/index.js
    stores the empty string for it. *)
Lemma checkout_without_room_breaks_I1 :
  Forall I1_shown pool3
  ∧ required_fields roomless
  ∧ valid_call_times (server_call (Server.POST_borrow roomless at_noon))
  ∧ (∃ u, (Server.post_borrow roomless at_noon pool3).1 !! 1%nat = Some u
          ∧ status u = CheckedOut ∧ room u = None ∧ ¬ I1 u)
  ∧ (∃ u, ironBorrowing
            (borrowIron (Some 2) (server_data_of roomless) at_noon
               (saveData pool3)).1 !! 1%nat = Some u
          ∧ status u = CheckedOut ∧ room u = None ∧ ¬ I1 u)
  ∧ (∃ u, ironBorrowing
            (Routes.post_borrow roomless at_noon (saveData pool3)).1
            !! 1%nat = Some u
          ∧ status u = CheckedOut ∧ room u = Some "" ∧ I1 u).
Proof.
  split.
  { repeat constructor; by apply I1_check_spec. }
  split; [by split|]. split; [by vm_compute|].
  split; [|split].
  - exists (mkIron 2 false (Some "Alice") (Some 1700000000000)
              (Some (1700000000000 + hours 2)) None).
    split; [by vm_compute|]. split; [done|]. split; [done|].
    intros H%I1_check_spec. discriminate.
  - exists (mkIron 2 false (Some "Alice") (Some 1700000000000)
              (Some (1700000000000 + hours 2)) None).
    split; [by vm_compute|]. split; [done|]. split; [done|].
    intros H%I1_check_spec. discriminate.
  - exists (mkIron 2 false (Some "Alice") (Some 1700000000000)
              (Some (1700000000000 + hours 2)) (Some "")).
    split; [by vm_compute|]. split; [done|]. split; [done|].
    by apply I1_check_spec.
Qed.

Lemma calls_keep_I1 cs db :
  Forall (λ c, call_supplies_holder_and_room c ∧ valid_call_times c) cs →
  Forall I1_shown (ironBorrowing db) →
  Forall I1_shown (ironBorrowing (run_calls cs db)).
Proof.
  intros Hcs. revert db.
  induction Hcs as [|c cs [Hc Ht] Hcs IH]; intros db HI; [done|].
  simpl. apply IH.
  eapply units_keep_I1; [exact Hc | exact Ht | | exact HI].
  apply do_call_units.
Qed.

Lemma routes_keep_I1 es db :
  Forall (λ e, valid_call_times (routes_call e)) es →
  Forall I1_shown (ironBorrowing db) →
  Forall I1_shown (ironBorrowing (Routes.run es db)).
Proof.
  intros Hes. revert db.
  induction Hes as [|e es Ht Hes IH]; intros db HI; [done|].
  simpl. apply IH.
  eapply units_keep_I1;
    [apply (routes_call_supplies e) | exact Ht | | exact HI].
  apply routes_handle_units.
Qed.

Lemma server_keep_I1 es (irons : list Iron) :
  Forall (λ e, carries_room e ∧ valid_call_times (server_call e)) es →
  Forall I1_shown irons → Forall I1_shown (Server.run es irons).
Proof.
  intros Hes. revert irons.
  induction Hes as [|e es [Hroom Ht] Hes IH]; intros irons HI; [done|].
  simpl. apply IH.
  eapply units_keep_I1;
    [by apply server_call_supplies | exact Ht | | exact HI].
  apply server_handle_units.
Qed.

(** C5 (P1), as the code has it.  I1 is kept, together with the validity of
    the two dates on which the presence of [borrowedAt] and [returnBy] in
    the data file and in the responses depends, by every sequence of
    - calls of [borrowIron] and [returnIron] in which each borrow supplies
      a borrower name and a room;
    - events of routes/index.js (requests that succeed or fail, reads, the
      saves of the timer and of SIGINT), whose handler requires the name
      and stores [room || ''];
    - requests to the stand-alone server in which each borrow names a
      room;
    provided each borrow is made at valid clock readings and for a duration
    that ends at a valid date.  If the invariant holds for every unit
    before, it holds for every unit after. *)
Theorem C5_I1_kept_in_reachable_states :
  (∀ cs db,
     Forall (λ c, call_supplies_holder_and_room c ∧ valid_call_times c) cs →
     Forall I1_shown (ironBorrowing db) →
     Forall I1_shown (ironBorrowing (run_calls cs db)))
  ∧ (∀ es db,
       Forall (λ e, valid_call_times (routes_call e)) es →
       Forall I1_shown (ironBorrowing db) →
       Forall I1_shown (ironBorrowing (Routes.run es db)))
  ∧ (∀ es irons,
       Forall (λ e, carries_room e ∧ valid_call_times (server_call e)) es →
       Forall I1_shown irons →
       Forall I1_shown (Server.run es irons)).
Proof.
  split; [exact calls_keep_I1|]. split; [exact routes_keep_I1|].
  exact server_keep_I1.
Qed.

Lemma C5_I1_kept_in_reachable_states_witness :
  let init := saveData pool3 in
  Forall I1_shown (ironBorrowing init)
  ∧ Forall I1_shown
      (ironBorrowing
         (run_calls [Call_borrowIron (Some 2) (server_data_of alice) at_noon;
                     Call_returnIron (Some 2)] init))
  ∧ Forall I1_shown
      (ironBorrowing
         (Routes.run [Routes.POST_borrow roomless at_noon;
                      Routes.Interval_saveAll;
                      Routes.POST_return {| ret_ironId := Some 2 |}] init))
  ∧ Forall I1_shown (Server.run [Server.POST_borrow alice at_noon] pool3).
Proof.
  intros init.
  assert (Hinit : Forall I1_shown (ironBorrowing init)).
  { repeat constructor; by apply I1_check_spec. }
  destruct C5_I1_kept_in_reachable_states as (Hcalls & Hroutes & Hserver).
  split; [exact Hinit|]. split; [|split].
  - apply Hcalls; [|exact Hinit].
    repeat constructor; simpl; eauto; by vm_compute.
  - apply Hroutes; [|exact Hinit].
    repeat constructor; by vm_compute.
  - apply Hserver; [|exact Hinit].
    repeat constructor; simpl; eauto; by vm_compute.
Defined.

Lemma routes_reachable_run init db :
  Routes.reachable init db ↔ ∃ es, db = Routes.run es init.
Proof.
  split.
  - induction 1 as [|e db Hreach [es ->]]; [by exists []|].
    exists (es ++ [e]). unfold Routes.run. by rewrite foldl_app.
  - intros [es ->]. induction es as [|e es IH] using rev_ind.
    + constructor.
    + unfold Routes.run. rewrite foldl_app. simpl. by constructor.
Qed.

(** ** The summary *)

Lemma routes_run_length es db :
  length (ironBorrowing (Routes.run es db)) = length (ironBorrowing db).
Proof.
  revert db. induction es as [|e es IH]; intros db; [done|].
  simpl. rewrite IH. apply routes_handle_length.
Qed.

(** The two counts of the summary are the numbers of units that are
    Available and CheckedOut. *)
Lemma summarize_counts (irons : list Iron) :
  sum_available (Routes.summarize irons) = count_status Available irons
  ∧ sum_borrowed (Routes.summarize irons) = count_status CheckedOut irons.
Proof.
  unfold count_status, status. simpl.
  split; f_equal; apply list_filter_iff; intros u;
    destruct (available u); split; done.
Qed.

(** Replacing one unit moves one from the count of its old status to the
    count of its new one. *)
Lemma count_status_insert s (irons : list Iron) k u u' :
  irons !! k = Some u →
  (count_status s (<[k := u']> irons)
   + (if decide (status u = s) then 1 else 0)
   = count_status s irons + (if decide (status u' = s) then 1 else 0))%nat.
Proof.
  unfold count_status. revert k.
  induction irons as [|x irons IH]; intros [|k] Hk; simplify_eq/=.
  - rewrite !filter_cons. repeat case_decide; simpl; lia.
  - rewrite !filter_cons. specialize (IH k Hk).
    destruct (decide (status x = s)); simpl; lia.
Qed.

Lemma borrowIron_counts id data clk db :
  let irons' := ironBorrowing (borrowIron id data clk db).1 in
  ((∃ k u, find_iron id (ironBorrowing db) = Some (k, u)
           ∧ status u = Available) →
   count_status CheckedOut irons'
   = S (count_status CheckedOut (ironBorrowing db))
   ∧ count_status Available (ironBorrowing db)
     = S (count_status Available irons'))
  ∧ (¬ (∃ k u, find_iron id (ironBorrowing db) = Some (k, u)
               ∧ status u = Available) →
     irons' = ironBorrowing db).
Proof.
  intros irons'. subst irons'. unfold borrowIron. split.
  - intros (k & u & Hf & Hst). rewrite Hf.
    assert (Hav : available u = true).
    { unfold status in Hst. by destruct (available u). }
    rewrite Hav. simpl. apply find_iron_Some in Hf as [Hk _].
    pose proof (count_status_insert CheckedOut _ k u
                  (borrow_assign u (bd_borrowerName data) (bd_room data)
                     (bd_duration data) clk) Hk) as Hc.
    pose proof (count_status_insert Available _ k u
                  (borrow_assign u (bd_borrowerName data) (bd_room data)
                     (bd_duration data) clk) Hk) as Ha.
    unfold status in Hc, Ha. rewrite Hav in Hc, Ha. simpl in Hc, Ha.
    lia.
  - intros Hno.
    destruct (find_iron id (ironBorrowing db)) as [[k u]|] eqn:Hf; [|done].
    destruct (available u) eqn:Hav; [|done].
    destruct Hno. exists k, u. split; [done|]. unfold status. by rewrite Hav.
Qed.

Lemma returnIron_counts id db :
  let irons' := ironBorrowing (returnIron id db).1 in
  ((∃ k u, find_iron id (ironBorrowing db) = Some (k, u)
           ∧ status u = CheckedOut) →
   count_status Available irons'
   = S (count_status Available (ironBorrowing db))
   ∧ count_status CheckedOut (ironBorrowing db)
     = S (count_status CheckedOut irons'))
  ∧ (¬ (∃ k u, find_iron id (ironBorrowing db) = Some (k, u)
               ∧ status u = CheckedOut) →
     irons' = ironBorrowing db).
Proof.
  intros irons'. subst irons'. unfold returnIron. split.
  - intros (k & u & Hf & Hst). rewrite Hf.
    assert (Hav : available u = false).
    { unfold status in Hst. by destruct (available u). }
    rewrite Hav. simpl. apply find_iron_Some in Hf as [Hk _].
    pose proof (count_status_insert CheckedOut _ k u (return_assign u) Hk)
      as Hc.
    pose proof (count_status_insert Available _ k u (return_assign u) Hk)
      as Ha.
    unfold status in Hc, Ha. rewrite Hav in Hc, Ha. simpl in Hc, Ha.
    lia.
  - intros Hno.
    destruct (find_iron id (ironBorrowing db)) as [[k u]|] eqn:Hf; [|done].
    destruct (available u) eqn:Hav; [done|].
    destruct Hno. exists k, u. split; [done|]. unfold status. by rewrite Hav.
Qed.

(** C6 (P6): after any sequence of events (borrow and return requests that
    succeed or fail, reads, saves), the GET route answers with the summary
    of the array as it then is: its list is that array, its two counts are
    the numbers of units of the array that are Available and CheckedOut,
    they add up to the total, and the total is the number of units there
    were before the events.  The counts follow every call: a [borrowIron]
    that finds an Available unit moves one from [available] to [borrowed],
    a [returnIron] that finds a CheckedOut unit moves one back, any other
    call leaves both as they are, and none changes the total. *)
Theorem C6_summary_counts es db :
  let db' := Routes.run es db in
  let s := Routes.summarize (ironBorrowing db') in
  Routes.get_iron_borrowing db'
  = (db', Routes.apiSuccess (IronSummary s)
            "Iron borrowing status retrieved successfully")
  ∧ sum_irons s = ironBorrowing db'
  ∧ sum_available s = count_status Available (ironBorrowing db')
  ∧ sum_borrowed s = count_status CheckedOut (ironBorrowing db')
  ∧ (sum_available s + sum_borrowed s = total s)%nat
  ∧ total s = length (ironBorrowing db)
  ∧ (∀ id data clk,
       let s1 := Routes.summarize
                   (ironBorrowing (borrowIron id data clk db').1) in
       total s1 = total s
       ∧ ((∃ k u, find_iron id (ironBorrowing db') = Some (k, u)
                  ∧ status u = Available) →
          sum_borrowed s1 = S (sum_borrowed s)
          ∧ sum_available s = S (sum_available s1))
       ∧ (¬ (∃ k u, find_iron id (ironBorrowing db') = Some (k, u)
                    ∧ status u = Available) →
          sum_borrowed s1 = sum_borrowed s
          ∧ sum_available s1 = sum_available s))
  ∧ (∀ id,
       let s1 := Routes.summarize (ironBorrowing (returnIron id db').1) in
       total s1 = total s
       ∧ ((∃ k u, find_iron id (ironBorrowing db') = Some (k, u)
                  ∧ status u = CheckedOut) →
          sum_available s1 = S (sum_available s)
          ∧ sum_borrowed s = S (sum_borrowed s1))
       ∧ (¬ (∃ k u, find_iron id (ironBorrowing db') = Some (k, u)
                    ∧ status u = CheckedOut) →
          sum_available s1 = sum_available s
          ∧ sum_borrowed s1 = sum_borrowed s)).
Proof.
  intros db' s. subst s.
  destruct (summarize_counts (ironBorrowing db')) as [Ha Hb].
  split; [done|]. split; [done|]. split; [exact Ha|]. split; [exact Hb|].
  split; [apply available_split|].
  split; [apply routes_run_length|]. split.
  - intros id data clk s1. subst s1.
    destruct (summarize_counts
                (ironBorrowing (borrowIron id data clk db').1)) as [Ha1 Hb1].
    destruct (borrowIron_counts id data clk db') as [Hyes Hno].
    split; [symmetry; eapply Forall2_length, borrowIron_units|].
    rewrite Ha, Hb, Ha1, Hb1. split.
    + intros Hfound. by apply Hyes.
    + intros Hnot. by rewrite (Hno Hnot).
  - intros id s1. subst s1.
    destruct (summarize_counts (ironBorrowing (returnIron id db').1))
      as [Ha1 Hb1].
    destruct (returnIron_counts id db') as [Hyes Hno].
    split; [symmetry; eapply Forall2_length, returnIron_units|].
    rewrite Ha, Hb, Ha1, Hb1. split.
    + intros Hfound. by apply Hyes.
    + intros Hnot. by rewrite (Hno Hnot).
Qed.

Lemma C6_summary_counts_witness :
  let db' := Routes.run [Routes.POST_borrow alice at_noon] (saveData pool3) in
  let s := Routes.summarize (ironBorrowing db') in
  find_iron (Some 2) (ironBorrowing db') = Some (1%nat, held_by_alice)
  ∧ status held_by_alice = CheckedOut
  ∧ total s = 3%nat ∧ sum_available s = 2%nat ∧ sum_borrowed s = 1%nat
  ∧ sum_available
      (Routes.summarize (ironBorrowing (returnIron (Some 2) db').1))
    = 3%nat.
Proof.
  intros db' s.
  assert (Hf : find_iron (Some 2) (ironBorrowing db')
               = Some (1%nat, held_by_alice)) by (vm_compute; reflexivity).
  assert (Hst : status held_by_alice = CheckedOut) by reflexivity.
  split; [exact Hf|]. split; [exact Hst|].
  destruct (C6_summary_counts [Routes.POST_borrow alice at_noon]
              (saveData pool3))
    as (_ & _ & _ & _ & _ & Htotal & _ & Hreturn).
  destruct (Hreturn (Some 2)) as (_ & Hyes & _).
  destruct Hyes as [Hmore _].
  { exists 1%nat, held_by_alice. split; [exact Hf | exact Hst]. }
  split; [exact Htotal|]. split; [reflexivity|]. split; [reflexivity|].
  exact Hmore.
Defined.

(** ** Overdue holds *)

(** C9: whatever the event, be it a request at any reading of the clock,
    a read, the five-minute save or the save on SIGINT, a unit that is
    checked out stays at its place in the array, and if it is Available
    after the event then the event is a return request that names its id.
    No event looks at [returnBy].  The same holds on the stand-alone
    server. *)
Theorem C9_only_a_return_request_releases
    (e : Routes.Event) (e' : Server.Event) db k u :
  ironBorrowing db !! k = Some u →
  status u = CheckedOut →
  (∃ u', ironBorrowing (Routes.handle e db).1 !! k = Some u'
         ∧ ironId u' = ironId u
         ∧ (status u' = Available →
            ∃ rbody, e = Routes.POST_return rbody
                     ∧ parseInt (ret_ironId rbody) = Some (ironId u)))
  ∧ (∃ u', (Server.handle e' (ironBorrowing db)).1 !! k = Some u'
           ∧ ironId u' = ironId u
           ∧ (status u' = Available →
              ∃ rbody, e' = Server.POST_return rbody
                       ∧ parseInt (ret_ironId rbody) = Some (ironId u))).
Proof.
  intros Hk Hst.
  assert (Hav : available u = false).
  { unfold status in Hst. by destruct (available u). }
  assert (Hfree : ∀ u', status u' = Available → available u' = true).
  { intros u'. unfold status. by destruct (available u'). }
  split.
  - destruct (Forall2_lookup_l _ _ _ k u (routes_handle_units e db) Hk)
      as (u' & Hk' & He).
    exists u'. split; [done|]. split; [by eapply unit_effect_ironId|].
    intros Hav'%Hfree.
    pose proof (unit_effect_release _ _ _ He Hav Hav') as Hc.
    destruct e as [body clk | rbody | | |]; simpl in Hc; try discriminate.
    + destruct (negb _ || negb _); discriminate.
    + exists rbody. split; [done|].
      destruct (negb _); [discriminate|]. by injection Hc.
  - destruct (Forall2_lookup_l _ _ _ k u
                (server_handle_units e' (ironBorrowing db)) Hk)
      as (u' & Hk' & He).
    exists u'. split; [done|]. split; [by eapply unit_effect_ironId|].
    intros Hav'%Hfree.
    pose proof (unit_effect_release _ _ _ He Hav Hav') as Hc.
    destruct e' as [body clk | rbody |]; simpl in Hc; try discriminate.
    + destruct (negb _ || negb _); discriminate.
    + exists rbody. split; [done|].
      destruct (negb _); [discriminate|]. by injection Hc.
Qed.

Lemma C9_only_a_return_request_releases_witness :
  let db := saveData [free 1; held_by_alice; free 3] in
  let late := {| new_Date := 1800000000000; Date_now := 1800000000000 |} in
  ironBorrowing db !! 1%nat = Some held_by_alice
  ∧ status held_by_alice = CheckedOut
  ∧ (∃ u', ironBorrowing (Routes.handle Routes.Interval_saveAll db).1 !! 1%nat
           = Some u'
           ∧ status u' = CheckedOut)
  ∧ (∃ u', (Server.handle (Server.POST_borrow bob late) (ironBorrowing db)).1
             !! 1%nat = Some u'
           ∧ status u' = CheckedOut).
Proof.
  intros db late.
  assert (Hk : ironBorrowing db !! 1%nat = Some held_by_alice) by reflexivity.
  assert (Hst : status held_by_alice = CheckedOut) by reflexivity.
  split; [exact Hk|]. split; [exact Hst|].
  destruct (C9_only_a_return_request_releases Routes.Interval_saveAll
              (Server.POST_borrow bob late) db 1%nat held_by_alice Hk Hst)
    as [(u1 & Hu1 & _ & Hrel1) (u2 & Hu2 & _ & Hrel2)].
  split.
  - exists u1. split; [exact Hu1|].
    destruct (status u1) eqn:E; [|reflexivity].
    destruct (Hrel1 eq_refl) as (rbody & Habs & _). discriminate Habs.
  - exists u2. split; [exact Hu2|].
    destruct (status u2) eqn:E; [|reflexivity].
    destruct (Hrel2 eq_refl) as (rbody & Habs & _). discriminate Habs.
Defined.

(** ** The answer of the borrow route of routes/index.js *)

Lemma routes_post_borrow_is_failure body clk db :
  ∃ st error, (Routes.post_borrow body clk db).2 = Failure st error.
Proof.
  unfold Routes.post_borrow.
  destruct (negb _ || negb _); [by eexists _, _|].
  unfold borrowIron.
  destruct (find_iron _ _) as [[k iron]|]; [|by eexists _, _].
  destruct (available iron) eqn:Hav; simpl.
  - by eexists _, _.
  - rewrite Hav. by eexists _, _.
Qed.

(** A request that names an existing iron and no borrower is answered with
    the error of the missing fields, not with "Iron is already borrowed". *)
Lemma C10_missing_borrower_counterexample :
  let nameless := {| body_ironId := Some 2; body_borrowerName := None;
                     body_room := Some "Room 101"; body_duration := None |} in
  find_iron (parseInt (body_ironId nameless)) (ironBorrowing (saveData pool3))
  = Some (1%nat, free 2)
  ∧ Routes.post_borrow nameless at_noon (saveData pool3)
    = (saveData pool3, Failure 400 "Iron ID and borrower name are required")
  ∧ (Routes.post_borrow nameless at_noon (saveData pool3)).2
    ≠ Failure 400 "Iron is already borrowed".
Proof. intros nameless. repeat split; by vm_compute. Qed.

(** C10, as the code has it: the borrow route of routes/index.js never sends
    its success response.  A request that carries the required fields and
    whose id is that of an iron in the array is answered with
    400 "Iron is already borrowed": when the iron was checked out nothing
    changes, and when it was Available the call has made it a borrowed
    iron, at the same place, before the route looks at its [available]
    flag. *)
Theorem C10_routes_borrow_never_answers_success body clk db :
  (∃ st error, (Routes.post_borrow body clk db).2 = Failure st error)
  ∧ (∀ k iron,
       required_fields body →
       find_iron (parseInt (body_ironId body)) (ironBorrowing db)
       = Some (k, iron) →
       (Routes.post_borrow body clk db).2
       = Failure 400 "Iron is already borrowed"
       ∧ (status iron = CheckedOut → (Routes.post_borrow body clk db).1 = db)
       ∧ (status iron = Available →
          ∃ iron',
            ironBorrowing (Routes.post_borrow body clk db).1 !! k = Some iron'
            ∧ iron' = borrow_assign iron (body_borrowerName body)
                        (Some (or_str (body_room body) ""))
                        (Some (or_num (parseInt (body_duration body)) 4)) clk
            ∧ status iron' = CheckedOut)).
Proof.
  split; [apply routes_post_borrow_is_failure|].
  intros k iron Hreq Hf. unfold status.
  destruct (available iron) eqn:Hav.
  - rewrite (routes_post_borrow_free _ _ _ _ _ Hreq Hf Hav). simpl.
    split; [done|]. split; [done|]. intros _.
    eexists. split; [|done].
    apply list_lookup_insert_eq. apply find_iron_Some in Hf as [Hk _].
    by eapply lookup_lt_Some.
  - rewrite (routes_post_borrow_taken _ _ _ _ _ Hreq Hf Hav). simpl.
    split; [done|]. split; done.
Qed.

Lemma C10_routes_borrow_never_answers_success_witness :
  required_fields alice
  ∧ find_iron (parseInt (body_ironId alice)) (ironBorrowing (saveData pool3))
    = Some (1%nat, free 2)
  ∧ (Routes.post_borrow alice at_noon (saveData pool3)).2
    = Failure 400 "Iron is already borrowed"
  ∧ ironBorrowing (Routes.post_borrow alice at_noon (saveData pool3)).1
      !! 1%nat
    = Some held_by_alice.
Proof.
  assert (Hreq : required_fields alice) by (split; reflexivity).
  assert (Hf : find_iron (parseInt (body_ironId alice))
                 (ironBorrowing (saveData pool3))
               = Some (1%nat, free 2)) by (vm_compute; reflexivity).
  split; [exact Hreq|]. split; [exact Hf|].
  destruct (proj2 (C10_routes_borrow_never_answers_success alice at_noon
                     (saveData pool3)) 1%nat (free 2) Hreq Hf)
    as (Hres & _ & Hfree).
  split; [exact Hres|].
  destruct (Hfree eq_refl) as (iron' & Hk & -> & _). exact Hk.
Defined.

(** ** The rate limiter *)

Section RateLimit.
Variables windowMs maxRequests : Z.
Implicit Types (reqs : list (Connection * Z)) (k : option string).

Lemma rateLimit_run_snoc reqs r :
  rateLimit_run windowMs maxRequests (reqs ++ [r])
  = rateLimit_step windowMs maxRequests
      (rateLimit_run windowMs maxRequests reqs) r.
Proof. unfold rateLimit_run. by rewrite foldl_app. Qed.

Lemma let_through_snoc k log e :
  let_through k (log ++ [e])
  = let_through k log ++ option_list (let_through_at k e).
Proof.
  unfold let_through. rewrite omap_app. simpl.
  by destruct (let_through_at k e).
Qed.

Lemma filter_filter_lt (x y : Z) (l : list Z) :
  y ≤ x → filter (λ τ, x < τ) (filter (λ τ, y < τ) l) = filter (λ τ, x < τ) l.
Proof.
  intros Hxy. induction l as [|a l IH]; [done|].
  rewrite !filter_cons. destruct (decide (y < a)); simpl.
  - rewrite filter_cons. destruct (decide (x < a)); by rewrite IH.
  - rewrite IH. destruct (decide (x < a)); [lia|done].
Qed.

Lemma length_filter_mono {A} (P Q : A → Prop)
    `{!∀ x, Decision (P x)} `{!∀ x, Decision (Q x)} (l : list A) :
  (∀ x, P x → Q x) → (length (filter P l) ≤ length (filter Q l))%nat.
Proof.
  intros HPQ. induction l as [|a l IH]; [done|].
  rewrite !filter_cons. destruct (decide (P a)), (decide (Q a)); simpl;
    try lia. destruct n. auto.
Qed.

(** What the map holds for a client agrees, beyond the start of any window
    that ends at or after the latest request, with the times the log shows
    let through. *)
Lemma rateLimit_run_stored reqs T k x :
  StronglySorted Z.le (snd <$> reqs) →
  Forall (λ r, r.2 ≤ T) reqs →
  T - windowMs ≤ x →
  filter (λ τ, x < τ)
    (default [] ((rateLimit_run windowMs maxRequests reqs).1 !! k))
  = filter (λ τ, x < τ)
      (let_through k (rateLimit_run windowMs maxRequests reqs).2).
Proof.
  revert T x. induction reqs as [|[c t] reqs IH] using rev_ind;
    intros T x Hsorted HT Hx; [done|].
  rewrite fmap_app in Hsorted. simpl in Hsorted.
  pose proof (StronglySorted_app_1_l _ _ _ Hsorted) as Hs1.
  assert (Hle : Forall (λ r, r.2 ≤ t) reqs).
  { apply Forall_forall. intros r Hr.
    apply (StronglySorted_app_1_elem_of Z.le (snd <$> reqs) [t] (r.2) t)
      in Hsorted; [done| |by apply list_elem_of_singleton].
    apply list_elem_of_fmap. by exists r. }
  apply Forall_app in HT as [_ Ht]. apply Forall_inv in Ht. simpl in Ht.
  rewrite rateLimit_run_snoc. unfold rateLimit_step, rateLimit. simpl.
  destruct (rateLimit_run windowMs maxRequests reqs) as [st log] eqn:Hrun.
  simpl in *.
  destruct (maxRequests <=? _) eqn:Htest; simpl.
  - rewrite let_through_snoc. unfold let_through_at. simpl.
    rewrite app_nil_r. apply (IH t); [done..|lia].
  - rewrite let_through_snoc. unfold let_through_at. simpl.
    destruct (decide (clientId c = k)) as [->|Hne].
    + rewrite lookup_insert_eq. simpl. rewrite !filter_app.
      rewrite filter_filter_lt by lia. f_equal.
      apply (IH t); [done..|lia].
    + rewrite lookup_insert_ne by done. rewrite app_nil_r.
      apply (IH t); [done..|lia].
Qed.

(** X1: with a clock that does not run backwards, the limiter lets a request
    through exactly when fewer than [maxRequests] of the requests it has let
    through before for the same client lie less than [windowMs] back.
    Requests it has refused do not count. *)
Theorem X1_rateLimit_verdict reqs (c : Connection) (now : Z) :
  StronglySorted Z.le (snd <$> reqs) →
  Forall (λ r, r.2 ≤ now) reqs →
  (rateLimit windowMs maxRequests c now
     (rateLimit_run windowMs maxRequests reqs).1).2 = Next
  ↔ Z.of_nat (length (filter (λ τ, now - windowMs < τ)
                        (let_through (clientId c)
                           (rateLimit_run windowMs maxRequests reqs).2)))
    < maxRequests.
Proof.
  intros Hsorted Hnow. unfold rateLimit.
  rewrite (rateLimit_run_stored reqs now (clientId c) (now - windowMs))
    by (done || lia).
  destruct (maxRequests <=? _) eqn:Htest; simpl.
  - apply Z.leb_le in Htest. split; [done|lia].
  - apply Z.leb_gt in Htest. done.
Qed.

(** X2: with a clock that does not run backwards, no client gets more than
    [maxRequests] requests through in any stretch of [windowMs]
    milliseconds. *)
Theorem X2_rateLimit_window reqs k (t : Z) :
  StronglySorted Z.le (snd <$> reqs) →
  Z.of_nat (length (filter (λ τ, t - windowMs < τ ∧ τ ≤ t)
                      (let_through k
                         (rateLimit_run windowMs maxRequests reqs).2)))
  ≤ Z.max 0 maxRequests.
Proof.
  revert t. induction reqs as [|[c now] reqs IH] using rev_ind;
    intros t Hsorted; [simpl; lia|].
  rewrite fmap_app in Hsorted. simpl in Hsorted.
  pose proof (StronglySorted_app_1_l _ _ _ Hsorted) as Hs1.
  assert (Hle : Forall (λ r, r.2 ≤ now) reqs).
  { apply Forall_forall. intros r Hr.
    apply (StronglySorted_app_1_elem_of Z.le (snd <$> reqs) [now] (r.2) now)
      in Hsorted; [done| |by apply list_elem_of_singleton].
    apply list_elem_of_fmap. by exists r. }
  pose proof (rateLimit_run_stored reqs now (clientId c) (now - windowMs)
                Hs1 Hle ltac:(lia)) as Hstored.
  rewrite rateLimit_run_snoc. unfold rateLimit_step, rateLimit. simpl.
  destruct (rateLimit_run windowMs maxRequests reqs) as [st log] eqn:Hrun.
  simpl in *.
  destruct (maxRequests <=? _) eqn:Htest; simpl;
    rewrite let_through_snoc; unfold let_through_at; simpl.
  { rewrite app_nil_r. by apply IH. }
  destruct (decide (clientId c = k)) as [<-|Hne];
    [|rewrite app_nil_r; by apply IH].
  simpl. apply Z.leb_gt in Htest. rewrite Hstored in Htest.
  destruct (decide (now ≤ t)) as [Hnow|Hnow].
  - etrans; [apply inj_le, (length_filter_mono _ (λ τ, now - windowMs < τ))|].
    { intros τ [? ?]. lia. }
    rewrite filter_app, length_app, Nat2Z.inj_add.
    pose proof (length_filter (λ τ, now - windowMs < τ) [now]) as Hone.
    simpl in Hone. lia.
  - rewrite filter_app, filter_cons, decide_False by lia.
    rewrite filter_nil, app_nil_r. by apply IH.
Qed.

(** X3: each client is limited on its own.  What the log shows for a client
    is what the limiter would have answered had it seen the requests of
    that client alone. *)
Theorem X3_rateLimit_clients_independent reqs k :
  filter (λ e, e.1.1 = k) (rateLimit_run windowMs maxRequests reqs).2
  = (rateLimit_run windowMs maxRequests
       (filter (λ r, clientId r.1 = k) reqs)).2.
Proof.
  cut ((rateLimit_run windowMs maxRequests reqs).1 !! k
       = (rateLimit_run windowMs maxRequests
            (filter (λ r, clientId r.1 = k) reqs)).1 !! k
       ∧ filter (λ e, e.1.1 = k) (rateLimit_run windowMs maxRequests reqs).2
         = (rateLimit_run windowMs maxRequests
              (filter (λ r, clientId r.1 = k) reqs)).2); [by intros [_ ?]|].
  induction reqs as [|[c now] reqs [IHst IHlog]] using rev_ind; [done|].
  rewrite filter_app, filter_cons, filter_nil. cbn [fst].
  destruct (decide (clientId c = k)) as [Hk|Hk].
  - rewrite !rateLimit_run_snoc. unfold rateLimit_step, rateLimit.
    destruct (rateLimit_run windowMs maxRequests reqs) as [st log].
    destruct (rateLimit_run windowMs maxRequests
                (filter (λ r, clientId r.1 = k) reqs)) as [st' log'].
    cbn [fst snd] in *. rewrite Hk, IHst.
    destruct (maxRequests <=? _); cbn [fst snd].
    + split; [done|]. rewrite filter_app, filter_cons, decide_True by done.
      by rewrite IHlog.
    + rewrite !lookup_insert_eq. split; [done|].
      rewrite filter_app, filter_cons, decide_True by done.
      by rewrite IHlog.
  - rewrite app_nil_r, rateLimit_run_snoc.
    unfold rateLimit_step, rateLimit.
    destruct (rateLimit_run windowMs maxRequests reqs) as [st log].
    cbn [fst snd] in *.
    destruct (maxRequests <=? _); cbn [fst snd].
    + split; [done|]. rewrite filter_app, filter_cons, decide_False by done.
      by rewrite filter_nil, app_nil_r.
    + rewrite lookup_insert_ne by done. split; [done|].
      rewrite filter_app, filter_cons, decide_False by done.
      by rewrite filter_nil, app_nil_r.
Qed.
End RateLimit.

Lemma X1_rateLimit_verdict_witness :
  let reqs := [(office, 0); (office, 1000)] in
  StronglySorted Z.le (snd <$> reqs)
  ∧ Forall (λ r, r.2 ≤ 900001) reqs
  ∧ (rateLimit 900000 2 office 900001 (rateLimit_run 900000 2 reqs).1).2 = Next
  ∧ (rateLimit 900000 2 office 2000 (rateLimit_run 900000 2 reqs).1).2
    = TooManyRequests 900.
Proof.
  intros reqs.
  assert (Hsorted : StronglySorted Z.le (snd <$> reqs)).
  { repeat constructor; simpl; lia. }
  assert (Hle : Forall (λ r, r.2 ≤ 900001) reqs).
  { repeat constructor; simpl; lia. }
  split; [exact Hsorted|]. split; [exact Hle|]. split.
  - apply (proj2 (X1_rateLimit_verdict 900000 2 reqs office 900001
                    Hsorted Hle)).
    vm_compute. reflexivity.
  - vm_compute. reflexivity.
Defined.

Lemma X2_rateLimit_window_witness :
  let reqs := [(office, 0); (office, 1000); (office, 2000); (office, 900001)] in
  StronglySorted Z.le (snd <$> reqs)
  ∧ let_through (Some "10.0.0.7") (rateLimit_run 900000 2 reqs).2
    = [0; 1000; 900001]
  ∧ Z.of_nat (length (filter (λ τ, 900001 - 900000 < τ ∧ τ ≤ 900001)
                        (let_through (Some "10.0.0.7")
                           (rateLimit_run 900000 2 reqs).2)))
    ≤ Z.max 0 2.
Proof.
  intros reqs.
  assert (Hsorted : StronglySorted Z.le (snd <$> reqs)).
  { repeat constructor; simpl; lia. }
  split; [exact Hsorted|]. split; [vm_compute; reflexivity|].
  exact (X2_rateLimit_window 900000 2 reqs (Some "10.0.0.7") 900001 Hsorted).
Defined.

(** ** Sanitizing *)

Lemma JsVal_nested_ind (P : JsVal → Prop) :
  P JNull → (∀ b, P (JBool b)) → (∀ n, P (JNum n)) → (∀ s, P (JStr s)) →
  (∀ items, Forall P items → P (JArr items)) →
  (∀ props, Forall (λ p, P p.2) props → P (JObj props)) →
  ∀ v, P v.
Proof.
  intros HN HB HZ HS HA HO. fix IH 1.
  intros [| b | n | s | items | props].
  - exact HN.
  - exact (HB b).
  - exact (HZ n).
  - exact (HS s).
  - apply HA. revert items. fix IHl 1. intros [|x items]; constructor.
    + apply IH.
    + apply IHl.
  - apply HO. revert props. fix IHl 1. intros [|[k x] props]; constructor.
    + apply IH.
    + apply IHl.
Qed.

Section Trim.
Implicit Types (s : list N) (u : N).

Lemma trimStart_head s u :
  head (trimStart s) = Some u → is_white_space u = false.
Proof.
  induction s as [|a s IH]; [done|]. simpl.
  destruct (is_white_space a) eqn:Ha; [done|]. simpl. by intros [= <-].
Qed.

Lemma trimStart_Forall (P : N → Prop) s : Forall P s → Forall P (trimStart s).
Proof.
  induction 1 as [|a s Ha Hs IH]; [done|]. simpl.
  destruct (is_white_space a); [done|by constructor].
Qed.

Lemma trimStart_id s :
  (∀ u, head s = Some u → is_white_space u = false) → trimStart s = s.
Proof. destruct s as [|a s]; [done|]. simpl. intros H. by rewrite (H a). Qed.

Lemma trimEnd_nil s : trimEnd s = [] ↔ Forall (λ u, is_white_space u = true) s.
Proof.
  induction s as [|a s IH]; [done|]. simpl.
  destruct (trimEnd s) as [|b r] eqn:Hr.
  - destruct (is_white_space a) eqn:Ha.
    + split; [|done]. intros _. constructor; [done|]. by apply IH.
    + split; [done|]. intros [Ha' _]%Forall_cons. congruence.
  - split; [done|]. intros [_ Hs]%Forall_cons. by apply IH in Hs.
Qed.

Lemma trimEnd_last s u :
  last (trimEnd s) = Some u → is_white_space u = false.
Proof.
  induction s as [|a s IH]; [done|]. simpl.
  destruct (trimEnd s) as [|b r] eqn:Hr.
  - destruct (is_white_space a) eqn:Ha; [done|]. simpl. by intros [= <-].
  - rewrite last_cons. destruct (last (b :: r)) as [c|] eqn:Hl;
      [|by apply last_None in Hl].
    intros [= <-]. by apply IH.
Qed.

Lemma trimEnd_head s u : head (trimEnd s) = Some u → head s = Some u.
Proof.
  destruct s as [|a s]; [done|]. simpl.
  destruct (trimEnd s) as [|b r]; [|done].
  by destruct (is_white_space a).
Qed.

Lemma trimEnd_Forall (P : N → Prop) s : Forall P s → Forall P (trimEnd s).
Proof.
  induction 1 as [|a s Ha Hs IH]; [done|]. simpl.
  destruct (trimEnd s) as [|b r].
  - destruct (is_white_space a); [done|by constructor].
  - by constructor.
Qed.

Lemma trimEnd_id s :
  (∀ u, last s = Some u → is_white_space u = false) → trimEnd s = s.
Proof.
  induction s as [|a s IH]; [done|]. intros Hlast. simpl.
  destruct s as [|b s].
  - simpl. by rewrite (Hlast a).
  - rewrite IH; [done|]. intros u Hu. apply Hlast.
    rewrite last_cons. by rewrite Hu.
Qed.

Lemma filter_id {A} (P : A → Prop) `{!∀ x, Decision (P x)} (l : list A) :
  Forall P l → filter P l = l.
Proof.
  induction 1 as [|a l Ha Hl IH]; [done|].
  by rewrite filter_cons, decide_True, IH.
Qed.

Lemma sanitizeString_clean s : clean (sanitizeString s).
Proof.
  unfold clean, sanitizeString, trim. split; [|split].
  - apply trimEnd_Forall, trimStart_Forall.
    apply Forall_forall. by intros u [? _]%list_elem_of_filter.
  - intros u Hu%trimEnd_head. by eapply trimStart_head.
  - apply trimEnd_last.
Qed.

Lemma sanitizeString_fixed s : sanitizeString s = s ↔ clean s.
Proof.
  split.
  - intros <-. apply sanitizeString_clean.
  - intros (Hangle & Hhead & Hlast). unfold sanitizeString, trim.
    by rewrite filter_id, trimStart_id, trimEnd_id.
Qed.
End Trim.

Lemma sanitizeValue_clean v : Forall clean (strings_of (sanitizeValue v)).
Proof.
  induction v as [| b | n | s | items IH | props IH] using JsVal_nested_ind;
    simpl; try done.
  - constructor; [apply sanitizeString_clean|done].
  - induction IH as [|x items Hx _ IHitems]; [done|]. simpl.
    by apply Forall_app.
  - induction IH as [|[k x] props Hx _ IHprops]; [done|]. simpl.
    by apply Forall_app.
Qed.

Lemma sanitizeValue_fixed v :
  sanitizeValue v = v ↔ Forall clean (strings_of v).
Proof.
  induction v as [| b | n | s | items IH | props IH] using JsVal_nested_ind;
    simpl; try done.
  - rewrite Forall_singleton, <- sanitizeString_fixed.
    split; [by intros [= ->]|by intros ->].
  - transitivity (map sanitizeValue items = items);
      [split; [by intros [= ->]|by intros ->]|].
    induction IH as [|x items Hx _ IHitems]; [done|]. simpl.
    rewrite Forall_app, <- Hx, <- IHitems.
    split; [by intros [= -> ->]|by intros [-> ->]].
  - transitivity (map (λ p, (p.1, sanitizeValue p.2)) props = props);
      [split; [by intros [= ->]|by intros ->]|].
    induction IH as [|[k x] props Hx _ IHprops]; [done|]. simpl in *.
    rewrite Forall_app, <- Hx, <- IHprops.
    split; [by intros [= -> ->]|by intros [-> ->]].
Qed.

Lemma sanitizePart_clean x : Forall clean (reachable_strings (sanitizePart x)).
Proof.
  destruct x as [[| b | n | s | items | props]|]; simpl; try done.
  - apply (sanitizeValue_clean (JArr items)).
  - apply (sanitizeValue_clean (JObj props)).
Qed.

Lemma sanitizePart_fixed x :
  sanitizePart x = x ↔ Forall clean (reachable_strings x).
Proof.
  destruct x as [[| b | n | s | items | props]|]; simpl; try done.
  - rewrite <- (sanitizeValue_fixed (JArr items)). simpl.
    split; [by intros [= ->]|by intros ->].
  - rewrite <- (sanitizeValue_fixed (JObj props)). simpl.
    split; [by intros [= ->]|by intros ->].
Qed.

(** X4: after [sanitizeInput], no string that sits in the body or in the
    query, at whatever depth of objects and arrays, contains ['<'] or ['>'],
    and none begins or ends with white space.  (The brackets are removed
    before the string is trimmed.) *)
Theorem X4_sanitizeInput_leaves_clean_strings req :
  Forall clean (reachable_strings (req_body (sanitizeInput req)))
  ∧ Forall clean (reachable_strings (req_query (sanitizeInput req))).
Proof. split; apply sanitizePart_clean. Qed.

(** X5: [sanitizeInput] leaves a request as it is exactly when every string
    in its body and query is already free of angle brackets and of white
    space at its ends; so passing a request through it twice gives what
    passing it once gives. *)
Theorem X5_sanitizeInput_fixed_points req :
  (sanitizeInput req = req
   ↔ Forall clean (reachable_strings (req_body req))
     ∧ Forall clean (reachable_strings (req_query req)))
  ∧ sanitizeInput (sanitizeInput req) = sanitizeInput req.
Proof.
  assert (Hiff : ∀ r, sanitizeInput r = r
                 ↔ Forall clean (reachable_strings (req_body r))
                   ∧ Forall clean (reachable_strings (req_query r))).
  { intros [b q]. unfold sanitizeInput. simpl.
    rewrite <- (sanitizePart_fixed b), <- (sanitizePart_fixed q).
    split; [by intros [= -> ->]|by intros [-> ->]]. }
  split; [apply Hiff|]. apply Hiff. split; apply sanitizePart_clean.
Qed.

(** ** Numbers in strings *)

Section Decimal.
Implicit Types (x : N) (s : string) (l : list N).

Lemma units_app s1 s2 : units (s1 +:+ s2) = units s1 ++ units s2.
Proof.
  unfold units. induction s1 as [|a s1 IH]; [done|]. csimpl. by f_equal.
Qed.

(** A decimal digit, as a code unit. *)
Lemma pretty_N_char_unit x :
  (x < 10)%N →
  Ascii.N_of_ascii (pretty_N_char x) = (48 + x)%N.
Proof.
  intros Hx.
  assert (x = 0 ∨ x = 1 ∨ x = 2 ∨ x = 3 ∨ x = 4 ∨ x = 5 ∨ x = 6 ∨ x = 7
          ∨ x = 8 ∨ x = 9)%N as Hcases by lia.
  repeat (destruct Hcases as [-> | Hcases]; [done|]). by subst.
Qed.

Lemma pretty_N_go_app x s :
  units (pretty_N_go x s) = units (pretty_N_go x "") ++ units s.
Proof.
  revert s. induction (N.lt_wf_0 x) as [x _ IH]; intros s.
  destruct (decide (x = 0)%N) as [->|Hx]; [by rewrite !pretty_N_go_0|].
  assert (Hlt : (x `div` 10 < x)%N) by (apply N.div_lt; lia).
  rewrite (pretty_N_go_step x s), (pretty_N_go_step x "") by lia.
  rewrite (IH _ Hlt (String (pretty_N_char (x `mod` 10)) s)).
  rewrite (IH _ Hlt (String (pretty_N_char (x `mod` 10)) "")).
  rewrite <- app_assoc. reflexivity.
Qed.

Lemma digit_value_decimal x :
  (x < 10)%N → digit_value 10 (48 + x) = Some x.
Proof.
  intros Hx. unfold digit_value.
  replace ((48 <=? 48 + x) && (48 + x <=? 57))%N
    with true by (symmetry; apply andb_true_iff; split; apply N.leb_le; lia).
  replace (48 + x - 48)%N with x by lia.
  by replace (x <? 10)%N with true by (symmetry; apply N.ltb_lt; lia).
Qed.

Lemma pretty_N_go_all_digits x :
  Forall (λ u, digit_value 10 u = Some (u - 48)%N)
    (units (pretty_N_go x "")).
Proof.
  induction (N.lt_wf_0 x) as [x _ IH].
  destruct (decide (x = 0)%N) as [->|Hx]; [by rewrite pretty_N_go_0|].
  rewrite pretty_N_go_step, pretty_N_go_app by lia.
  apply Forall_app. split; [apply IH, N.div_lt; lia|].
  assert (Hmod : (x `mod` 10 < 10)%N) by (apply N.mod_lt; lia).
  unfold units. simpl. rewrite pretty_N_char_unit by done.
  constructor; [|done]. rewrite digit_value_decimal by done.
  f_equal. rewrite N.add_comm. symmetry. apply N.add_sub.
Qed.

Lemma pretty_N_go_value x :
  number_of 10 ((λ u, u - 48)%N <$> units (pretty_N_go x "")) = x.
Proof.
  induction (N.lt_wf_0 x) as [x _ IH].
  destruct (decide (x = 0)%N) as [->|Hx]; [by rewrite pretty_N_go_0|].
  rewrite pretty_N_go_step, pretty_N_go_app by lia.
  assert (Hmod : (x `mod` 10 < 10)%N) by (apply N.mod_lt; lia).
  rewrite fmap_app. unfold number_of in *. rewrite foldl_app.
  rewrite IH by (apply N.div_lt; lia).
  unfold units. simpl. rewrite pretty_N_char_unit by done.
  rewrite (N.add_comm 48), N.add_sub.
  rewrite (N.div_mod x 10) at 3 by lia. lia.
Qed.

Lemma digits_prefix_app (f : N → N) radix l rest :
  Forall (λ u, digit_value radix u = Some (f u)) l →
  digits_prefix radix (l ++ rest) = (f <$> l) ++ digits_prefix radix rest.
Proof.
  induction 1 as [|u l Hu Hl IH]; [done|]. simpl. by rewrite Hu, IH.
Qed.

Lemma pretty_N_units x :
  units (pretty x)
  = if decide (x = 0)%N then [48%N] else units (pretty_N_go x "").
Proof. unfold pretty, pretty_N. by destruct (decide (x = 0)%N). Qed.

(** The decimal string of a natural number begins with a digit and holds
    digits only. *)
Lemma pretty_N_all_digits x :
  Forall (λ u, digit_value 10 u = Some (u - 48)%N) (units (pretty x))
  ∧ units (pretty x) ≠ [].
Proof.
  rewrite pretty_N_units. destruct (decide (x = 0)%N) as [->|Hx].
  - split; [|done]. by constructor.
  - split; [apply pretty_N_go_all_digits|].
    rewrite pretty_N_go_step by lia. rewrite pretty_N_go_app.
    unfold units at 2. simpl. by destruct (units _).
Qed.

Lemma pretty_N_value x :
  number_of 10 ((λ u, u - 48)%N <$> units (pretty x)) = x.
Proof.
  rewrite pretty_N_units. destruct (decide (x = 0)%N) as [->|Hx]; [done|].
  apply pretty_N_go_value.
Qed.
End Decimal.

Section ParseInt.
Implicit Types (u : N) (l : list N) (z : Z).

Lemma digit_decimal_range u v :
  digit_value 10 u = Some v →
  (u = 48 ∨ u = 49 ∨ u = 50 ∨ u = 51 ∨ u = 52 ∨ u = 53 ∨ u = 54 ∨ u = 55
   ∨ u = 56 ∨ u = 57)%N.
Proof.
  unfold digit_value.
  destruct ((48 <=? u) && (u <=? 57))%N eqn:H1.
  - intros _. apply andb_true_iff in H1 as [?%N.leb_le ?%N.leb_le]. lia.
  - destruct ((97 <=? u) && (u <=? 122))%N eqn:H2.
    + apply andb_true_iff in H2 as [?%N.leb_le ?%N.leb_le].
      destruct (u - 87 <? 10)%N eqn:H3; [|done].
      apply N.ltb_lt in H3. lia.
    + destruct ((65 <=? u) && (u <=? 90))%N eqn:H3; [|done].
      apply andb_true_iff in H3 as [?%N.leb_le ?%N.leb_le].
      destruct (u - 55 <? 10)%N eqn:H4; [|done].
      apply N.ltb_lt in H4. lia.
Qed.

(** A string of decimal digits parses to the number it writes. *)
Lemma parseInt_str_digits l :
  Forall (λ u, digit_value 10 u = Some (u - 48)%N) l → l ≠ [] →
  parseInt_str l = Some (Z.of_N (number_of 10 ((λ u, u - 48)%N <$> l)))
  ∧ parseInt_str (45%N :: l)
    = Some (- Z.of_N (number_of 10 ((λ u, u - 48)%N <$> l))).
Proof.
  intros Hl Hne.
  pose proof (digits_prefix_app (λ u, u - 48)%N 10 l [] Hl) as Hpre.
  rewrite app_nil_r in Hpre. simpl in Hpre. rewrite app_nil_r in Hpre.
  destruct l as [|u1 l]; [done|]. clear Hne.
  apply Forall_cons in Hl as [Hu1 Hl].
  assert (Hnox :
            match u1 :: l with
            | 48%N :: 120%N :: s' => (16%N, s')
            | 48%N :: 88%N :: s' => (16%N, s')
            | _ => (10%N, u1 :: l)
            end = (10%N, u1 :: l)).
  { destruct l as [|u2 l].
    - apply digit_decimal_range in Hu1.
      repeat (destruct Hu1 as [-> | Hu1]; [done|]). by subst.
    - apply Forall_cons in Hl as [Hu2 _].
      apply digit_decimal_range in Hu1. apply digit_decimal_range in Hu2.
      repeat (destruct Hu1 as [-> | Hu1];
              [repeat (destruct Hu2 as [-> | Hu2]; [done|]); by subst|]).
      subst. repeat (destruct Hu2 as [-> | Hu2]; [done|]). by subst. }
  split.
  - unfold parseInt_str.
    assert (Hstart : trimStart (u1 :: l) = u1 :: l
                     ∧ match u1 :: l with
                       | 45%N :: s' => (-1, s')
                       | 43%N :: s' => (1, s')
                       | _ => (1, u1 :: l)
                       end = (1, u1 :: l)).
    { apply digit_decimal_range in Hu1.
      repeat (destruct Hu1 as [-> | Hu1]; [done|]). by subst. }
    destruct Hstart as [-> ->]. rewrite Hnox, Hpre. csimpl.
    f_equal; lia.
  - unfold parseInt_str. simpl trimStart. cbv iota beta.
    rewrite Hnox, Hpre. csimpl. f_equal; lia.
Qed.

(** Writing an integer and parsing what was written gives it back. *)
Lemma parseInt_str_toString z : parseInt_str (toString z) = Some z.
Proof.
  unfold toString. destruct z as [|p|p].
  - done.
  - change (pretty (Z.pos p)) with (pretty (N.pos p)).
    destruct (pretty_N_all_digits (N.pos p)) as [Hd Hne].
    rewrite (proj1 (parseInt_str_digits _ Hd Hne)), pretty_N_value. done.
  - change (pretty (Z.neg p)) with ("-" +:+ pretty (N.pos p)).
    rewrite units_app. change (units "-") with [45%N]. simpl app.
    destruct (pretty_N_all_digits (N.pos p)) as [Hd Hne].
    rewrite (proj2 (parseInt_str_digits _ Hd Hne)), pretty_N_value. done.
Qed.

(** The string of an integer is not empty and holds no colon. *)
Lemma toString_no_colon z :
  toString z ≠ [] ∧ Forall (λ u, u ≠ 58%N) (toString z).
Proof.
  assert (Hdig : ∀ x : N, Forall (λ u, u ≠ 58%N) (units (pretty x))).
  { intros x. destruct (pretty_N_all_digits x) as [Hd _].
    eapply Forall_impl; [exact Hd|]. intros u Hu%digit_decimal_range. lia. }
  unfold toString. destruct z as [|p|p].
  - split; [done|]. by constructor.
  - change (pretty (Z.pos p)) with (pretty (N.pos p)).
    split; [apply pretty_N_all_digits|apply Hdig].
  - change (pretty (Z.neg p)) with ("-" +:+ pretty (N.pos p)).
    rewrite units_app. split; [done|].
    apply Forall_app. split; [by constructor|apply Hdig].
Qed.

Lemma split_on_piece sep l rest :
  Forall (λ u, u ≠ sep) l →
  split_on sep (l ++ sep :: rest) = l :: split_on sep rest.
Proof.
  induction 1 as [|u l Hu Hl IH]; simpl.
  - by rewrite N.eqb_refl.
  - rewrite IH. by apply N.eqb_neq in Hu as ->.
Qed.

Lemma split_on_last sep l :
  Forall (λ u, u ≠ sep) l → split_on sep l = [l].
Proof.
  induction 1 as [|u l Hu Hl IH]; [done|]. simpl.
  rewrite IH. by apply N.eqb_neq in Hu as ->.
Qed.

Lemma find_student_NaN (sts : list Student) : find_student None sts = None.
Proof.
  unfold find_student. apply list_find_None, Forall_forall. by intros.
Qed.
End ParseInt.

(** ** QR codes *)

Section QrCodes.
Implicit Types (sc : School) (mo : Moment) (data sid ts : list N).

Lemma post_qr_code_pieces data sid ts more mo sc :
  split_on 58 data = sid :: ts :: more →
  data ≠ [] → sid ≠ [] → ts ≠ [] →
  Attendance_routes.post_qr_code (Some data) mo sc
  = match find_student (parseInt_str sid) (rows (students sc)),
          parseInt_str sid with
    | Some (_, student), Some id =>
        if Attendance_routes.expired (m_now mo) (parseInt_str ts)
        then (sc, Refused 400 "QR code has expired")
        else Attendance_routes.mark id student true "qr_code" true
               "QR code attendance recorded successfully" mo sc
    | _, _ => (sc, Refused 404 "Student not found")
    end.
Proof.
  intros Hsplit Hdata Hsid Hts. unfold Attendance_routes.post_qr_code.
  destruct data as [|u data]; [done|]. rewrite Hsplit.
  destruct sid as [|u1 sid]; [done|]. destruct ts as [|u2 ts]; done.
Qed.

Lemma server_post_qr_code_pieces data sid ts more today
    (db : list Student * list Attendance) :
  split_on 58 data = sid :: ts :: more →
  data ≠ [] → sid ≠ [] → ts ≠ [] →
  Server_attendance.post_qr_code (Some data) today db
  = match find_student (parseInt_str sid) db.1, parseInt_str sid with
    | Some (k, student), Some id =>
        (Server_attendance.mark id k student true "qr_code" today db,
         Sent 200 "QR code attendance recorded successfully"
           {| Server_attendance.f_id := st_id student;
              Server_attendance.f_name := st_name student;
              Server_attendance.f_rollNumber := st_rollNumber student |})
    | _, _ => (db, Refused 404 "Student not found")
    end.
Proof.
  intros Hsplit Hdata Hsid Hts. unfold Server_attendance.post_qr_code.
  destruct data as [|u data]; [done|]. rewrite Hsplit.
  destruct sid as [|u1 sid]; [done|]. destruct ts as [|u2 ts]; done.
Qed.

Lemma generated_split (user_id now : Z) :
  split_on 58 (units "ATTENDANCE:" ++ toString now
               ++ units ":" ++ toString user_id)
  = [units "ATTENDANCE"; toString now; toString user_id].
Proof.
  change (units "ATTENDANCE:") with (units "ATTENDANCE" ++ [58%N]).
  change (units ":") with [58%N].
  rewrite <- app_assoc. simpl ([58%N] ++ _).
  rewrite split_on_piece by (vm_compute; repeat constructor; done).
  simpl ([58%N] ++ _).
  rewrite split_on_piece by apply toString_no_colon.
  by rewrite split_on_last by apply toString_no_colon.
Qed.

(** X6: the string that the generate-qr route hands out,
    [ATTENDANCE:<time>:<coordinator>], is never accepted by the qr-code
    route, on either server, at any time and whoever the students are: the
    route reads the first piece, [ATTENDANCE], as a student id, which parses
    to NaN, and answers 404 "Student not found" without changing
    anything. *)
Theorem X6_generated_qr_code_is_refused (user_id now : Z) mo sc today
    (db : list Student * list Attendance) :
  (∃ qr, Attendance_routes.get_generate_qr user_id now
         = Sent 200 "QR code generated successfully" qr
         ∧ Attendance_routes.post_qr_code (Some (Attendance_routes.qr_qrData qr)) mo sc
           = (sc, Refused 404 "Student not found"))
  ∧ Server_attendance.post_qr_code
      (Some (Server_attendance.get_generate_qr user_id now).1) today db
    = (db, Refused 404 "Student not found").
Proof.
  assert (Hne : units "ATTENDANCE:" ++ toString now
                ++ units ":" ++ toString user_id ≠ []) by done.
  assert (Hsid : units "ATTENDANCE" ≠ []) by done.
  assert (Hnan : parseInt_str (units "ATTENDANCE") = None)
    by (vm_compute; reflexivity).
  split.
  - eexists. split; [reflexivity|]. simpl Attendance_routes.qr_qrData.
    rewrite (post_qr_code_pieces _ _ _ _ _ _ (generated_split user_id now)
               Hne Hsid (proj1 (toString_no_colon now))).
    by rewrite Hnan, find_student_NaN.
  - simpl fst.
    rewrite (server_post_qr_code_pieces _ _ _ _ _ _
               (generated_split user_id now)
               Hne Hsid (proj1 (toString_no_colon now))).
    by rewrite Hnan, find_student_NaN.
Qed.

Lemma updateStudentAttendance_found (id : Z) (p : bool) (sts : Table Student)
    k student :
  find_student (Some id) (rows sts) = Some (k, student) →
  updateStudentAttendance (Some id) p sts
  = (saved (<[k := set_present student p]> (rows sts)),
     Some (set_present student p)).
Proof. intros Hf. unfold updateStudentAttendance. by rewrite Hf. Qed.

(** X7: a QR string made of the id of a student, a colon and a time in
    milliseconds, whatever follows a further colon, is accepted by the
    qr-code route of routes/index.js as long as the clock is at most five
    minutes past that time, and answered 400 "QR code has expired" after.
    No earlier bound is checked: a time in the future is accepted.  When
    accepted, the student is marked present and the attendance of the day
    is recorded with method [qr_code]. *)
Theorem X7_qr_code_expiry (id t : Z) rest mo sc k student :
  rest = [] ∨ (∃ r, rest = 58%N :: r) →
  find_student (Some id) (rows (students sc)) = Some (k, student) →
  Attendance_routes.post_qr_code
    (Some (toString id ++ 58%N :: toString t ++ rest)) mo sc
  = if decide (m_now mo - t ≤ 5 * 60 * 1000)
    then ({| students :=
               saved (<[k := set_present student true]> (rows (students sc)));
             attendance :=
               recordAttendance
                 {| ad_studentId := id; ad_present := true;
                    ad_method := "qr_code" |}
                 (m_today mo) (m_stamp mo) (attendance sc) |},
          Sent 200 "QR code attendance recorded successfully"
            {| mk_studentId := id; mk_studentName := st_name student;
               mk_rollNumber := Some (st_rollNumber student);
               mk_present := true; mk_method := "qr_code" |})
    else (sc, Refused 400 "QR code has expired").
Proof.
  intros Hrest Hfind.
  destruct (toString_no_colon id) as [Hid_ne Hid].
  destruct (toString_no_colon t) as [Ht_ne Ht].
  assert (Hsplit : ∃ more,
            split_on 58 (toString id ++ 58%N :: toString t ++ rest)
            = toString id :: toString t :: more).
  { rewrite split_on_piece by done. destruct Hrest as [-> | [r ->]].
    - exists []. by rewrite app_nil_r, split_on_last.
    - exists (split_on 58 r). by rewrite split_on_piece. }
  destruct Hsplit as [more Hsplit].
  rewrite (post_qr_code_pieces _ _ _ _ _ _ Hsplit) by (done || by destruct (toString id)).
  rewrite !parseInt_str_toString, Hfind.
  unfold Attendance_routes.expired, Attendance_routes.mark.
  rewrite (updateStudentAttendance_found _ _ _ _ _ Hfind). simpl.
  destruct (decide (m_now mo - t ≤ 5 * 60 * 1000)) as [Hle|Hgt].
  - by replace (5 * 60 * 1000 <? m_now mo - t) with false
      by (symmetry; apply Z.ltb_ge; lia).
  - by replace (5 * 60 * 1000 <? m_now mo - t) with true
      by (symmetry; apply Z.ltb_lt; lia).
Qed.

(** X8: when the piece after the colon does not begin with a number, the
    qr-code route of routes/index.js compares the clock with NaN, which is
    never greater than five minutes: such a QR string does not expire. *)
Theorem X8_qr_code_without_a_time_never_expires (id : Z) ts mo sc k student :
  ts ≠ [] → Forall (λ u, u ≠ 58%N) ts → parseInt_str ts = None →
  find_student (Some id) (rows (students sc)) = Some (k, student) →
  Attendance_routes.post_qr_code (Some (toString id ++ 58%N :: ts)) mo sc
  = ({| students :=
          saved (<[k := set_present student true]> (rows (students sc)));
        attendance :=
          recordAttendance
            {| ad_studentId := id; ad_present := true;
               ad_method := "qr_code" |}
            (m_today mo) (m_stamp mo) (attendance sc) |},
     Sent 200 "QR code attendance recorded successfully"
       {| mk_studentId := id; mk_studentName := st_name student;
          mk_rollNumber := Some (st_rollNumber student);
          mk_present := true; mk_method := "qr_code" |}).
Proof.
  intros Hts_ne Hts Hnan Hfind.
  destruct (toString_no_colon id) as [Hid_ne Hid].
  assert (Hsplit : split_on 58 (toString id ++ 58%N :: ts)
                   = [toString id; ts]).
  { by rewrite split_on_piece, split_on_last. }
  rewrite (post_qr_code_pieces _ _ _ _ _ _ Hsplit) by (done || by destruct (toString id)).
  rewrite parseInt_str_toString, Hfind, Hnan.
  unfold Attendance_routes.expired, Attendance_routes.mark.
  by rewrite (updateStudentAttendance_found _ _ _ _ _ Hfind).
Qed.
End QrCodes.

Lemma X7_qr_code_expiry_witness :
  let fresh := toString 2 ++ 58%N :: toString 1700000000000 ++ [] in
  let stale := toString 2 ++ 58%N :: toString 1699999000000 ++ units ":x" in
  find_student (Some 2) (rows (students school0)) = Some (1%nat, priya)
  ∧ (∃ sc', Attendance_routes.post_qr_code (Some fresh) tuesday school0
            = (sc', Sent 200 "QR code attendance recorded successfully"
                      (mkMarked 2 "Priya Singh" (Some "ST002") true "qr_code")))
  ∧ Attendance_routes.post_qr_code (Some stale) tuesday school0
    = (school0, Refused 400 "QR code has expired").
Proof.
  intros fresh stale.
  assert (Hfind : find_student (Some 2) (rows (students school0))
                  = Some (1%nat, priya)) by (vm_compute; reflexivity).
  split; [exact Hfind|]. split.
  - eexists. unfold fresh.
    rewrite (X7_qr_code_expiry 2 1700000000000 [] tuesday school0 1%nat priya
               (or_introl eq_refl) Hfind).
    reflexivity.
  - unfold stale.
    rewrite (X7_qr_code_expiry 2 1699999000000 (units ":x") tuesday school0
               1%nat priya (or_intror (ex_intro _ (units "x") eq_refl)) Hfind).
    reflexivity.
Defined.

Lemma X8_qr_code_without_a_time_never_expires_witness :
  units "soon" ≠ []
  ∧ Forall (λ u, u ≠ 58%N) (units "soon")
  ∧ parseInt_str (units "soon") = None
  ∧ find_student (Some 2) (rows (students school0)) = Some (1%nat, priya)
  ∧ ∃ sc', Attendance_routes.post_qr_code
             (Some (toString 2 ++ 58%N :: units "soon")) tuesday school0
           = (sc', Sent 200 "QR code attendance recorded successfully"
                     (mkMarked 2 "Priya Singh" (Some "ST002") true "qr_code")).
Proof.
  assert (Hne : units "soon" ≠ []) by discriminate.
  assert (Hcolon : Forall (λ u, u ≠ 58%N) (units "soon")).
  { vm_compute. repeat constructor; discriminate. }
  assert (Hnan : parseInt_str (units "soon") = None)
    by (vm_compute; reflexivity).
  assert (Hfind : find_student (Some 2) (rows (students school0))
                  = Some (1%nat, priya)) by (vm_compute; reflexivity).
  split; [exact Hne|]. split; [exact Hcolon|]. split; [exact Hnan|].
  split; [exact Hfind|]. eexists.
  exact (X8_qr_code_without_a_time_never_expires 2 (units "soon") tuesday
           school0 1%nat priya Hne Hcolon Hnan Hfind).
Defined.

(** ** Attendance records *)

Section Record.
Implicit Types (att : Table Attendance) (data : AttendanceData).
Implicit Types (today : string) (stamp id : Z).

Lemma list_find_insert_same {A} (P : A → Prop) `{!∀ x, Decision (P x)}
    (l : list A) k x y :
  list_find P l = Some (k, x) → P y →
  list_find P (<[k := y]> l) = Some (k, y).
Proof.
  intros (Hk & Hx & Hbefore)%list_find_Some Hy. apply list_find_Some.
  split; [|split; [done|]].
  - apply list_lookup_insert_eq. by eapply lookup_lt_Some.
  - intros j z Hj Hlt. rewrite list_lookup_insert_ne in Hj by lia.
    by eapply Hbefore.
Qed.

Lemma list_find_snoc_new {A} (P : A → Prop) `{!∀ x, Decision (P x)}
    (l : list A) y :
  list_find P l = None → P y →
  list_find P (l ++ [y]) = Some (length l, y).
Proof.
  intros Hnone Hy. rewrite list_find_app_r by done. simpl.
  by rewrite decide_True.
Qed.

Lemma filter_insert_out {A} (Q : A → Prop) `{!∀ x, Decision (Q x)}
    (l : list A) k x y :
  l !! k = Some x → ¬ Q x → ¬ Q y → filter Q (<[k := y]> l) = filter Q l.
Proof.
  revert k. induction l as [|a l IH]; intros [|k] Hk Hx Hy; try done.
  - simpl in Hk. injection Hk as ->. simpl.
    by rewrite !filter_cons, !decide_False.
  - simpl in Hk. simpl. rewrite !filter_cons.
    by rewrite (IH k).
Qed.

Lemma recordAttendance_cases data today stamp att :
  (∃ k existing,
     list_find (same_day_record (ad_studentId data) today) (rows att)
     = Some (k, existing)
     ∧ rows (recordAttendance data today stamp att)
       = <[k := {| att_id := att_id existing;
                   att_studentId := att_studentId existing;
                   att_date := att_date existing;
                   att_present := ad_present data;
                   att_method := ad_method data;
                   att_createdAt := att_createdAt existing;
                   att_updatedAt := Some stamp |}]> (rows att))
  ∨ (list_find (same_day_record (ad_studentId data) today) (rows att) = None
     ∧ rows (recordAttendance data today stamp att)
       = rows att
         ++ [{| att_id := Some (Z.of_nat (length (rows att)) + 1);
                att_studentId := ad_studentId data;
                att_date := today;
                att_present := ad_present data;
                att_method := ad_method data;
                att_createdAt := Some stamp;
                att_updatedAt := None |}]).
Proof.
  unfold recordAttendance, same_day_record.
  destruct (list_find _ (rows att)) as [[k existing]|]; [left|right]; eauto.
Qed.

Lemma one_per_day_recordAttendance data today stamp att :
  one_per_day (rows att) →
  one_per_day (rows (recordAttendance data today stamp att)).
Proof.
  intros Hone.
  destruct (recordAttendance_cases data today stamp att)
    as [(k & existing & Hfind & ->) | (Hnone & ->)].
  - apply list_find_Some in Hfind as (Hk & _ & _).
    match goal with |- one_per_day (<[k := ?e]> _) => set (e' := e) end.
    assert (Hkey : ∀ i a, <[k := e']> (rows att) !! i = Some a →
              ∃ a0, rows att !! i = Some a0
                    ∧ att_studentId a0 = att_studentId a
                    ∧ att_date a0 = att_date a).
    { intros i a Hi. apply list_lookup_insert_Some in Hi
        as [(-> & <- & _) | (Hne & Hi)]; eauto. }
    intros i j a b Hi Hj Hs Hd.
    apply Hkey in Hi as (a0 & Hi & Hs1 & Hd1).
    apply Hkey in Hj as (b0 & Hj & Hs2 & Hd2).
    apply (Hone i j a0 b0); congruence.
  - assert (Hfresh : ∀ i a, rows att !! i = Some a →
              ¬ (att_studentId a = ad_studentId data ∧ att_date a = today)).
    { intros i a Hi. apply list_find_None in Hnone.
      rewrite Forall_lookup in Hnone. by eapply Hnone. }
    intros i j a b Hi Hj Hs Hd.
    apply lookup_app_Some in Hi as [Hi | [Hlen Hi]];
      apply lookup_app_Some in Hj as [Hj | [Hlen' Hj]].
    + by apply (Hone i j a b).
    + apply list_lookup_singleton_Some in Hj as [_ <-]. simpl in *.
      by destruct (Hfresh i a Hi).
    + apply list_lookup_singleton_Some in Hi as [_ <-]. simpl in *.
      by destruct (Hfresh j b Hj).
    + apply list_lookup_singleton_Some in Hi as [? _].
      apply list_lookup_singleton_Some in Hj as [? _]. lia.
Qed.

(** X9: [recordAttendance] keeps the attendance array free of doubles: if no
    student has two records for one day before the call, none has after. *)
Theorem X9_recordAttendance_one_per_day data today stamp att :
  one_per_day (rows att) →
  one_per_day (rows (recordAttendance data today stamp att)).
Proof.
  apply one_per_day_recordAttendance.
Qed.

Lemma recordAttendance_found id (p : bool) (m : string) today stamp att :
  ∃ k r,
    list_find (same_day_record id today)
      (rows (recordAttendance
               {| ad_studentId := id; ad_present := p; ad_method := m |}
               today stamp att))
    = Some (k, r)
    ∧ att_present r = p ∧ att_method r = m
    ∧ (k < length (rows att)
       → length (rows (recordAttendance
                         {| ad_studentId := id; ad_present := p;
                            ad_method := m |} today stamp att))
         = length (rows att))%nat.
Proof.
  destruct (recordAttendance_cases
              {| ad_studentId := id; ad_present := p; ad_method := m |}
              today stamp att)
    as [(k & existing & Hfind & ->) | (Hnone & ->)]; simpl in *.
  - eexists k, _. split.
    { apply (list_find_insert_same _ _ _ existing); [done|].
      by apply list_find_Some in Hfind as (_ & ? & _). }
    split; [done|]. split; [done|]. intros _. apply length_insert.
  - eexists (length (rows att)), _. split.
    { by apply list_find_snoc_new. }
    split; [done|]. split; [done|lia].
Qed.

(** X10: what [recordAttendance] writes is what is found afterwards: the
    first record of the student for the day carries the [present] and
    [method] just given.  Recording again for the same student on the same
    day adds no record; the second values replace the first. *)
Theorem X10_recordAttendance_upsert id (p p2 : bool) (m m2 : string)
    today stamp stamp2 att :
  let att1 := recordAttendance
                {| ad_studentId := id; ad_present := p; ad_method := m |}
                today stamp att in
  let att2 := recordAttendance
                {| ad_studentId := id; ad_present := p2; ad_method := m2 |}
                today stamp2 att1 in
  (∃ k r, list_find (same_day_record id today) (rows att1) = Some (k, r)
          ∧ att_present r = p ∧ att_method r = m)
  ∧ length (rows att2) = length (rows att1)
  ∧ (∃ k r, list_find (same_day_record id today) (rows att2) = Some (k, r)
            ∧ att_present r = p2 ∧ att_method r = m2)
  ∧ rows_json att2 = rows att2.
Proof.
  intros att1 att2.
  destruct (recordAttendance_found id p m today stamp att)
    as (k & r & Hfind & Hp & Hm & _). fold att1 in Hfind.
  split; [by exists k, r|]. split; [|split].
  - destruct (recordAttendance_cases
                {| ad_studentId := id; ad_present := p2; ad_method := m2 |}
                today stamp2 att1)
      as [(k' & existing & Hfind' & Hrows) | (Hnone & _)]; simpl in *.
    + unfold att2. rewrite Hrows. apply length_insert.
    + congruence.
  - destruct (recordAttendance_found id p2 m2 today stamp2 att1)
      as (k2 & r2 & Hfind2 & Hp2 & Hm2 & _). by exists k2, r2.
  - unfold att2, recordAttendance. by destruct (list_find _ _) as [[??]|].
Qed.

(** X11: [recordAttendance] touches one record at most.  The records of
    other students and of other days are after the call what they were
    before, in the same order, and the array grows by one record or not at
    all. *)
Theorem X11_recordAttendance_leaves_the_rest data today stamp att :
  let att' := recordAttendance data today stamp att in
  filter (λ a, ¬ same_day_record (ad_studentId data) today a) (rows att')
  = filter (λ a, ¬ same_day_record (ad_studentId data) today a) (rows att)
  ∧ (length (rows att') = length (rows att)
     ∨ length (rows att') = S (length (rows att))).
Proof.
  intros att'. unfold att'.
  destruct (recordAttendance_cases data today stamp att)
    as [(k & existing & Hfind & ->) | (Hnone & ->)].
  - apply list_find_Some in Hfind as (Hk & Hkey & _).
    split; [|left; apply length_insert].
    apply (filter_insert_out _ _ _ existing); [done|by intros []..].
  - split; [|right; rewrite length_app; simpl; lia].
    rewrite filter_app, filter_cons, decide_False, filter_nil, app_nil_r;
      [done|]. intros []. done.
Qed.
End Record.

Lemma X9_recordAttendance_one_per_day_witness :
  let att := saved [mkAttendance (Some 1) 2 "2023-11-14" false "manual"
                      (Some 1700000000000) None] in
  let data := {| ad_studentId := 2; ad_present := true;
                 ad_method := "qr_code" |} in
  one_per_day (rows att)
  ∧ rows (recordAttendance data "2023-11-14" 1700000100002 att)
    = [mkAttendance (Some 1) 2 "2023-11-14" true "qr_code"
         (Some 1700000000000) (Some 1700000100002)]
  ∧ one_per_day (rows (recordAttendance data "2023-11-14" 1700000100002 att)).
Proof.
  intros att data.
  assert (Hone : one_per_day (rows att)).
  { intros [|i] [|j] a b Hi Hj _ _; simpl in *; done. }
  split; [exact Hone|]. split; [vm_compute; reflexivity|].
  exact (X9_recordAttendance_one_per_day data "2023-11-14" 1700000100002
           att Hone).
Defined.

Section AttendanceRoutes.
Implicit Types (sc : School) (mo : Moment) (student : Student).

Lemma mark_found (id : Z) student (p : bool) (method : string)
    (with_roll : bool) (message : string) mo sc k :
  find_student (Some id) (rows (students sc)) = Some (k, student) →
  Attendance_routes.mark id student p method with_roll message mo sc
  = ({| students :=
          saved (<[k := set_present student p]> (rows (students sc)));
        attendance :=
          recordAttendance
            {| ad_studentId := id; ad_present := p; ad_method := method |}
            (m_today mo) (m_stamp mo) (attendance sc) |},
     Sent 200 message
       {| mk_studentId := id; mk_studentName := st_name student;
          mk_rollNumber := if with_roll then Some (st_rollNumber student)
                           else None;
          mk_present := p; mk_method := method |}).
Proof.
  intros Hfind. unfold Attendance_routes.mark.
  by rewrite (updateStudentAttendance_found _ _ _ _ _ Hfind).
Qed.

(** What an accepted attendance request leaves behind. *)
Lemma mark_consistent (id : Z) student (p : bool) (method : string)
    (with_roll : bool) (message : string) mo sc k :
  find_student (Some id) (rows (students sc)) = Some (k, student) →
  let sc' := (Attendance_routes.mark id student p method with_roll
                message mo sc).1 in
  (∃ st, find_student (Some id) (rows (students sc')) = Some (k, st)
         ∧ st_present st = p)
  ∧ (∃ j r, list_find (same_day_record id (m_today mo))
              (rows (attendance sc')) = Some (j, r)
            ∧ att_present r = p ∧ att_method r = method)
  ∧ length (rows (students sc')) = length (rows (students sc)).
Proof.
  intros Hfind. rewrite (mark_found _ _ _ _ _ _ _ _ _ Hfind). simpl.
  split; [|split].
  - exists (set_present student p). split; [|reflexivity].
    apply (list_find_insert_same _ _ _ student); [done|].
    by apply list_find_Some in Hfind as (_ & ? & _).
  - destruct (recordAttendance_found id p method (m_today mo) (m_stamp mo)
                (attendance sc)) as (j & r & ? & ? & ? & _).
    by exists j, r.
  - apply length_insert.
Qed.

(** X12: the manual and the face-recognition route of routes/index.js either
    refuse a request and leave students and attendance as they were, or
    accept it, and then the student's [present] flag and the first
    attendance record of that student for the day agree on the value sent
    ([true] for face recognition).  No student is added or removed. *)
Theorem X12_attendance_routes_keep_flag_and_record_together
    (studentId : option Z) (present : option bool) mo sc :
  let consistent (p : bool) (method : string)
        (r : School * Answer Marked) :=
    match r.2 with
    | Refused _ _ => r.1 = sc
    | Sent _ _ marked =>
        studentId = Some (mk_studentId marked)
        ∧ (∃ k st, find_student studentId (rows (students r.1)) = Some (k, st)
                   ∧ st_present st = p)
        ∧ (∃ j a, list_find
                    (same_day_record (mk_studentId marked) (m_today mo))
                    (rows (attendance r.1)) = Some (j, a)
                  ∧ att_present a = p ∧ att_method a = method)
        ∧ length (rows (students r.1)) = length (rows (students sc))
    end in
  (∀ p, present = Some p →
        consistent p "manual"
          (Attendance_routes.post_manual studentId present mo sc))
  ∧ (present = None →
     Attendance_routes.post_manual studentId present mo sc
     = (sc, Refused 400 "Student ID and present status are required"))
  ∧ consistent true "face_recognition"
      (Attendance_routes.post_face_recognition studentId mo sc).
Proof.
  intros consistent. split; [|split].
  - intros p ->. unfold consistent, Attendance_routes.post_manual.
    destruct (negb (truthy_num studentId)); [done|].
    unfold parseInt.
    destruct (find_student studentId (rows (students sc)))
      as [[k student]|] eqn:Hfind; [|done].
    destruct studentId as [id|]; [|done].
    destruct (mark_consistent id student p "manual" false
                "Attendance recorded successfully" mo sc k Hfind)
      as ((st & Hst & Hp) & Hrec & Hlen).
    rewrite (mark_found _ _ _ _ _ _ _ _ _ Hfind) in *. simpl in *.
    split; [done|]. split; [by exists k, st|]. done.
  - by intros ->.
  - unfold consistent, Attendance_routes.post_face_recognition.
    destruct (negb (truthy_num studentId)); [done|].
    unfold parseInt.
    destruct (find_student studentId (rows (students sc)))
      as [[k student]|] eqn:Hfind; [|done].
    destruct studentId as [id|]; [|done].
    destruct (mark_consistent id student true "face_recognition" true
                "Face recognition attendance recorded successfully"
                mo sc k Hfind)
      as ((st & Hst & Hp) & Hrec & Hlen).
    rewrite (mark_found _ _ _ _ _ _ _ _ _ Hfind) in *. simpl in *.
    split; [done|]. split; [by exists k, st|]. done.
Qed.

Lemma filter_none {A} (P : A → Prop) `{!∀ x, Decision (P x)} (l : list A) :
  Forall (λ x, ¬ P x) l → filter P l = [].
Proof.
  induction 1 as [|x l Hx Hl IH]; [done|].
  by rewrite filter_cons, decide_False.
Qed.

(** With one record at most for a student and a day, the records of the day
    hold the student's record and no other of that student. *)
Lemma one_per_day_filter (l : list Attendance) (id : Z) (today : string) k r :
  one_per_day l →
  list_find (same_day_record id today) l = Some (k, r) →
  filter (λ a, att_studentId a = id) (filter (λ a, att_date a = today) l)
  = [r].
Proof.
  intros Hone (Hk & [Hid Hday] & Hbefore)%list_find_Some.
  rewrite list_filter_filter.
  rewrite <- (take_drop_middle l k r Hk), filter_app, filter_cons.
  rewrite decide_True by done.
  rewrite !filter_none; [done| |].
  - apply Forall_lookup. intros j a Hj [Ha Hd].
    rewrite lookup_drop in Hj.
    assert (k = (S k + j)%nat); [|lia].
    apply (Hone k (S k + j)%nat r a); congruence.
  - apply Forall_lookup. intros j a Hj [Ha Hd].
    apply lookup_take_Some in Hj as [Hj Hlt].
    by apply (Hbefore j a Hj Hlt).
Qed.

(** X20: when the attendance array has one record at most for a student
    and a day, the list that [GET /attendance/<today>] sends after an
    accepted manual or face-recognition request holds exactly one record
    of the student, and it carries the value and the method of that
    request. *)
Theorem X20_attendance_of_the_day_shows_the_mark
    (studentId : option Z) (p : bool) mo sc :
  one_per_day (rows (attendance sc)) →
  let shown (method : string) (value : bool)
        (r : School * Answer Marked) :=
    ∀ status message marked,
      r.2 = Sent status message marked →
      ∃ a,
        filter (λ a, att_studentId a = mk_studentId marked)
          <$> sent_data (Attendance_routes.get_by_date (m_today mo) r.1)
        = Some [a]
        ∧ att_present a = value ∧ att_method a = method in
  shown "manual" p
    (Attendance_routes.post_manual studentId (Some p) mo sc)
  ∧ shown "face_recognition" true
      (Attendance_routes.post_face_recognition studentId mo sc).
Proof.
  intros Hone shown.
  assert (Hmark : ∀ id student value method with_roll message,
            shown method value
              (Attendance_routes.mark id student value method with_roll
                 message mo sc)).
  { intros id student value method with_roll message status msg marked.
    unfold Attendance_routes.mark.
    destruct (updateStudentAttendance _ _ _) as [sts' updated].
    simpl. intros [= _ _ <-]. simpl.
    destruct (recordAttendance_found id value method (m_today mo)
                (m_stamp mo) (attendance sc)) as (j & a & Hfind & ? & ? & _).
    exists a. split; [|done]. f_equal.
    unfold getAttendanceByDate. apply (one_per_day_filter _ _ _ j); [|done].
    by apply one_per_day_recordAttendance. }
  split.
  - unfold Attendance_routes.post_manual.
    destruct (negb (truthy_num studentId)); [by intros ???|].
    destruct (find_student _ _) as [[k student]|]; [|by intros ???].
    destruct (parseInt studentId) as [id|]; [|by intros ???].
    apply Hmark.
  - unfold Attendance_routes.post_face_recognition.
    destruct (negb (truthy_num studentId)); [by intros ???|].
    destruct (find_student _ _) as [[k student]|]; [|by intros ???].
    destruct (parseInt studentId) as [id|]; [|by intros ???].
    apply Hmark.
Qed.
End AttendanceRoutes.

Lemma X20_attendance_of_the_day_shows_the_mark_witness :
  one_per_day (rows (attendance school0))
  ∧ ∃ a,
      filter (λ a, att_studentId a = 3)
        <$> sent_data
              (Attendance_routes.get_by_date (m_today tuesday)
                 (Attendance_routes.post_manual (Some 3) (Some true)
                    tuesday school0).1)
      = Some [a]
      ∧ att_present a = true ∧ att_method a = "manual".
Proof.
  assert (Hone : one_per_day (rows (attendance school0))).
  { intros i j a b Hi. simpl in Hi. done. }
  split; [exact Hone|].
  exact (proj1 (X20_attendance_of_the_day_shows_the_mark (Some 3) true
                  tuesday school0 Hone)
           200 "Attendance recorded successfully"
           {| mk_studentId := 3; mk_studentName := "Amit Kumar";
              mk_rollNumber := None; mk_present := true;
              mk_method := "manual" |} eq_refl).
Defined.

(** ** Students *)

Section Students.
Implicit Types (sts : Table Student) (body : StudentBody).

Lemma numbered_find_new (l : list Student) (new : Student) :
  numbered l → st_id new = Z.of_nat (length l) + 1 →
  find_student (Some (st_id new)) (l ++ [new]) = Some (length l, new).
Proof.
  intros Hnum Hid. unfold find_student. apply list_find_snoc_new; [|done].
  apply list_find_None, Forall_lookup. intros k s Hk [= Heq].
  apply Hnum in Hk as Hs. apply lookup_lt_Some in Hk. lia.
Qed.

(** X13: adding students through the route keeps the roll numbers distinct
    and the ids equal to the place in the array, counted from 1.  A refused
    request changes nothing; an accepted one appends the student, whose id
    is the new length, and asking for that id, written in decimal in the
    path, returns the student just added. *)
Theorem X13_post_student_keeps_ids_and_roll_numbers body (stamp : Z) sts :
  numbered (rows sts) →
  NoDup (st_rollNumber <$> rows sts) →
  let r := Student_routes.post_student body stamp sts in
  numbered (rows r.1)
  ∧ NoDup (st_rollNumber <$> rows r.1)
  ∧ match r.2 with
    | Refused _ _ => r.1 = sts
    | Sent _ _ new =>
        rows r.1 = rows sts ++ [new]
        ∧ rows_json r.1 = rows r.1
        ∧ st_id new = Z.of_nat (length (rows sts)) + 1
        ∧ Some (st_rollNumber new) = sb_rollNumber body
        ∧ Student_routes.get_student (toString (st_id new)) r.1
          = Sent 200 "Student retrieved successfully" new
    end.
Proof.
  intros Hnum Hdup. unfold Student_routes.post_student.
  destruct (negb _ || negb _ || negb _ || negb _ || negb _) eqn:Hreq;
    [done|].
  destruct (list_find _ (rows sts)) as [[k s]|] eqn:Hfind; [done|].
  apply orb_false_iff in Hreq as [Hreq _].
  apply orb_false_iff in Hreq as [Hreq _].
  apply orb_false_iff in Hreq as [Hreq _].
  apply orb_false_iff in Hreq as [_ Hroll].
  apply negb_false_iff in Hroll.
  assert (Hor : Some (or_str (sb_rollNumber body) "") = sb_rollNumber body).
  { unfold or_str. rewrite Hroll.
    by apply truthy_str_Some in Hroll as (roll & -> & _). }
  simpl.
  set (new := mkStudent _ _ _ _ _ _ _ _ _ _).
  assert (Hnew : numbered (rows sts ++ [new])).
  { intros j s Hj. apply lookup_app_Some in Hj as [Hj | [Hlen Hj]].
    - by apply Hnum.
    - apply list_lookup_singleton_Some in Hj as [? <-]. simpl. lia. }
  split; [done|]. split; [|split; [done|split; [done|split; [done|]]]].
  - rewrite fmap_app. apply NoDup_app. split; [done|]. split.
    + intros x Hx [-> | []%elem_of_nil]%elem_of_cons.
      apply list_elem_of_fmap in Hx as (s & Hs & Hin).
      apply list_find_None in Hfind. rewrite Forall_forall in Hfind.
      apply (Hfind s Hin). rewrite <- Hor. f_equal. by rewrite <- Hs.
    + apply NoDup_singleton.
  - split; [done|].
    unfold Student_routes.get_student. rewrite parseInt_str_toString.
    simpl rows.
    change (Z.of_nat (length (rows sts)) + 1) with (st_id new).
    by rewrite (numbered_find_new (rows sts) new Hnum eq_refl).
Qed.
End Students.

(** ** Complaints *)

Section Complaints.
Implicit Types (cs : Table Complaint).

Lemma post_complaint_status body (stamp : Z) cs :
  Forall (λ c, c_status c ∈ Complaint_routes.validStatuses) (rows cs) →
  Forall (λ c, c_status c ∈ Complaint_routes.validStatuses)
    (rows (Complaint_routes.post_complaint body stamp cs).1).
Proof.
  intros Hvalid. unfold Complaint_routes.post_complaint.
  destruct (negb _ || negb _ || negb _); [done|]. simpl.
  apply Forall_app. split; [done|]. constructor; [|done]. simpl.
  unfold Complaint_routes.validStatuses. set_solver.
Qed.

Lemma put_status_status (id : list N) status (stamp : Z) cs :
  Forall (λ c, c_status c ∈ Complaint_routes.validStatuses) (rows cs) →
  Forall (λ c, c_status c ∈ Complaint_routes.validStatuses)
    (rows (Complaint_routes.put_status id status stamp cs).1).
Proof.
  intros Hvalid. unfold Complaint_routes.put_status.
  destruct status as [st|]; [|done].
  destruct (decide (st ∈ Complaint_routes.validStatuses)) as [Hst|]; [|done].
  unfold updateComplaintStatus.
  destruct (list_find _ (rows cs)) as [[k c]|]; [|done]. simpl.
  by apply Forall_insert.
Qed.

(** X14: on routes/index.js the status of a complaint is always one of
    Open, In Progress, Resolved and Closed: if that is so for every
    complaint of the array, it is so after any sequence of complaints
    submitted and of status updates, accepted or refused. *)
Theorem X14_complaint_statuses_stay_valid
    (es : list Complaint_routes.Event) cs :
  Forall (λ c, c_status c ∈ Complaint_routes.validStatuses) (rows cs) →
  Forall (λ c, c_status c ∈ Complaint_routes.validStatuses)
    (rows (foldl (λ cs e, Complaint_routes.handle e cs) cs es)).
Proof.
  revert cs. induction es as [|e es IH]; intros cs Hvalid; [done|].
  simpl. apply IH. destruct e as [body stamp | id status stamp]; simpl.
  - by apply post_complaint_status.
  - by apply put_status_status.
Qed.
End Complaints.

Lemma X12_attendance_routes_keep_flag_and_record_together_witness :
  ∃ k st, find_student (Some 3)
            (rows (students
                     (Attendance_routes.post_manual (Some 3) (Some true)
                        tuesday school0).1)) = Some (k, st)
          ∧ st_present st = true.
Proof.
  pose proof (proj1 (X12_attendance_routes_keep_flag_and_record_together
                       (Some 3) (Some true) tuesday school0) true eq_refl)
    as H.
  vm_compute in H. vm_compute. exact (proj1 (proj2 H)).
Defined.

Lemma X13_post_student_keeps_ids_and_roll_numbers_witness :
  numbered [rahul; priya; amit]
  ∧ NoDup (st_rollNumber <$> [rahul; priya; amit])
  ∧ NoDup (st_rollNumber
             <$> rows (Student_routes.post_student meera 1700000100002
                         (saved [rahul; priya; amit])).1).
Proof.
  assert (Hnum : numbered [rahul; priya; amit]).
  { intros [|[|[|k]]] s [= <-]; reflexivity. }
  assert (Hdup : NoDup (st_rollNumber <$> [rahul; priya; amit])).
  { apply (bool_decide_unpack _). vm_compute. exact I. }
  split; [exact Hnum|]. split; [exact Hdup|].
  exact (proj1 (proj2 (X13_post_student_keeps_ids_and_roll_numbers
                         meera 1700000100002 (saved [rahul; priya; amit])
                         Hnum Hdup))).
Defined.

Lemma X14_complaint_statuses_stay_valid_witness :
  Forall (λ c, c_status c ∈ Complaint_routes.validStatuses)
    (rows (foldl (λ cs e, Complaint_routes.handle e cs) (saved [leak])
             [Complaint_routes.PUT_status (units "1") (Some "Resolved")
                1700000100002;
              Complaint_routes.PUT_status (units "1") (Some "Done")
                1700000100003])).
Proof.
  apply X14_complaint_statuses_stay_valid.
  apply (bool_decide_unpack _). vm_compute. exact I.
Defined.

(** ** Coordinators *)

Section Coordinators.
Implicit Types (dcs : Table DC) (body : RegisterBody).

Lemma or_str_Some v d : truthy_str v = true → Some (or_str v d) = v.
Proof.
  intros Hv. unfold or_str. rewrite Hv.
  by apply truthy_str_Some in Hv as (s & -> & _).
Qed.

Lemma or_str_filled v d : d ≠ "" → or_str v d ≠ "".
Proof.
  intros Hd. unfold or_str. destruct (truthy_str v) eqn:Hv; [|done].
  by apply truthy_str_Some in Hv as (s & -> & ?).
Qed.

(** What the check of the registration route has established when the
    handler goes on. *)
Lemma register_check_None body dcs :
  DC_routes.register_check body dcs = None →
  truthy_str (rb_email body) = true
  ∧ truthy_str (rb_employeeId body) = true
  ∧ Forall (λ dc, Some (dc_email dc) ≠ rb_email body
                  ∧ Some (dc_employeeId dc) ≠ rb_employeeId body)
      (rows dcs).
Proof.
  unfold DC_routes.register_check.
  destruct (negb _ || negb _ || negb _ || negb _) eqn:Hreq; [done|].
  destruct (list_find _ (rows dcs)) as [?|] eqn:Hfind; [done|]. intros _.
  apply orb_false_iff in Hreq as [Hreq Hemp].
  apply orb_false_iff in Hreq as [Hreq _].
  apply orb_false_iff in Hreq as [_ Hemail].
  apply negb_false_iff in Hemp, Hemail.
  split; [done|]. split; [done|].
  apply list_find_None in Hfind. eapply Forall_impl; [exact Hfind|].
  simpl. intros dc Hdc. split; intros ?; apply Hdc; [by left|by right].
Qed.

Lemma register_create_rows body (hashed : string) (created updated : Z) dcs :
  ∃ newDC,
    rows (DC_routes.register_create body hashed created updated dcs).1
    = rows dcs ++ [newDC]
    ∧ rows_json (DC_routes.register_create body hashed created updated dcs).1
      = rows dcs ++ [newDC]
    ∧ dc_id newDC = Z.of_nat (length (rows dcs)) + 1
    ∧ dc_email newDC = or_str (rb_email body) ""
    ∧ dc_employeeId newDC = or_str (rb_employeeId body) ""
    ∧ dc_password newDC = hashed
    ∧ ∃ reg,
        (DC_routes.register_create body hashed created updated dcs).2
        = Sent 201 "Registration successful" reg
        ∧ tp_id (rg_token reg) = dc_id newDC
        ∧ rg_id reg = dc_id newDC
        ∧ rg_email reg = dc_email newDC.
Proof.
  unfold DC_routes.register_create, createDC. simpl.
  eexists. repeat (split; [reflexivity|]).
  eexists. repeat (split; [reflexivity|]). reflexivity.
Qed.

(** X15: registrations that run one after the other keep the accounts
    distinct: no two coordinators share an email address or an employee id,
    and every coordinator's id is its place in the array, counted from 1.
    A refused registration changes nothing; an accepted one appends one
    account with the email and employee id of the request and the hash as
    password, and the id signed into the token is the id under which
    [getDCById] finds that account. *)
Theorem X15_register_keeps_accounts_distinct body (hashed : string)
    (created updated : Z) dcs :
  distinct_accounts (rows dcs) →
  let r := DC_routes.register body hashed created updated dcs in
  distinct_accounts (rows r.1)
  ∧ match r.2 with
    | Refused _ _ => r.1 = dcs
    | Sent _ _ reg =>
        ∃ newDC,
          rows r.1 = rows dcs ++ [newDC]
          ∧ rows_json r.1 = rows r.1
          ∧ Some (dc_email newDC) = rb_email body
          ∧ Some (dc_employeeId newDC) = rb_employeeId body
          ∧ dc_password newDC = hashed
          ∧ getDCById (tp_id (rg_token reg)) r.1 = Some newDC
    end.
Proof.
  intros (Hemail & Hemp & Hnum). unfold DC_routes.register.
  destruct (DC_routes.register_check body dcs) as [answer|] eqn:Hcheck.
  - simpl. split; [done|].
    unfold DC_routes.register_check in Hcheck.
    destruct (negb _ || negb _ || negb _ || negb _);
      [by injection Hcheck as <-|].
    destruct (list_find _ (rows dcs)); [by injection Hcheck as <-|done].
  - apply register_check_None in Hcheck as (Hte & Htm & Hfresh).
    destruct (register_create_rows body hashed created updated dcs)
      as (newDC & Hrows & Hjson & Hid & He & Hm & Hpw
          & reg & Hans & Htok & _ & _).
    cbv zeta. rewrite Hans, Hrows, Hjson.
    assert (He' : Some (dc_email newDC) = rb_email body)
      by (rewrite He; by apply or_str_Some).
    assert (Hm' : Some (dc_employeeId newDC) = rb_employeeId body)
      by (rewrite Hm; by apply or_str_Some).
    rewrite Forall_forall in Hfresh.
    split; [split; [|split]|].
    + rewrite fmap_app. apply NoDup_app. split; [done|]. split.
      * intros x Hx [-> | []%elem_of_nil]%elem_of_cons.
        apply list_elem_of_fmap in Hx as (dc & Hdc & Hin).
        apply (proj1 (Hfresh dc Hin)). by rewrite <- He', Hdc.
      * apply NoDup_singleton.
    + rewrite fmap_app. apply NoDup_app. split; [done|]. split.
      * intros x Hx [-> | []%elem_of_nil]%elem_of_cons.
        apply list_elem_of_fmap in Hx as (dc & Hdc & Hin).
        apply (proj2 (Hfresh dc Hin)). by rewrite <- Hm', Hdc.
      * apply NoDup_singleton.
    + intros k dc Hk. apply lookup_app_Some in Hk as [Hk | [Hlen Hk]].
      * by apply Hnum.
      * apply list_lookup_singleton_Some in Hk as [? <-]. lia.
    + exists newDC. repeat (split; [done|]).
      unfold getDCById. rewrite Hrows, Htok.
      rewrite (list_find_snoc_new _ (rows dcs) newDC); [done| |done].
      apply list_find_None, Forall_lookup. intros k dc Hk Heq.
      apply Hnum in Hk as Hdc. apply lookup_lt_Some in Hk. lia.
Qed.

(** X16: the check for an existing account and the creation of the account
    are separated by the [await] of the password hash.  When two requests
    with the same email address both pass the check before either creates
    its account, both are answered [201] and the array holds two accounts
    with that address, under different ids; had the second request started
    after the first had finished, it would have been refused with [409]. *)
Theorem X16_interleaved_registrations_share_an_email
    (body1 body2 : RegisterBody) (hashed1 hashed2 : string)
    (created1 updated1 created2 updated2 : Z) dcs :
  DC_routes.register_check body1 dcs = None →
  DC_routes.register_check body2 dcs = None →
  rb_email body1 = rb_email body2 →
  let r1 := DC_routes.register_create body1 hashed1 created1 updated1 dcs in
  let r2 := DC_routes.register_create body2 hashed2 created2 updated2 r1.1 in
  (∃ reg1 reg2,
      r1.2 = Sent 201 "Registration successful" reg1
      ∧ r2.2 = Sent 201 "Registration successful" reg2
      ∧ rg_email reg1 = rg_email reg2 ∧ rg_id reg1 ≠ rg_id reg2)
  ∧ ¬ NoDup (dc_email <$> rows r2.1)
  ∧ DC_routes.register body2 hashed2 created2 updated2 r1.1
    = (r1.1, Refused 409 "DC with this email or employee ID already exists").
Proof.
  intros Hc1 Hc2 Hsame r1 r2.
  destruct (register_create_rows body1 hashed1 created1 updated1 dcs)
    as (dc1 & Hrows1 & _ & Hid1 & He1 & _ & _ & reg1 & Hans1 & _ & Hrid1
        & Hre1).
  destruct (register_create_rows body2 hashed2 created2 updated2 r1.1)
    as (dc2 & Hrows2 & _ & Hid2 & He2 & _ & _ & reg2 & Hans2 & _ & Hrid2
        & Hre2).
  fold r1 in Hrows1, Hans1. fold r1 r2 in Hrows2, Hans2, Hid2.
  assert (Hmail : dc_email dc1 = dc_email dc2)
    by (by rewrite He1, He2, Hsame).
  split; [|split].
  - exists reg1, reg2. split; [done|]. split; [done|]. split.
    + by rewrite Hre1, Hre2.
    + rewrite Hrid1, Hrid2, Hid1, Hid2, Hrows1, length_app. simpl. lia.
  - rewrite Hrows2, Hrows1, !fmap_app. simpl. rewrite Hmail.
    intros Hdup. apply NoDup_app in Hdup as (_ & Hdup & _).
    apply (Hdup (dc_email dc2)); set_solver.
  - unfold DC_routes.register.
    pose proof Hc2 as (Hte & _ & _)%register_check_None.
    unfold DC_routes.register_check in Hc2 |- *.
    destruct (_ || negb (truthy_str (rb_employeeId body2))); [done|].
    destruct (list_find _ (rows r1.1)) as [?|] eqn:Hfind; [done|].
    apply list_find_None in Hfind. rewrite Hrows1 in Hfind.
    apply Forall_app in Hfind as [_ Hlast]. apply Forall_inv in Hlast.
    exfalso. apply Hlast. left. rewrite He1, Hsame.
    by apply or_str_Some.
Qed.

Lemma profile_edit_refl (user_id : Z) (dc : DC) : profile_edit user_id dc dc.
Proof. unfold profile_edit. by repeat split. Qed.

(** X17: [PUT /dc/profile] rewrites at most the caller's row and never
    blanks a field: every row keeps its id, email address, employee id,
    password, role, activity flag, picture and creation date, a name,
    contact, hostel type, hostel, floor or assignment that was not empty is
    not empty afterwards, and a row with another id is left as it was.  The
    route never answers that the update failed. *)
Theorem X17_put_profile_edits_one_row_and_blanks_nothing
    (user_id : Z) (body : ProfileBody) (stamp : Z) dcs :
  let r := DC_routes.put_profile user_id body stamp dcs in
  Forall2 (profile_edit user_id) (rows dcs) (rows r.1)
  ∧ r.2 ≠ Refused 404 "Failed to update profile"
  ∧ (∀ status error, r.2 = Refused status error → r.1 = dcs).
Proof.
  assert (Hrefl : Forall2 (profile_edit user_id) (rows dcs) (rows dcs)).
  { apply Forall2_same_length_lookup. split; [done|].
    intros k x y Hx Hy. replace y with x by congruence.
    apply profile_edit_refl. }
  unfold DC_routes.put_profile, getDCById, updateDC.
  destruct (list_find _ (rows dcs)) as [[k dc]|] eqn:Hfind; simpl.
  - split; [|done].
    apply list_find_Some in Hfind as (Hk & Hid & _).
    rewrite <- (list_insert_id (rows dcs) k dc Hk) at 1.
    apply Forall2_insert; [exact Hrefl|].
    unfold profile_edit, merge_update. simpl.
    repeat (split; [done || (intros ?; by apply or_str_filled)|]).
    intros Hne. by destruct Hne.
  - split; [done|]. split; [done|]. done.
Qed.
End Coordinators.

Lemma X15_register_keeps_accounts_distinct_witness :
  distinct_accounts (rows (saved [warden]))
  ∧ distinct_accounts
      (rows (DC_routes.register newcomer "$2a$10$y" 2000 2001
               (saved [warden])).1).
Proof.
  assert (H : distinct_accounts (rows (saved [warden]))).
  { split; [|split].
    - apply (bool_decide_unpack _). vm_compute. exact I.
    - apply (bool_decide_unpack _). vm_compute. exact I.
    - intros [|k] dc [= <-]. reflexivity. }
  split; [exact H|].
  exact (proj1 (X15_register_keeps_accounts_distinct newcomer "$2a$10$y"
                  2000 2001 (saved [warden]) H)).
Defined.

Lemma X16_interleaved_registrations_share_an_email_witness :
  ¬ NoDup (dc_email
             <$> rows (DC_routes.register_create namesake "$2a$10$z"
                         2002 2003
                         (DC_routes.register_create newcomer "$2a$10$y"
                            2000 2001 (saved [warden])).1).1).
Proof.
  exact (proj1 (proj2 (X16_interleaved_registrations_share_an_email
                         newcomer namesake "$2a$10$y" "$2a$10$z"
                         2000 2001 2002 2003 (saved [warden])
                         eq_refl eq_refl eq_refl))).
Defined.

(** ** The dashboard *)

Section DashboardLemmas.
Implicit Types (sts : Table Student) (cs : Table Complaint) (dc : DC).

Lemma length_filter_bool {A} (f : A → bool) (l : list A) :
  (length (filter (λ x, f x = false) l)
   + length (filter (λ x, f x = true) l))%nat = length l.
Proof.
  induction l as [|x l IH]; [done|].
  rewrite !filter_cons. cbn beta.
  destruct (f x); repeat case_decide; try done; simpl; lia.
Qed.

Lemma truthy_str_filled (s : string) : s ≠ "" → truthy_str (Some s) = true.
Proof.
  intros Hs. simpl. apply negb_true_iff. by apply String.eqb_neq.
Qed.

(** X18: the counts that [GET /dashboard/stats] sends agree with what the
    list routes show.  Present and absent students add up to the total, borrowed and
    available irons to the number of irons, the open complaints are as many
    as [GET /complaints?status=Open] lists, and for a coordinator who has a
    hostel the total is the number of students [GET /students] lists. *)
Theorem X18_dashboard_counts_agree_with_the_lists dc sts (db : Database) cs :
  let st := getStatistics (Some (dc_specificHostel dc)) (Some (dc_floor dc))
              sts db cs in
  stats <$> sent_data (Dashboard_routes.get_stats dc sts db cs) = Some st
  ∧ (stat_presentToday st + stat_absentToday st)%nat = stat_totalStudents st
  ∧ (stat_ironsBorrowed st + stat_availableIrons st)%nat
    = length (ironBorrowing db)
  ∧ Some (stat_openComplaints st)
    = length <$> sent_data
                   (Complaint_routes.get_complaints (Some "Open") None cs)
  ∧ (dc_specificHostel dc ≠ "" →
     Some (stat_totalStudents st)
     = length <$> sent_data (Dashboard_routes.get_students dc sts)).
Proof.
  unfold getStatistics. cbv zeta.
  set (chosen := if truthy_str (Some (dc_floor dc)) then _ else _).
  simpl stat_presentToday. simpl stat_absentToday.
  simpl stat_totalStudents. simpl stat_ironsBorrowed.
  simpl stat_availableIrons. simpl stat_openComplaints.
  split; [done|]. split; [|split; [|split]].
  - pose proof (length_filter_bool st_present chosen). lia.
  - unfold ironsBorrowed, availableIrons. apply length_filter_bool.
  - simpl. do 2 f_equal. apply list_filter_iff.
    intros c. split; [by intros ->|by intros [= ->]].
  - intros Hhostel. simpl. do 2 f_equal. unfold chosen, getStudentsByHostel.
    rewrite (truthy_str_filled _ Hhostel).
    destruct (truthy_str (Some (dc_floor dc))) eqn:Hfloor.
    + rewrite list_filter_filter. apply list_filter_iff.
      intros s. split.
      * intros [Hf [= Hh]]. done.
      * intros [Hh Hf]. split; [by apply Hf|by rewrite Hh].
    + apply list_filter_iff. intros s. split.
      * by intros [= Hh].
      * by intros [-> _].
Qed.

(** X19: for a coordinator whose hostel and floor are empty, as they are
    after a registration that names none, the dashboard counts every
    student of the array, while [GET /students] lists only the students
    whose own hostel is empty: none, when every student has a hostel. *)
Theorem X19_dashboard_without_a_hostel_counts_every_student
    dc sts (db : Database) cs :
  dc_specificHostel dc = "" → dc_floor dc = "" →
  stat_totalStudents
    (getStatistics (Some (dc_specificHostel dc)) (Some (dc_floor dc))
       sts db cs) = length (rows sts)
  ∧ (Forall (λ s, st_hostel s ≠ "") (rows sts) →
     sent_data (Dashboard_routes.get_students dc sts) = Some []).
Proof.
  intros Hh Hf. unfold getStatistics. rewrite Hh, Hf. simpl.
  split; [done|]. intros Hall. f_equal. unfold getStudentsByHostel.
  rewrite Hh. induction Hall as [|s l Hs Hl IH]; [done|].
  rewrite filter_cons, decide_False; [exact IH|]. by intros [? _].
Qed.
End DashboardLemmas.

Lemma X18_dashboard_counts_agree_with_the_lists_witness :
  Some (stat_totalStudents
          (getStatistics (Some "himgiri") (Some "first")
             (saved [rahul; priya; amit]) (mkDatabase pool3 pool3) (saved [leak])))
  = length <$> sent_data
                 (Dashboard_routes.get_students
                    {| dc_id := 1; dc_name := "Asha";
                       dc_email := "asha@hostel.in"; dc_employeeId := "E1";
                       dc_contact := "98100"; dc_password := "$2a$10$x";
                       dc_hostelType := "Boys";
                       dc_specificHostel := "himgiri"; dc_floor := "first";
                       dc_assignedDC := ""; dc_profilePic := None;
                       dc_role := Some "dc"; dc_isActive := true;
                       dc_createdAt := Some 1000;
                       dc_updatedAt := Some 1000 |}
                    (saved [rahul; priya; amit])).
Proof.
  apply (X18_dashboard_counts_agree_with_the_lists
           {| dc_id := 1; dc_name := "Asha";
              dc_email := "asha@hostel.in"; dc_employeeId := "E1";
              dc_contact := "98100"; dc_password := "$2a$10$x";
              dc_hostelType := "Boys";
              dc_specificHostel := "himgiri"; dc_floor := "first";
              dc_assignedDC := ""; dc_profilePic := None;
              dc_role := Some "dc"; dc_isActive := true;
              dc_createdAt := Some 1000; dc_updatedAt := Some 1000 |}
           (saved [rahul; priya; amit]) (mkDatabase pool3 pool3) (saved [leak])).
  vm_compute. discriminate.
Defined.

Lemma X19_dashboard_without_a_hostel_counts_every_student_witness :
  stat_totalStudents
    (getStatistics (Some (dc_specificHostel unassigned))
       (Some (dc_floor unassigned)) (saved [rahul; priya; amit])
       (mkDatabase pool3 pool3) (saved [leak])) = 3%nat
  ∧ sent_data (Dashboard_routes.get_students unassigned
                 (saved [rahul; priya; amit])) = Some [].
Proof.
  destruct (X19_dashboard_without_a_hostel_counts_every_student unassigned
              (saved [rahul; priya; amit]) (mkDatabase pool3 pool3) (saved [leak])
              eq_refl eq_refl) as [Htotal Hlist].
  split; [exact Htotal|]. apply Hlist.
  repeat constructor; vm_compute; discriminate.
Defined.
